(** * pioinstaller.penv: creation of the PlatformIO Core virtual environment

    A shallow embedding of [pioinstaller/penv.py].  The module is glue code
    around the operating system: it deletes and creates directories, starts
    processes, downloads files and writes two small files.  The embedding
    keeps that shape: every function of the module is a computation in a
    state-and-exception monad over a [world] (the files on disk and the log
    of the calls made so far), and everything the module cannot decide by
    itself (what a process does, whether a download works, which interpreters
    are installed, what the path module computes) is asked of a [host].

    Conventions.
    - Python text is a [string], its characters taken in the 8-bit range; a
      value that is either a [str] or [None] is an [option string], and Python
      truthiness on it is [truthy].
    - [log.debug] calls are left out: they have no effect on control flow.
    - Only exceptions deriving from [Exception] are modelled, so a bare
      [except Exception] catches every modelled exception; an interrupt from
      the keyboard is not modelled.
    - The file system is the map of the regular files to their content.
      Whether a file can be opened for writing is the host's answer; reading
      a file that exists always works.
    - The answers of the host may depend on the whole [world], so the same
      command may fail once and succeed later. *)

From Stdlib Require Import ZArith QArith Qround Ascii String List.
From Stdlib Require Import DecimalFacts DecimalPos DecimalN.
From stdpp Require Import gmap strings list.

Local Open Scope string_scope.
Local Open Scope list_scope.

(** ** Exceptions, processes and the log of calls *)

Inductive exn :=
| PIOInstallerException (msg : string)
| CalledProcessError (returncode : Z) (cmd : list string)
| OSError (msg : string)
| JSONDecodeError
| UnicodeDecodeError
| TypeError (msg : string).

(** What starting a process came to: it ran and exited with a return code and
    an output ([None] when the output bytes are not valid text), or it could
    not be started at all (no such executable, no permission, ...). *)
Inductive proc_result :=
| Exited (returncode : Z) (stdout : option string)
| NotStarted (reason : string).

(** The regular files on disk: path to content. *)
Abbreviation files := (gmap string string).

Inductive call :=
| CEcho (msg : string)
| CRemoveDir (path : string)
| CRun (cmd : list string)
| CCheckOutput (cmd : list string)
| CDownload (url dst : string)
| COpenWrite (path : string)
| CFindPythons (ignore : option (list string))
| CIsPortable
| CFetchPortable (dir : string)
| CTime.

Inductive outcome :=
| ODone
| OProc (r : proc_result)
| OPath (p : option string)
| OBool (b : bool)
| OList (l : list string)
| OTime (t : Q).

(** One entry of the log: the call, the files on disk when it started, and
    what it came to. *)
Record event := Event {
  ev_call : call;
  ev_before : files;
  ev_outcome : outcome
}.

Record world := World {
  fs : files;
  trace : list event
}.

(** ** The host

    The first block is fixed for a run (the platform, the process
    environment, the package's own constants); the second block are the
    collaborators, whose answers may depend on everything that happened so
    far. *)
Record host := Host {
  IS_WINDOWS : bool;
  path_join : string -> list string -> string;
  path_dirname : string -> string;
  path_basename : string -> string;
  inside : string -> string -> bool;
  getenv : string -> option string;
  get_core_dir : string;
  __version__ : string;
  platform_platform : string;
  platform_release : string;

  spawn : world -> list string -> proc_result * files;
  download : world -> string -> string -> option string * files;
  can_write : world -> string -> bool;
  compatible_pythons : world -> option (list string) -> list string;
  portable : world -> bool;
  portable_python : world -> string -> option string * files;
  clock : world -> Q
}.

(** ** The monad *)

Inductive result (A : Type) :=
| Ok (a : A)
| Raise (e : exn).
Arguments Ok {A} a.
Arguments Raise {A} e.

Definition M (A : Type) : Type := world -> result A * world.

Definition ret {A} (a : A) : M A := fun w => (Ok a, w).

Definition raise {A} (e : exn) : M A := fun w => (Raise e, w).

Definition bind {A B} (m : M A) (k : A -> M B) : M B :=
  fun w => match m w with
           | (Ok a, w') => k a w'
           | (Raise e, w') => (Raise e, w')
           end.

(** [try: m  except Exception as e: handler e] *)
Definition try_except {A} (m : M A) (handler : exn -> M A) : M A :=
  fun w => match m w with
           | (Ok a, w') => (Ok a, w')
           | (Raise e, w') => handler e w'
           end.

Declare Scope py_scope.
Delimit Scope py_scope with py.
Notation "x <- m ;; k" := (bind m (fun x => k))
  (at level 100, m at next level, right associativity) : py_scope.
Notation "m ;;; k" := (bind m (fun _ => k))
  (at level 100, right associativity) : py_scope.
Local Open Scope py_scope.

Definition emit (c : call) (o : outcome) (fs' : files) : M unit :=
  fun w => (Ok tt, World fs' (trace w ++ [Event c (fs w) o])).

(** Python truthiness of a value that is a [str] or [None]. *)
Definition truthy (v : option string) : bool :=
  match v with
  | Some (String _ _) => true
  | _ => false
  end.

(** [a or b] where [a] is a [str] or [None] and [b] a [str]. *)
Definition py_or (a : option string) (b : string) : string :=
  match a with
  | Some (String c s) => String c s
  | _ => b
  end.

(** [int(round(t))]: Python 3 rounds a half to the even neighbour. *)
Definition py_round (t : Q) : Z :=
  let f := Qfloor t in
  match Qcompare (t - inject_Z f) (1 # 2) with
  | Lt => f
  | Gt => (f + 1)%Z
  | Eq => if Z.even f then f else (f + 1)%Z
  end.

Definition VIRTUALENV_URL : string := "https://bootstrap.pypa.io/virtualenv/virtualenv.pyz".
Definition PIP_URL : string := "https://bootstrap.pypa.io/get-pip.py".

(** ** JSON

    The values [json.dump] writes and [json.load] reads back, without floats:
    the state record holds integers, text and nested dicts only.  A dict is
    the list of its items in insertion order.  Text is kept as a list of
    characters while it is encoded and decoded. *)

#[local] Unset Elimination Schemes.
Inductive json :=
| JNull
| JBool (b : bool)
| JInt (n : Z)
| JStr (s : string)
| JList (l : list json)
| JDict (d : list (string * json)).

#[local] Set Elimination Schemes.

Definition DQUOTE : ascii := Ascii false true false false false true false false.

Definition chars (s : string) : list ascii := list_ascii_of_string s.

Definition hex_digit (n : N) : ascii :=
  match n with
  | 0 => "0" | 1 => "1" | 2 => "2" | 3 => "3" | 4 => "4" | 5 => "5"
  | 6 => "6" | 7 => "7" | 8 => "8" | 9 => "9" | 10 => "a" | 11 => "b"
  | 12 => "c" | 13 => "d" | 14 => "e" | _ => "f"
  end%N%char.

Definition escape_char (c : ascii) : list ascii :=
  let n := N_of_ascii c in
  if Ascii.eqb c DQUOTE then ["\"%char; DQUOTE]
  else if Ascii.eqb c "\" then ["\"; "\"]%char
  else if (n =? 10)%N then ["\"; "n"]%char
  else if (n =? 13)%N then ["\"; "r"]%char
  else if (n =? 9)%N then ["\"; "t"]%char
  else if (n =? 8)%N then ["\"; "b"]%char
  else if (n =? 12)%N then ["\"; "f"]%char
  else if ((n <? 32) || (126 <? n))%N
       then ["\"; "u"; "0"; "0"; hex_digit (n / 16); hex_digit (n mod 16)]%char
  else [c].

Definition encode_str (s : string) : list ascii :=
  DQUOTE :: flat_map escape_char (chars s) ++ [DQUOTE].

Fixpoint uint_chars (d : Decimal.uint) : list ascii :=
  match d with
  | Decimal.Nil => []
  | Decimal.D0 d => "0"%char :: uint_chars d
  | Decimal.D1 d => "1"%char :: uint_chars d
  | Decimal.D2 d => "2"%char :: uint_chars d
  | Decimal.D3 d => "3"%char :: uint_chars d
  | Decimal.D4 d => "4"%char :: uint_chars d
  | Decimal.D5 d => "5"%char :: uint_chars d
  | Decimal.D6 d => "6"%char :: uint_chars d
  | Decimal.D7 d => "7"%char :: uint_chars d
  | Decimal.D8 d => "8"%char :: uint_chars d
  | Decimal.D9 d => "9"%char :: uint_chars d
  end.

Definition encode_int (n : Z) : list ascii :=
  match n with
  | Z0 => ["0"%char]
  | Zpos p => uint_chars (Pos.to_uint p)
  | Zneg p => "-"%char :: uint_chars (Pos.to_uint p)
  end.

(** [sep.join(items)] *)
Fixpoint join_items (sep : list ascii) (items : list (list ascii)) : list ascii :=
  match items with
  | [] => []
  | x :: r =>
      x ++ match r with
           | [] => []
           | _ :: _ => sep ++ join_items sep r
           end
  end.

(** [json.dumps] with its defaults: [", "] and [": "] as separators, keys in
    the dict's order, every character outside printable ASCII escaped. *)
Fixpoint encode (v : json) : list ascii :=
  match v with
  | JNull => chars "null"
  | JBool true => chars "true"
  | JBool false => chars "false"
  | JInt n => encode_int n
  | JStr s => encode_str s
  | JList l =>
      "["%char :: join_items (chars ", ") (map encode l) ++ ["]"%char]
  | JDict d =>
      "{"%char ::
      join_items (chars ", ")
        (map (fun kv => encode_str kv.1 ++ chars ": " ++ encode kv.2) d)
      ++ ["}"%char]
  end.

Definition json_dumps (v : json) : string := string_of_list_ascii (encode v).

(** *** Decoding *)

Definition is_ws (c : ascii) : bool :=
  let n := N_of_ascii c in
  ((n =? 32) || (n =? 9) || (n =? 10) || (n =? 13))%N.

Fixpoint skip_ws (s : list ascii) : list ascii :=
  match s with
  | c :: r => if is_ws c then skip_ws r else s
  | [] => []
  end.

Definition hex_value (c : ascii) : option N :=
  let n := N_of_ascii c in
  if ((48 <=? n) && (n <=? 57))%N then Some (n - 48)%N
  else if ((97 <=? n) && (n <=? 102))%N then Some (n - 87)%N
  else if ((65 <=? n) && (n <=? 70))%N then Some (n - 55)%N
  else None.

Definition hex4 (a b c d : ascii) : option N :=
  match hex_value a, hex_value b, hex_value c, hex_value d with
  | Some x, Some y, Some z, Some t => Some (((x * 16 + y) * 16 + z) * 16 + t)%N
  | _, _, _, _ => None
  end.

Definition unescape (e : ascii) : option ascii :=
  if Ascii.eqb e DQUOTE then Some DQUOTE
  else if Ascii.eqb e "\" then Some "\"%char
  else if Ascii.eqb e "/" then Some "/"%char
  else if Ascii.eqb e "b" then Some (ascii_of_N 8)
  else if Ascii.eqb e "f" then Some (ascii_of_N 12)
  else if Ascii.eqb e "n" then Some (ascii_of_N 10)
  else if Ascii.eqb e "r" then Some (ascii_of_N 13)
  else if Ascii.eqb e "t" then Some (ascii_of_N 9)
  else None.

Definition push (c : ascii) (p : option (list ascii * list ascii)) :
    option (list ascii * list ascii) :=
  match p with
  | Some (cs, r) => Some (c :: cs, r)
  | None => None
  end.

(** The text of a string literal, from just after its opening quote. *)
Fixpoint scanstring (s : list ascii) : option (list ascii * list ascii) :=
  match s with
  | [] => None
  | c :: r =>
      if Ascii.eqb c DQUOTE then Some ([], r)
      else if Ascii.eqb c "\" then
        match r with
        | [] => None
        | e :: r1 =>
            if Ascii.eqb e "u" then
              match r1 with
              | a :: b :: c' :: d :: r2 =>
                  match hex4 a b c' d with
                  | Some n => if (n <? 256)%N then push (ascii_of_N n) (scanstring r2)
                              else None
                  | None => None
                  end
              | _ => None
              end
            else
              match unescape e with
              | Some x => push x (scanstring r1)
              | None => None
              end
        end
      else if (N_of_ascii c <? 32)%N then None
      else push c (scanstring r)
  end.

Definition digit_of (c : ascii) : option (Decimal.uint -> Decimal.uint) :=
  match N_of_ascii c with
  | 48 => Some Decimal.D0 | 49 => Some Decimal.D1 | 50 => Some Decimal.D2
  | 51 => Some Decimal.D3 | 52 => Some Decimal.D4 | 53 => Some Decimal.D5
  | 54 => Some Decimal.D6 | 55 => Some Decimal.D7 | 56 => Some Decimal.D8
  | 57 => Some Decimal.D9 | _ => None
  end%N.

Definition is_digit (c : ascii) : bool :=
  match digit_of c with Some _ => true | None => false end.

Fixpoint read_uint (s : list ascii) : Decimal.uint * list ascii :=
  match s with
  | [] => (Decimal.Nil, [])
  | c :: r =>
      match digit_of c with
      | Some k => let '(u, r') := read_uint r in (k u, r')
      | None => (Decimal.Nil, s)
      end
  end.

(** Does a fraction or an exponent follow the integer part? *)
Definition float_tail (s : list ascii) : bool :=
  match s with
  | c :: d :: r =>
      if Ascii.eqb c "." then is_digit d
      else if Ascii.eqb c "e" || Ascii.eqb c "E" then
        if is_digit d then true
        else if Ascii.eqb d "+" || Ascii.eqb d "-" then
          match r with
          | d' :: _ => is_digit d'
          | [] => false
          end
        else false
      else false
  | _ => false
  end.

(** The integer part of a number: an optional minus sign, then a single
    zero or a digit from 1 to 9 followed by any digits. *)
Definition scan_int (s : list ascii) : option (Z * list ascii) :=
  let '(neg, s1) :=
    match s with
    | c :: r => if Ascii.eqb c "-" then (true, r) else (false, s)
    | [] => (false, s)
    end in
  match s1 with
  | [] => None
  | c :: r =>
      if Ascii.eqb c "0" then Some (0%Z, r)
      else if is_digit c then
        let '(u, r') := read_uint s1 in
        let n := Z.of_N (N.of_uint u) in
        Some (if neg then (- n)%Z else n, r')
      else None
  end.

Fixpoint strip_prefix (p s : list ascii) : option (list ascii) :=
  match p, s with
  | [], _ => Some s
  | a :: p', b :: s' => if Ascii.eqb a b then strip_prefix p' s' else None
  | _ :: _, [] => None
  end.

(** [dict(pairs)]: a later pair with a key already present replaces the
    value and keeps the key's place. *)
Fixpoint dict_set (k : string) (v : json) (d : list (string * json)) :
    list (string * json) :=
  match d with
  | [] => [(k, v)]
  | (k', v') :: r =>
      if String.eqb k k' then (k', v) :: r else (k', v') :: dict_set k v r
  end.

Definition dict_of_pairs (pairs : list (string * json)) : list (string * json) :=
  fold_left (fun d kv => dict_set kv.1 kv.2 d) pairs [].

Fixpoint scan_value (fuel : nat) (s : list ascii) : option (json * list ascii) :=
  match fuel with
  | O => None
  | S fuel' =>
      match s with
      | [] => None
      | c :: r =>
          if Ascii.eqb c DQUOTE then
            match scanstring r with
            | Some (cs, r') => Some (JStr (string_of_list_ascii cs), r')
            | None => None
            end
          else if Ascii.eqb c "{" then
            match skip_ws r with
            | [] => None
            | c1 :: r1 =>
                if Ascii.eqb c1 "}" then Some (JDict [], r1)
                else
                  match scan_members fuel' (c1 :: r1) with
                  | Some (pairs, r') => Some (JDict (dict_of_pairs pairs), r')
                  | None => None
                  end
            end
          else if Ascii.eqb c "[" then
            match skip_ws r with
            | [] => None
            | c1 :: r1 =>
                if Ascii.eqb c1 "]" then Some (JList [], r1)
                else
                  match scan_elements fuel' (c1 :: r1) with
                  | Some (vs, r') => Some (JList vs, r')
                  | None => None
                  end
            end
          else if Ascii.eqb c "n" then
            match strip_prefix (chars "null") s with
            | Some r' => Some (JNull, r')
            | None => None
            end
          else if Ascii.eqb c "t" then
            match strip_prefix (chars "true") s with
            | Some r' => Some (JBool true, r')
            | None => None
            end
          else if Ascii.eqb c "f" then
            match strip_prefix (chars "false") s with
            | Some r' => Some (JBool false, r')
            | None => None
            end
          else
            match scan_int s with
            | Some (n, r') => if float_tail r' then None else Some (JInt n, r')
            | None => None
            end
      end
  end
with scan_elements (fuel : nat) (s : list ascii) : option (list json * list ascii) :=
  match fuel with
  | O => None
  | S fuel' =>
      match scan_value fuel' s with
      | None => None
      | Some (v, r) =>
          match skip_ws r with
          | [] => None
          | c :: r1 =>
              if Ascii.eqb c "]" then Some ([v], r1)
              else if Ascii.eqb c "," then
                match scan_elements fuel' (skip_ws r1) with
                | Some (vs, r') => Some (v :: vs, r')
                | None => None
                end
              else None
          end
      end
  end
with scan_members (fuel : nat) (s : list ascii) :
    option (list (string * json) * list ascii) :=
  match fuel with
  | O => None
  | S fuel' =>
      match s with
      | [] => None
      | q :: r =>
          if negb (Ascii.eqb q DQUOTE) then None
          else
            match scanstring r with
            | None => None
            | Some (k, r1) =>
                match skip_ws r1 with
                | [] => None
                | c :: r2 =>
                    if negb (Ascii.eqb c ":") then None
                    else
                      match scan_value fuel' (skip_ws r2) with
                      | None => None
                      | Some (v, r3) =>
                          match skip_ws r3 with
                          | [] => None
                          | c' :: r4 =>
                              if Ascii.eqb c' "}"
                              then Some ([(string_of_list_ascii k, v)], r4)
                              else if Ascii.eqb c' "," then
                                match scan_members fuel' (skip_ws r4) with
                                | Some (ps, r') =>
                                    Some ((string_of_list_ascii k, v) :: ps, r')
                                | None => None
                                end
                              else None
                          end
                      end
                end
            end
      end
  end.

(** [json.loads]: one value, with white space around it and nothing else.
    [None] stands for [JSONDecodeError], and also for a text that holds a
    float or a character beyond the 8-bit range, which [json] cannot
    represent. *)
Definition json_loads (s : string) : option json :=
  let cs := chars s in
  match scan_value (length cs) (skip_ws cs) with
  | Some (v, r) => match skip_ws r with [] => Some v | _ :: _ => None end
  | None => None
  end.

(** *** Well-formed values and their size *)

Fixpoint nodup_keys (ks : list string) : bool :=
  match ks with
  | [] => true
  | k :: r => negb (existsb (String.eqb k) r) && nodup_keys r
  end.

(** A Python dict has each key once. *)
Fixpoint wf_json (v : json) : bool :=
  match v with
  | JList l => forallb wf_json l
  | JDict d => nodup_keys (map fst d) && forallb (fun kv => wf_json kv.2) d
  | _ => true
  end.

Fixpoint json_size (v : json) : nat :=
  match v with
  | JList l => S (fold_right (fun x n => S (json_size x + n)) 0 l)
  | JDict d => S (fold_right (fun kv n => S (json_size kv.2 + n)) 0 d)
  | _ => 1
  end.

(** *** Notions used to state the round trip *)

(** What may follow a value inside a document. *)
Definition ends_value (r : list ascii) : bool :=
  match r with
  | [] => true
  | c :: _ => Ascii.eqb c "," || Ascii.eqb c "]" || Ascii.eqb c "}"
  end.

(** The characters a value's text can start with. *)
Definition value_start (c : ascii) : bool :=
  is_digit c || Ascii.eqb c "-" || Ascii.eqb c DQUOTE || Ascii.eqb c "{"
  || Ascii.eqb c "[" || Ascii.eqb c "n" || Ascii.eqb c "t" || Ascii.eqb c "f".

Definition elems_size (l : list json) : nat :=
  fold_right (fun x n => S (json_size x + n)) 0 l.

Definition members_size (d : list (string * json)) : nat :=
  fold_right (fun kv n => S (json_size kv.2 + n)) 0 d.

Definition decodes (v : json) : Prop :=
  wf_json v = true ->
  forall fuel r, json_size v <= fuel -> ends_value r = true ->
  scan_value fuel (encode v ++ r) = Some (v, r).

(** *** Notions used to state what a cut-short text does *)

(** The remainder starts with white space or with a character that closes a
    value inside a document. *)
Definition delimited (r : list ascii) : bool :=
  match r with
  | c :: _ => is_ws c || Ascii.eqb c "," || Ascii.eqb c "]" || Ascii.eqb c "}"
  | [] => false
  end.

Definition is_int (v : json) : bool :=
  match v with JInt _ => true | _ => false end.


(** ** Python library functions *)

(** [str.strip()]: white space, for characters in the 8-bit range. *)
Definition py_isspace (c : ascii) : bool :=
  let n := N_of_ascii c in
  (((9 <=? n) && (n <=? 13)) || ((28 <=? n) && (n <=? 32))
   || (n =? 133) || (n =? 160))%N.

Fixpoint lstrip (s : list ascii) : list ascii :=
  match s with
  | c :: r => if py_isspace c then lstrip r else s
  | [] => []
  end.

Definition strip (s : string) : string :=
  string_of_list_ascii (rev (lstrip (rev (lstrip (chars s))))).

(** [try: m  except subprocess.CalledProcessError as e: handler e] *)
Definition try_except_CalledProcessError {A} (m : M A) (handler : exn -> M A) : M A :=
  fun w => match m w with
           | (Raise (CalledProcessError code cmd), w') =>
               handler (CalledProcessError code cmd) w'
           | other => other
           end.

Definition NL : string := String (ascii_of_nat 10) EmptyString.

Section Penv.

Context (h : host).

(** ** Library and collaborator calls *)

Definition click_echo (msg : string) : M unit :=
  fun w => emit (CEcho msg) ODone (fs w) w.

(** Modelled from the spec: [util.safe_remove_dir] is not part of the module;
    the spec has it forcibly clear the target path.  It deletes every file
    inside [path] and never raises. *)
Definition safe_remove_dir (path : string) : M unit :=
  fun w => emit (CRemoveDir path) ODone
                (filter (fun kv => inside h path kv.1 = false) (fs w)) w.

(** [subprocess.run(cmd, check=True)] *)
Definition subprocess_run (cmd : list string) : M unit :=
  fun w =>
    let '(r, fs') := spawn h w cmd in
    (_ <- emit (CRun cmd) (OProc r) fs' ;;
     match r with
     | Exited 0 _ => ret tt
     | Exited code _ => raise (CalledProcessError code cmd)
     | NotStarted reason => raise (OSError reason)
     end) w.

(** [subprocess.check_output(cmd, stderr=subprocess.PIPE)]: the output, still
    undecoded. *)
Definition subprocess_check_output (cmd : list string) : M (option string) :=
  fun w =>
    let '(r, fs') := spawn h w cmd in
    (_ <- emit (CCheckOutput cmd) (OProc r) fs' ;;
     match r with
     | Exited 0 out => ret out
     | Exited code _ => raise (CalledProcessError code cmd)
     | NotStarted reason => raise (OSError reason)
     end) w.

(** [bytes.decode()] *)
Definition decode (out : option string) : M string :=
  match out with
  | Some s => ret s
  | None => raise UnicodeDecodeError
  end.

(** [util.download_file(url, dst)]: a path, or [None]; it does not raise. *)
Definition download_file (url dst : string) : M (option string) :=
  fun w =>
    let '(r, fs') := download h w url dst in
    (_ <- emit (CDownload url dst) (OPath r) fs' ;; ret r) w.

(** [with open(path, "w") as fp: fp.write(content)] *)
Definition write_file (path content : string) : M unit :=
  fun w =>
    if can_write h w path
    then emit (COpenWrite path) (OBool true) (<[path := content]> (fs w)) w
    else (_ <- emit (COpenWrite path) (OBool false) (fs w) ;;
          raise (OSError path)) w.

(** [os.path.isfile(path)] *)
Definition isfile (path : string) : M bool :=
  fun w => (Ok (bool_decide (is_Some (fs w !! path))), w).

(** [with open(path) as fp: fp.read()] *)
Definition read_file (path : string) : M string :=
  fun w => match fs w !! path with
           | Some content => (Ok content, w)
           | None => (Raise (OSError path), w)
           end.

Definition find_compatible_pythons (ignore : option (list string)) : M (list string) :=
  fun w =>
    let l := compatible_pythons h w ignore in
    (_ <- emit (CFindPythons ignore) (OList l) (fs w) ;; ret l) w.

Definition is_portable : M bool :=
  fun w =>
    let b := portable h w in
    (_ <- emit CIsPortable (OBool b) (fs w) ;; ret b) w.

Definition fetch_portable_python (dir : string) : M (option string) :=
  fun w =>
    let '(r, fs') := portable_python h w dir in
    (_ <- emit (CFetchPortable dir) (OPath r) fs' ;; ret r) w.

Definition time_time : M Q :=
  fun w =>
    let t := clock h w in
    (_ <- emit CTime (OTime t) (fs w) ;; ret t) w.

(** ** The module *)

Definition get_penv_dir (path : option string) : string :=
  if truthy (getenv h "PLATFORMIO_PENV_DIR")
  then default EmptyString (getenv h "PLATFORMIO_PENV_DIR")
  else
    let core_dir := py_or path (get_core_dir h) in
    path_join h core_dir ["penv"].

Definition get_penv_bin_dir (path : option string) : string :=
  let penv_dir := py_or path (get_penv_dir None) in
  path_join h penv_dir [if IS_WINDOWS h then "Scripts" else "bin"].

Definition venv_cmd_options (python_exe penv_dir : string) : list (list string) :=
  [ [python_exe; "-m"; "venv"; penv_dir];
    [python_exe; "-m"; "virtualenv"; "-p"; python_exe; penv_dir];
    ["virtualenv"; "-p"; python_exe; penv_dir];
    [python_exe; "-m"; "virtualenv"; penv_dir];
    ["virtualenv"; penv_dir] ].

(** The [for command in venv_cmd_options] loop of [create_with_local_venv],
    with [last_error] as an accumulator. *)
Fixpoint try_commands (penv_dir : string) (commands : list (list string))
    (last_error : option exn) : M string :=
  match commands with
  | [] =>
      match last_error with
      | Some e => raise e
      | None => raise (TypeError "exceptions must derive from BaseException")
      end
  | command :: rest =>
      _ <- safe_remove_dir penv_dir ;;
      fun w => match subprocess_run command w with
               | (Ok _, w') => (Ok penv_dir, w')
               | (Raise e, w') => try_commands penv_dir rest (Some e) w'
               end
  end.

Definition create_with_local_venv (python_exe penv_dir : string) : M string :=
  try_commands penv_dir (venv_cmd_options python_exe penv_dir) None.

Definition venv_script_cache (penv_dir : string) : string :=
  path_join h (path_dirname h penv_dir)
    [".cache"; "tmp"; path_basename h VIRTUALENV_URL].

Definition create_with_remote_venv (python_exe penv_dir : string) : M string :=
  _ <- safe_remove_dir penv_dir ;;
  venv_script_path <- download_file VIRTUALENV_URL (venv_script_cache penv_dir) ;;
  if negb (truthy venv_script_path)
  then raise (PIOInstallerException "Could not find virtualenv script")
  else
    let command := [python_exe; default EmptyString venv_script_path; penv_dir] in
    _ <- subprocess_run command ;;
    ret penv_dir.

Definition create_virtualenv (python_exe penv_dir : string) : M (option string) :=
  try_except
    (r <- create_with_local_venv python_exe penv_dir ;; ret (Some r))
    (fun e =>
       try_except
         (r <- create_with_remote_venv python_exe penv_dir ;; ret (Some r))
         (fun exc => ret None)).

Definition version_code : string :=
  "import sys; version=sys.version_info; " +:+
  "print('%d.%d.%d'%(version[0],version[1],version[2]))".

Definition save_state (state : json) (penv_dir : option string) : M string :=
  let penv_dir := py_or penv_dir (get_penv_dir None) in
  let state_path := path_join h penv_dir ["state.json"] in
  _ <- write_file state_path (json_dumps state) ;;
  ret state_path.

Definition load_state (penv_dir : option string) : M json :=
  let penv_dir := py_or penv_dir (get_penv_dir None) in
  let state_path := path_join h penv_dir ["state.json"] in
  present <- isfile state_path ;;
  if negb present
  then raise (PIOInstallerException
                ("Could not found state.json file in `" +:+ state_path +:+ "`"))
  else
    content <- read_file state_path ;;
    match json_loads content with
    | Some state => ret state
    | None => raise JSONDecodeError
    end.

(** The dict literal of [init_state]. *)
Definition state_record (created_on : Z) (python_exe python_version : string) : json :=
  JDict [ ("created_on", JInt created_on);
          ("python", JDict [ ("path", JStr python_exe);
                             ("version", JStr python_version) ]);
          ("installer_version", JStr (__version__ h));
          ("platform", JDict [ ("platform", JStr (platform_platform h));
                               ("release", JStr (platform_release h)) ]) ].

Definition init_state (python_exe penv_dir : string) : M string :=
  out <- subprocess_check_output [python_exe; "-c"; version_code] ;;
  text <- decode out ;;
  let python_version := strip text in
  now <- time_time ;;
  let state := state_record (py_round now) python_exe python_version in
  save_state state (Some penv_dir).

Definition get_pip_cache (penv_dir : string) : string :=
  path_join h (path_dirname h penv_dir) [".cache"; "tmp"; path_basename h PIP_URL].

Definition pip_upgrade_command (python_exe : string) : list string :=
  [python_exe; "-m"; "pip"; "install"; "-U"; "pip"].

Definition update_pip (python_exe penv_dir : string) : M bool :=
  _ <- click_echo "Updating Python package manager (PIP) in the virtual environment" ;;
  try_except
    (_ <- write_file (path_join h penv_dir ["pip.conf"])
                     ("[global]" +:+ NL +:+ "user=no") ;;
     _ <- try_except_CalledProcessError
            (subprocess_run (pip_upgrade_command python_exe))
            (fun e =>
               let get_pip_path := get_pip_cache penv_dir in
               _ <- download_file PIP_URL get_pip_path ;;
               subprocess_run [python_exe; get_pip_path]) ;;
     _ <- click_echo "PIP has been successfully updated!" ;;
     ret true)
    (fun e => ret false).

(** The [for python_exe in ...] loop of [create_core_penv]; it leaves the
    loop at the first truthy [result_dir]. *)
Fixpoint try_pythons (pythons : list string) (penv_dir : string)
    (result_dir : option string) : M (option string) :=
  match pythons with
  | [] => ret result_dir
  | python_exe :: rest =>
      result_dir <- create_virtualenv python_exe penv_dir ;;
      if truthy result_dir then ret result_dir
      else try_pythons rest penv_dir result_dir
  end.

Definition BUILD_FAILURE : string :=
  "Could not create PIO Core Virtual Environment. Please report to " +:+
  "https://github.com/platformio/platformio-core-installer/issues".

Definition create_core_penv (penv_dir : option string)
    (ignore_pythons : option (list string)) : M (option string) :=
  let penv_dir := py_or penv_dir (get_penv_dir None) in
  _ <- click_echo ("Creating a virtual environment at " +:+ penv_dir) ;;
  pythons <- find_compatible_pythons ignore_pythons ;;
  result_dir <- try_pythons pythons penv_dir None ;;
  result_dir <-
    (if negb (truthy result_dir)
     then
       running_portable <- is_portable ;;
       if negb running_portable
       then
         python_exe <- fetch_portable_python (path_dirname h penv_dir) ;;
         if truthy python_exe
         then create_virtualenv (default EmptyString python_exe) penv_dir
         else ret result_dir
       else ret result_dir
     else ret result_dir) ;;
  if negb (truthy result_dir)
  then raise (PIOInstallerException BUILD_FAILURE)
  else
    let python_exe :=
      path_join h (get_penv_bin_dir (Some penv_dir))
        [if IS_WINDOWS h then "python.exe" else "python"] in
    _ <- init_state python_exe penv_dir ;;
    _ <- update_pip python_exe penv_dir ;;
    _ <- click_echo "Virtual environment has been successfully created!" ;;
    ret result_dir.

End Penv.

(** ** Observations on a run *)

Section Observations.

Context (h : host).

(** One construction attempt of the local loop: clear the target, run the
    command. *)
Definition attempt (penv_dir : string) (command : list string) : M unit :=
  _ <- safe_remove_dir h penv_dir ;; subprocess_run h command.

(** The world after every command of [commands] has been attempted in turn
    and has failed; [None] if one of them succeeds. *)
Fixpoint all_fail (penv_dir : string) (commands : list (list string)) (w : world) :
    option world :=
  match commands with
  | [] => Some w
  | c :: cs =>
      match attempt penv_dir c w with
      | (Raise _, w') => all_fail penv_dir cs w'
      | (Ok _, _) => None
      end
  end.

(** The calls a run of the local loop makes when it tries [commands]. *)
Definition attempt_calls (penv_dir : string) (commands : list (list string)) : list call :=
  flat_map (fun c => [CRemoveDir penv_dir; CRun c]) commands.

(** The world after every interpreter of [pythons] has been tried in turn and
    none gave an environment; [None] if one of them does. *)
Fixpoint candidates_exhausted (penv_dir : string) (pythons : list string) (w : world) :
    option world :=
  match pythons with
  | [] => Some w
  | p :: ps =>
      match create_virtualenv h p penv_dir w with
      | (Ok r, w') => if truthy r then None else candidates_exhausted penv_dir ps w'
      | (Raise _, _) => None
      end
  end.

(** The calls of one remote attempt, given what the download returned. *)
Definition remote_calls (python_exe penv_dir : string) (script : option string) :
    list call :=
  [CRemoveDir penv_dir; CDownload VIRTUALENV_URL (venv_script_cache h penv_dir)]
  ++ (if truthy script
      then [CRun [python_exe; default EmptyString script; penv_dir]]
      else []).

(** The events logged between two worlds. *)
Definition new_events (w w' : world) : list event :=
  drop (length (trace w)) (trace w').

Definition is_run (c : call) : bool :=
  match c with CRun _ => true | _ => false end.

Definition is_download (c : call) : bool :=
  match c with CDownload _ _ => true | _ => false end.

Definition is_fetch_portable (c : call) : bool :=
  match c with CFetchPortable _ => true | _ => false end.

Definition proc_ok (r : proc_result) : bool :=
  match r with Exited 0 _ => true | _ => false end.

Definition proc_exit_error (r : proc_result) : bool :=
  match r with Exited 0 _ => false | Exited _ _ => true | NotStarted _ => false end.

(** How the run of [cmd] recorded in [evs] ended, if [cmd] was run. *)
Fixpoint run_result (cmd : list string) (evs : list event) : option proc_result :=
  match evs with
  | [] => None
  | Event (CRun c) _ (OProc r) :: rest =>
      if bool_decide (c = cmd) then Some r else run_result cmd rest
  | _ :: rest => run_result cmd rest
  end.

(** The calls the environment builder makes. *)
Definition builder_call (c : call) : bool :=
  match c with
  | CRemoveDir _ | CRun _ | CDownload _ _ => true
  | _ => false
  end.

(** The first steps of [create_core_penv]: the announcement and the search
    for interpreters. *)
Definition discover (penv_dir : string) (ignore_pythons : option (list string)) :
    M (list string) :=
  _ <- click_echo ("Creating a virtual environment at " +:+ penv_dir) ;;
  find_compatible_pythons h ignore_pythons.

(** From [w1], no environment comes from a portable interpreter, and the
    world is then [w2]: the running interpreter is itself portable, or the
    fetch gives nothing, or the fetched interpreter cannot build one. *)
Definition portable_fallback_fails (penv_dir : string) (w1 w2 : world) : Prop :=
  is_portable h w1 = (Ok true, w2) \/
  exists w', is_portable h w1 = (Ok false, w') /\
    exists r w'', fetch_portable_python h (path_dirname h penv_dir) w' = (Ok r, w'') /\
      if truthy r
      then candidates_exhausted penv_dir [default EmptyString r] w'' = Some w2
      else w'' = w2.

Definition run_ok (cmd : list string) (evs : list event) : bool :=
  match run_result cmd evs with Some r => proc_ok r | None => false end.

Definition run_exit_error (cmd : list string) (evs : list event) : bool :=
  match run_result cmd evs with Some r => proc_exit_error r | None => false end.

Definition no_download (evs : list event) : bool :=
  forallb (fun e => negb (is_download (ev_call e))) evs.

Definition no_run (evs : list event) : bool :=
  forallb (fun e => negb (is_run (ev_call e))) evs.

(** The world after the announcement of [update_pip]. *)
Definition announced (w : world) : world :=
  World (fs w)
    (trace w ++
     [Event (CEcho "Updating Python package manager (PIP) in the virtual environment")
            (fs w) ODone]).

(** Where [save_state] and [load_state] keep the record. *)
Definition state_path (penv_dir : option string) : string :=
  path_join h (py_or penv_dir (get_penv_dir h None)) ["state.json"].

(** [d.get(k)] on a dict. *)
Fixpoint dict_get (k : string) (d : list (string * json)) : option json :=
  match d with
  | [] => None
  | (k', v) :: r => if String.eqb k k' then Some v else dict_get k r
  end.

(** No file lies inside [dir]. *)
Definition cleared (dir : string) (m : files) : Prop :=
  forall f, inside h dir f = true -> m !! f = None.

(** No file lies inside [dir], but perhaps the one at [keep]. *)
Definition cleared_but (dir keep : string) (m : files) : Prop :=
  forall f, inside h dir f = true -> f <> keep -> m !! f = None.

(** A download changes no file but its destination. *)
Definition download_frame : Prop :=
  forall w url dst f, f <> dst -> (download h w url dst).2 !! f = fs w !! f.

End Observations.

(** ** The two halves of [create_core_penv] *)

Section Workflow.

Context (h : host).

(** The directory [create_core_penv] works on. *)
Definition resolve_target (penv_dir : option string) : string :=
  py_or penv_dir (get_penv_dir h None).

(** [create_core_penv] up to the point where [result_dir] is settled: the
    loop over the interpreters found, then the portable interpreter. *)
Definition build_environment (penv_dir : string)
    (ignore_pythons : option (list string)) : M (option string) :=
  _ <- click_echo ("Creating a virtual environment at " +:+ penv_dir) ;;
  pythons <- find_compatible_pythons h ignore_pythons ;;
  result_dir <- try_pythons h pythons penv_dir None ;;
  if negb (truthy result_dir)
  then
    running_portable <- is_portable h ;;
    if negb running_portable
    then
      python_exe <- fetch_portable_python h (path_dirname h penv_dir) ;;
      if truthy python_exe
      then create_virtualenv h (default EmptyString python_exe) penv_dir
      else ret result_dir
    else ret result_dir
  else ret result_dir.

(** The interpreter of the environment itself. *)
Definition env_python (penv_dir : string) : string :=
  path_join h (get_penv_bin_dir h (Some penv_dir))
    [if IS_WINDOWS h then "python.exe" else "python"].

(** [create_core_penv] from the point where [result_dir] is settled. *)
Definition record_environment (penv_dir : string) (result_dir : option string) :
    M (option string) :=
  if negb (truthy result_dir)
  then raise (PIOInstallerException BUILD_FAILURE)
  else
    _ <- init_state h (env_python penv_dir) penv_dir ;;
    _ <- update_pip h (env_python penv_dir) penv_dir ;;
    _ <- click_echo "Virtual environment has been successfully created!" ;;
    ret result_dir.

(** The world after the closing announcement of [create_core_penv]. *)
Definition finished (w : world) : world :=
  World (fs w)
    (trace w ++
     [Event (CEcho "Virtual environment has been successfully created!") (fs w) ODone]).

(** Did the last call logged in [evs] run a command that exited with
    status 0? *)
Definition last_run_ok (evs : list event) : bool :=
  match last evs with
  | Some (Event (CRun _) _ (OProc r)) => proc_ok r
  | _ => false
  end.

(** The calls that record the environment or change its configuration. *)
Definition recording_call (c : call) : bool :=
  match c with
  | COpenWrite _ | CCheckOutput _ | CTime => true
  | _ => false
  end.

(** The exception [subprocess.run(cmd, check=True)] raises on a result. *)
Definition run_error (cmd : list string) (r : proc_result) : option exn :=
  match r with
  | Exited 0 _ => None
  | Exited code _ => Some (CalledProcessError code cmd)
  | NotStarted reason => Some (OSError reason)
  end.

(** The world after [util.safe_remove_dir] has cleared [penv_dir]. *)
Definition after_clearing (penv_dir : string) (w : world) : world :=
  World (filter (fun kv => inside h penv_dir kv.1 = false) (fs w))
        (trace w ++ [Event (CRemoveDir penv_dir) (fs w) ODone]).

(** The version query of [init_state]. *)
Definition version_query (python_exe : string) : list string :=
  [python_exe; "-c"; version_code].

Definition PIP_CONF : string := "[global]" +:+ NL +:+ "user=no".

(** A call that keeps to the environment at [penv_dir]: it clears that
    directory and no other, writes [state.json] or [pip.conf] under it,
    downloads one of the two scripts to its cache place, fetches a portable
    interpreter into its parent directory, queries the version of its own
    interpreter, and runs a command that either ends in [penv_dir] or starts
    with its own interpreter. *)
Definition stays_within (penv_dir : string) (c : call) : Prop :=
  match c with
  | CRemoveDir d => d = penv_dir
  | CRun cmd => last cmd = Some penv_dir \/ head cmd = Some (env_python penv_dir)
  | CCheckOutput cmd => cmd = version_query (env_python penv_dir)
  | CDownload url dst =>
      (url = VIRTUALENV_URL /\ dst = venv_script_cache h penv_dir) \/
      (url = PIP_URL /\ dst = get_pip_cache h penv_dir)
  | COpenWrite p =>
      p = path_join h penv_dir ["state.json"] \/ p = path_join h penv_dir ["pip.conf"]
  | CFetchPortable d => d = path_dirname h penv_dir
  | CEcho _ | CFindPythons _ | CIsPortable | CTime => True
  end.

End Workflow.

(** ** A POSIX host to run the module on *)

Definition is_slash (c : ascii) : bool := Ascii.eqb c "/".

Fixpoint drop_slashes (s : list ascii) : list ascii :=
  match s with
  | c :: r => if is_slash c then drop_slashes r else s
  | [] => []
  end.

Fixpoint until_slash (s : list ascii) : list ascii * list ascii :=
  match s with
  | [] => ([], [])
  | c :: r =>
      if is_slash c then ([], s)
      else let '(a, b) := until_slash r in (c :: a, b)
  end.

(** [posixpath.split] *)
Definition posix_split (p : string) : string * string :=
  let '(tail_rev, head_rev) := until_slash (rev (chars p)) in
  let head := if forallb is_slash head_rev then rev head_rev
              else rev (drop_slashes head_rev) in
  (string_of_list_ascii head, string_of_list_ascii (rev tail_rev)).

Definition posix_join (a : string) (ps : list string) : string :=
  fold_left
    (fun path b =>
       if String.prefix "/" b then b
       else if String.eqb path EmptyString then b
       else if is_slash (default "/"%char (last (chars path))) then path +:+ b
       else path +:+ "/" +:+ b)
    ps a.

(** A file lies inside a directory when its path continues the directory's
    with a slash. *)
Definition posix_inside (dir file : string) : bool :=
  String.prefix (string_of_list_ascii (rev (drop_slashes (rev (chars dir)))) +:+ "/") file.

Definition posix_host
    (spawn : world -> list string -> proc_result * files)
    (download : world -> string -> string -> option string * files)
    (can_write : world -> string -> bool)
    (pythons : list string) (portable : bool) (portable_python : option string) : host :=
  {| IS_WINDOWS := false;
     path_join := posix_join;
     path_dirname := fun p => (posix_split p).1;
     path_basename := fun p => (posix_split p).2;
     inside := posix_inside;
     getenv := fun _ => None;
     get_core_dir := "/home/user/.platformio";
     __version__ := "1.2.2";
     platform_platform := "Linux-6.1.0-x86_64-with-glibc2.36";
     platform_release := "6.1.0";
     spawn := spawn;
     download := download;
     can_write := can_write;
     compatible_pythons := fun _ _ => pythons;
     portable := fun _ => portable;
     portable_python := fun w _ => (portable_python, fs w);
     clock := fun _ => 17000000005 # 10 |}.

Definition PENV : string := "/home/user/.platformio/penv".
Definition PYTHON3 : string := "/usr/bin/python3".

Definition empty_world : world := World ∅ [].

(** A process that fails leaves a half-built file behind in the target; one
    that succeeds leaves an interpreter there. *)
Definition failing (w : world) (cmd : list string) : proc_result * files :=
  (Exited 1 None, <[PENV +:+ "/partial" := "half"]> (fs w)).

Definition succeeding (w : world) (cmd : list string) : proc_result * files :=
  (Exited 0 (Some ("3.11.4" +:+ NL)), <[PENV +:+ "/bin/python" := "elf"]> (fs w)).

(** Only the standalone [virtualenv] executable works. *)
Definition only_standalone (w : world) (cmd : list string) : proc_result * files :=
  match cmd with
  | exe :: _ => if String.eqb exe "virtualenv" then succeeding w cmd else failing w cmd
  | [] => failing w cmd
  end.

Definition download_ok (w : world) (url dst : string) : option string * files :=
  (Some dst, <[dst := "script"]> (fs w)).

Definition download_fails (w : world) (url dst : string) : option string * files :=
  (None, fs w).

Definition writable (w : world) (path : string) : bool := true.

Definition read_only (w : world) (path : string) : bool := false.

(** Only the standalone [virtualenv] works, and nothing can be downloaded. *)
Definition host_standalone : host :=
  posix_host only_standalone download_fails writable [PYTHON3] false None.

(** No process succeeds and no portable interpreter is on offer. *)
Definition host_broken : host :=
  posix_host failing download_ok writable [PYTHON3] false None.

(** No process succeeds; the installer itself runs on a portable interpreter,
    and another one could be fetched. *)
Definition host_portable : host :=
  posix_host failing download_ok writable [PYTHON3] true (Some "/opt/portable/bin/python3").

(** Everything works. *)
Definition host_healthy : host :=
  posix_host succeeding download_ok writable [PYTHON3] false None.

(** Every process would succeed, but no file can be written. *)
Definition host_read_only : host :=
  posix_host succeeding download_ok read_only [PYTHON3] false None.

Definition PENV_PYTHON : string := PENV +:+ "/bin/python".

(** No local strategy works, but the downloaded virtualenv script does. *)
Definition only_script (w : world) (cmd : list string) : proc_result * files :=
  match cmd with
  | [_; script; _] =>
      if String.eqb script "/home/user/.platformio/.cache/tmp/virtualenv.pyz"
      then succeeding w cmd else failing w cmd
  | _ => failing w cmd
  end.

Definition host_remote_only : host :=
  posix_host only_script download_ok writable [PYTHON3] false None.

(** The pip module of the environment cannot upgrade itself; every other
    process succeeds. *)
Definition stale_pip (w : world) (cmd : list string) : proc_result * files :=
  match cmd with
  | [_; "-m"; "pip"; _; _; _] => failing w cmd
  | _ => succeeding w cmd
  end.

Definition host_stale_pip : host :=
  posix_host stale_pip download_ok writable [PYTHON3] false None.

(** Two interpreters are found; processes started with the first one fail,
    all others succeed. *)
Definition PYTHON2 : string := "/usr/bin/python2".

Definition second_python_works (w : world) (cmd : list string) : proc_result * files :=
  match cmd with
  | exe :: _ => if String.eqb exe PYTHON2 then failing w cmd else
                if String.eqb exe "virtualenv" then failing w cmd else succeeding w cmd
  | [] => failing w cmd
  end.

Definition host_two_pythons : host :=
  posix_host second_python_works download_fails writable [PYTHON2; PYTHON3] false None.

(** No interpreter is found, but a portable one can be fetched and works. *)
Definition host_fetches_portable : host :=
  posix_host succeeding download_ok writable [] false (Some "/opt/portable/bin/python3").

(** The environment can be built but its interpreter cannot be queried:
    every [-c] command fails. *)
Definition no_query (w : world) (cmd : list string) : proc_result * files :=
  match cmd with
  | [_; flag; _] => if String.eqb flag "-c" then failing w cmd else succeeding w cmd
  | _ => succeeding w cmd
  end.

Definition host_no_query : host :=
  posix_host no_query download_ok writable [PYTHON3] false None.

(** The environment can be built and recorded, but pip cannot be upgraded
    in any way. *)
Definition no_pip (w : world) (cmd : list string) : proc_result * files :=
  match cmd with
  | [_; "-c"; _] => succeeding w cmd
  | [_; "-m"; "venv"; _] => succeeding w cmd
  | _ => failing w cmd
  end.

Definition host_no_pip : host :=
  posix_host no_pip download_fails writable [PYTHON3] false None.

(** The override variable is set. *)
Definition host_override : host :=
  {| IS_WINDOWS := true;
     path_join := posix_join;
     path_dirname := fun p => (posix_split p).1;
     path_basename := fun p => (posix_split p).2;
     inside := posix_inside;
     getenv := fun name =>
       if String.eqb name "PLATFORMIO_PENV_DIR" then Some "/srv/penv" else None;
     get_core_dir := "/home/user/.platformio";
     __version__ := "1.2.2";
     platform_platform := "Windows-10";
     platform_release := "10";
     spawn := succeeding;
     download := download_ok;
     can_write := writable;
     compatible_pythons := fun _ _ => [PYTHON3];
     portable := fun _ => false;
     portable_python := fun w _ => (None, fs w);
     clock := fun _ => 17000000005 # 10 |}.

(** A state file cut short. *)
Definition truncated_world : world :=
  World {[ PENV +:+ "/state.json" := "{" ]} [].

(** A state file whose writing was interrupted: the record of a run, without
    its last 25 characters. *)
Definition written_record : string :=
  json_dumps (state_record host_healthy 1700000000 PENV_PYTHON "3.11.4").

Definition interrupted_world : world :=
  World {[ PENV +:+ "/state.json"
           := substring 0 (String.length written_record - 25) written_record ]} [].

(** * Proofs *)

(** ** JSON: reading back what was written *)

(** *** Well-formed values and their size *)

Lemma json_ind (P : json -> Prop) :
  P JNull -> (forall b, P (JBool b)) -> (forall n, P (JInt n)) ->
  (forall s, P (JStr s)) ->
  (forall l, Forall P l -> P (JList l)) ->
  (forall d, Forall (fun kv => P kv.2) d -> P (JDict d)) ->
  forall v, P v.
Proof.
  intros Hnull Hbool Hint Hstr Hlist Hdict.
  fix IH 1. intros [ | b | n | s | l | d].
  - exact Hnull.
  - apply Hbool.
  - apply Hint.
  - apply Hstr.
  - apply Hlist. induction l as [ | x l IHl]; constructor; [apply IH | exact IHl].
  - apply Hdict. induction d as [ | [k x] d IHd]; constructor; [apply IH | exact IHd].
Qed.

(** *** Strings *)

Lemma scanstring_escape_char (c : ascii) (r : list ascii) :
  scanstring (escape_char c ++ r) = push c (scanstring r).
Proof.
  destruct c as [[] [] [] [] [] [] [] []]; reflexivity.
Qed.

Lemma scanstring_escape (cs r : list ascii) :
  scanstring (flat_map escape_char cs ++ DQUOTE :: r) = Some (cs, r).
Proof.
  induction cs as [ | c cs IH]; [reflexivity | ].
  cbn [flat_map]. rewrite <- app_assoc, scanstring_escape_char, IH. reflexivity.
Qed.

Lemma scanstring_encode_str (s : string) (r : list ascii) :
  exists t, encode_str s ++ r = DQUOTE :: t /\ scanstring t = Some (chars s, r).
Proof.
  exists (flat_map escape_char (chars s) ++ DQUOTE :: r). split.
  - unfold encode_str. cbn [app]. rewrite <- app_assoc. reflexivity.
  - apply scanstring_escape.
Qed.

(** *** Integers *)

Lemma ends_value_not_digit (r : list ascii) :
  ends_value r = true -> match r with c :: _ => digit_of c = None | [] => True end.
Proof.
  destruct r as [ | c r]; [done | ]. cbn [ends_value].
  destruct c as [[] [] [] [] [] [] [] []]; (reflexivity || discriminate).
Qed.

Lemma ends_value_float_tail (r : list ascii) :
  ends_value r = true -> float_tail r = false.
Proof.
  destruct r as [ | c r]; [done | ]. cbn [ends_value].
  destruct r as [ | d r]; [done | ].
  destruct c as [[] [] [] [] [] [] [] []]; (reflexivity || discriminate).
Qed.

Lemma read_uint_chars (u : Decimal.uint) (r : list ascii) :
  match r with c :: _ => digit_of c = None | [] => True end ->
  read_uint (uint_chars u ++ r) = (u, r).
Proof.
  intros Hr. induction u; cbn [uint_chars app read_uint];
    try (change (digit_of _) with (Some Decimal.D0) ||
         change (digit_of _) with (Some Decimal.D1));
    try (cbn; rewrite IHu; reflexivity).
  destruct r as [ | c r]; [reflexivity | ]. cbn [read_uint]. rewrite Hr. reflexivity.
Qed.

Lemma to_uint_no_leading_zero (p : positive) (u : Decimal.uint) :
  Pos.to_uint p <> Decimal.D0 u.
Proof.
  intros E.
  assert (Hn : Decimal.unorm (Pos.to_uint p) = Pos.to_uint p).
  { rewrite <- DecimalPos.Unsigned.to_of, DecimalPos.Unsigned.of_to. reflexivity. }
  rewrite E, unorm_D0 in Hn.
  assert (Hu : u = Decimal.Nil \/ u <> Decimal.Nil)
    by (destruct u; (left; reflexivity) || (right; discriminate)).
  destruct Hu as [-> | Hu].
  - exact (DecimalPos.Unsigned.to_uint_nonzero p E).
  - pose proof (nb_digits_unorm u Hu) as Hle. rewrite Hn in Hle. cbn in Hle. lia.
Qed.

Lemma scan_int_encode (n : Z) (r : list ascii) :
  ends_value r = true -> scan_int (encode_int n ++ r) = Some (n, r).
Proof.
  intros Hr. pose proof (ends_value_not_digit r Hr) as Hd.
  destruct n as [ | p | p]; [reflexivity | | ]; cbn [encode_int].
  - pose proof (read_uint_chars (Pos.to_uint p) r Hd) as Hread.
    pose proof (DecimalPos.Unsigned.of_to p) as Hof.
    pose proof (to_uint_no_leading_zero p) as Hz.
    pose proof (DecimalPos.Unsigned.to_uint_nonnil p) as Hnil.
    destruct (Pos.to_uint p) as [ | u | u | u | u | u | u | u | u | u | u ];
      try congruence; try (exfalso; eapply Hz; reflexivity);
      unfold scan_int; cbn [uint_chars app] in *;
      (change (Ascii.eqb _ "-") with false; cbv iota;
       change (Ascii.eqb _ "0") with false; cbv iota;
       change (is_digit _) with true; cbv iota;
       rewrite Hread; unfold N.of_uint; rewrite Hof; reflexivity).
  - pose proof (read_uint_chars (Pos.to_uint p) r Hd) as Hread.
    pose proof (DecimalPos.Unsigned.of_to p) as Hof.
    pose proof (to_uint_no_leading_zero p) as Hz.
    pose proof (DecimalPos.Unsigned.to_uint_nonnil p) as Hnil.
    destruct (Pos.to_uint p) as [ | u | u | u | u | u | u | u | u | u | u ];
      try congruence; try (exfalso; eapply Hz; reflexivity);
      unfold scan_int; cbn [uint_chars app] in *;
      (change (Ascii.eqb "-" "-") with true; cbv iota;
       change (Ascii.eqb _ "0") with false; cbv iota;
       change (is_digit _) with true; cbv iota;
       rewrite Hread; unfold N.of_uint; rewrite Hof; reflexivity).
Qed.

(** *** Values *)

Lemma value_start_facts (c : ascii) :
  value_start c = true ->
  is_ws c = false /\ Ascii.eqb c "]" = false /\ Ascii.eqb c "}" = false.
Proof.
  destruct c as [[] [] [] [] [] [] [] []]; (discriminate || (intros _; repeat split)).
Qed.

Lemma encode_int_head (n : Z) :
  exists c t, encode_int n = c :: t /\ (is_digit c || Ascii.eqb c "-") = true.
Proof.
  destruct n as [ | p | p]; cbn [encode_int].
  - eexists _, _. split; reflexivity.
  - pose proof (DecimalPos.Unsigned.to_uint_nonnil p) as Hnil.
    destruct (Pos.to_uint p); try congruence; eexists _, _; split; reflexivity.
  - eexists _, _. split; reflexivity.
Qed.

Lemma encode_head (v : json) :
  exists c t, encode v = c :: t /\ value_start c = true.
Proof.
  destruct v as [ | [] | n | s | l | d]; try (eexists _, _; split; reflexivity).
  destruct (encode_int_head n) as (c & t & E & Hc).
  exists c, t. split; [exact E | ]. unfold value_start. rewrite Hc. reflexivity.
Qed.

Lemma skip_ws_encode (v : json) (r : list ascii) :
  skip_ws (encode v ++ r) = encode v ++ r.
Proof.
  destruct (encode_head v) as (c & t & -> & Hc).
  apply value_start_facts in Hc as (Hws & _). cbn. rewrite Hws. reflexivity.
Qed.

Lemma scan_value_number (fuel : nat) (c : ascii) (t : list ascii) :
  (is_digit c || Ascii.eqb c "-") = true ->
  scan_value (S fuel) (c :: t) =
  match scan_int (c :: t) with
  | Some (n, r') => if float_tail r' then None else Some (JInt n, r')
  | None => None
  end.
Proof.
  destruct c as [[] [] [] [] [] [] [] []]; (discriminate || (intros _; reflexivity)).
Qed.

Lemma dict_set_fresh (k : string) (v : json) (d : list (string * json)) :
  existsb (String.eqb k) (map fst d) = false -> dict_set k v d = d ++ [(k, v)].
Proof.
  induction d as [ | [k' v'] d IH]; [reflexivity | ]. cbn.
  intros [Hk Hd]%orb_false_iff. rewrite Hk, IH; done.
Qed.

Lemma dict_of_pairs_nodup (d : list (string * json)) :
  nodup_keys (map fst d) = true -> dict_of_pairs d = d.
Proof.
  unfold dict_of_pairs.
  enough (H : forall acc,
             nodup_keys (map fst (acc ++ d)) = true ->
             fold_left (fun d kv => dict_set kv.1 kv.2 d) d acc = acc ++ d)
    by (intros Hd; apply (H [] Hd)).
  induction d as [ | [k v] d IH]; intros acc Hacc.
  - rewrite app_nil_r. reflexivity.
  - cbn [fold_left fst snd]. rewrite dict_set_fresh.
    + rewrite IH; rewrite <- app_assoc; [reflexivity | exact Hacc].
    + clear IH. induction acc as [ | [k' v'] acc IHacc]; [reflexivity | ].
      cbn in Hacc. apply andb_true_iff in Hacc as [Hk' Hacc].
      cbn. rewrite (IHacc Hacc), orb_false_r.
      rewrite map_app, existsb_app in Hk'. cbn in Hk'.
      apply negb_true_iff in Hk'.
      apply orb_false_iff in Hk' as [_ Hk']. apply orb_false_iff in Hk' as [Hk' _].
      rewrite String.eqb_sym. exact Hk'.
Qed.

Lemma scan_elements_encode (l : list json) :
  Forall decodes l -> forallb wf_json l = true -> l <> [] ->
  forall fuel r, elems_size l <= fuel ->
  scan_elements fuel (join_items (chars ", ") (map encode l) ++ "]"%char :: r)
  = Some (l, r).
Proof.
  induction 1 as [ | x l Hx Hl IH]; [done | ].
  intros Hwf _ fuel r Hfuel. cbn in Hwf. apply andb_true_iff in Hwf as [Hwx Hwl].
  cbn [elems_size fold_right] in Hfuel. fold (elems_size l) in Hfuel.
  destruct fuel as [ | fuel]; [lia | ].
  destruct l as [ | y l].
  - change (join_items (chars ", ") (map encode [x])) with (encode x ++ []).
    rewrite app_nil_r. cbn [scan_elements].
    rewrite (Hx Hwx); [ | lia | reflexivity]. reflexivity.
  - change (join_items (chars ", ") (map encode (x :: y :: l)))
      with (encode x ++ chars ", " ++ join_items (chars ", ") (map encode (y :: l))).
    rewrite <- !app_assoc. cbn [scan_elements].
    rewrite (Hx Hwx); [ | lia | reflexivity].
    change (chars ", " ++ ?u) with (","%char :: " "%char :: u).
    cbn [skip_ws]. change (is_ws ",") with false. cbv iota.
    change (Ascii.eqb "," "]") with false. change (Ascii.eqb "," ",") with true.
    cbv iota. cbn [skip_ws]. change (is_ws " ") with true. cbv iota.
    change (map encode (y :: l)) with (encode y :: map encode l).
    cbn [join_items]. rewrite <- app_assoc, skip_ws_encode.
    specialize (IH Hwl ltac:(done) fuel r ltac:(lia)).
    cbn [map join_items] in IH. rewrite <- app_assoc in IH. rewrite IH. reflexivity.
Qed.

Lemma scan_members_step (fuel : nat) (k : string) (x : json) (tail : list ascii) :
  scan_members (S fuel) (encode_str k ++ chars ": " ++ encode x ++ tail) =
  match scan_value fuel (encode x ++ tail) with
  | None => None
  | Some (v, r3) =>
      match skip_ws r3 with
      | [] => None
      | c :: r4 =>
          if Ascii.eqb c "}" then Some ([(k, v)], r4)
          else if Ascii.eqb c "," then
            match scan_members fuel (skip_ws r4) with
            | Some (ps, r') => Some ((k, v) :: ps, r')
            | None => None
            end
          else None
      end
  end.
Proof.
  destruct (scanstring_encode_str k (chars ": " ++ encode x ++ tail))
    as (t & -> & Hscan).
  cbn [scan_members]. change (Ascii.eqb DQUOTE DQUOTE) with true. cbn [negb].
  rewrite Hscan. change (chars ": " ++ ?u) with (":"%char :: " "%char :: u).
  cbn [skip_ws]. change (is_ws ":") with false. cbv iota.
  change (Ascii.eqb ":" ":") with true. cbn [negb].
  cbn [skip_ws]. change (is_ws " ") with true. cbv iota.
  rewrite skip_ws_encode. unfold chars. rewrite string_of_list_ascii_of_string.
  reflexivity.
Qed.

Lemma scan_members_encode (d : list (string * json)) :
  Forall (fun kv => decodes kv.2) d ->
  forallb (fun kv => wf_json kv.2) d = true -> d <> [] ->
  forall fuel r, members_size d <= fuel ->
  scan_members fuel
    (join_items (chars ", ")
       (map (fun kv => encode_str kv.1 ++ chars ": " ++ encode kv.2) d)
     ++ "}"%char :: r)
  = Some (d, r).
Proof.
  induction 1 as [ | [k x] d Hx Hd IH]; [done | ].
  intros Hwf _ fuel r Hfuel. cbn in Hwf. apply andb_true_iff in Hwf as [Hwx Hwd].
  cbn [members_size fold_right snd] in Hfuel. fold (members_size d) in Hfuel.
  cbn [snd] in Hx.
  destruct fuel as [ | fuel]; [lia | ].
  destruct d as [ | [k' y] d].
  - cbn [map join_items fst snd]. rewrite app_nil_r, <- !app_assoc.
    rewrite scan_members_step, (Hx Hwx); [ | lia | reflexivity]. reflexivity.
  - specialize (IH Hwd ltac:(done) fuel r ltac:(lia)).
    set (F := fun kv : string * json => encode_str kv.1 ++ chars ": " ++ encode kv.2)
      in *.
    change (join_items (chars ", ") (map F ((k, x) :: (k', y) :: d)))
      with ((encode_str k ++ chars ": " ++ encode x) ++ chars ", " ++
            join_items (chars ", ") (map F ((k', y) :: d))).
    rewrite <- !app_assoc.
    rewrite scan_members_step, (Hx Hwx); [ | lia | reflexivity].
    change (chars ", " ++ ?u) with (","%char :: " "%char :: u).
    cbn [skip_ws]. change (is_ws ",") with false. cbv iota.
    change (Ascii.eqb "," "}") with false. change (Ascii.eqb "," ",") with true.
    cbv iota. cbn [skip_ws]. change (is_ws " ") with true. cbv iota.
    assert (Hq : forall u : list ascii, skip_ws (DQUOTE :: u) = DQUOTE :: u)
      by reflexivity.
    assert (Hb : exists t,
               join_items (chars ", ") (map F ((k', y) :: d)) ++ "}"%char :: r
               = DQUOTE :: t) by (eexists; reflexivity).
    destruct Hb as (t & Hb). rewrite Hb in IH |- *.
    rewrite Hq, IH. reflexivity.
Qed.

Lemma scan_value_encode (v : json) : decodes v.
Proof.
  induction v as [ | b | n | s | l IH | d IH] using json_ind;
    intros Hwf fuel r Hfuel Hr; (destruct fuel as [ | fuel]; [cbn in Hfuel; lia | ]).
  - reflexivity.
  - destruct b; reflexivity.
  - cbn [encode]. destruct (encode_int_head n) as (c & t & E & Hc).
    pose proof (scan_int_encode n r Hr) as Hn. rewrite E in Hn |- *.
    cbn [app] in Hn |- *. rewrite (scan_value_number _ _ _ Hc), Hn.
    rewrite (ends_value_float_tail r Hr). reflexivity.
  - cbn [encode]. destruct (scanstring_encode_str s r) as (t & -> & Hscan).
    cbn [scan_value]. change (Ascii.eqb DQUOTE DQUOTE) with true. cbv iota.
    rewrite Hscan. unfold chars. rewrite string_of_list_ascii_of_string. reflexivity.
  - cbn [encode app]. rewrite <- app_assoc. cbn [app].
    cbn [json_size] in Hfuel. fold (elems_size l) in Hfuel.
    destruct l as [ | x l]; [reflexivity | ].
    pose proof (scan_elements_encode (x :: l) IH Hwf ltac:(done) fuel r ltac:(lia))
      as Helems.
    cbn [map join_items] in Helems |- *. rewrite <- app_assoc in Helems |- *.
    destruct (encode_head x) as (c & t & E & Hc).
    rewrite E in Helems |- *. cbn [app] in Helems |- *.
    apply value_start_facts in Hc as (Hws & Hbr & _).
    cbn [scan_value skip_ws]. change (Ascii.eqb "[" DQUOTE) with false.
    change (Ascii.eqb "[" "{") with false. change (Ascii.eqb "[" "[") with true.
    cbv iota. rewrite Hws, Hbr, Helems. reflexivity.
  - cbn [encode app]. rewrite <- app_assoc. cbn [app].
    cbn [json_size] in Hfuel. fold (members_size d) in Hfuel.
    cbn [wf_json] in Hwf. apply andb_true_iff in Hwf as [Hnd Hwf].
    destruct d as [ | [k x] d]; [reflexivity | ].
    pose proof (scan_members_encode ((k, x) :: d) IH Hwf ltac:(done) fuel r ltac:(lia))
      as Hmem.
    rewrite <- (dict_of_pairs_nodup ((k, x) :: d) Hnd) at 2.
    set (body := join_items _ _ ++ _) in *.
    assert (Hb : exists t, body = DQUOTE :: t) by (eexists; reflexivity).
    destruct Hb as (t & Hb). rewrite Hb in Hmem |- *.
    cbn [scan_value skip_ws]. change (Ascii.eqb "{" DQUOTE) with false.
    change (Ascii.eqb "{" "{") with true. cbv iota.
    change (is_ws DQUOTE) with false. cbv iota.
    change (Ascii.eqb DQUOTE "}") with false. cbv iota.
    rewrite Hmem. reflexivity.
Qed.

Lemma length_join_items_elems (l : list json) :
  Forall (fun x => json_size x <= length (encode x)) l ->
  elems_size l <= length (join_items (chars ", ") (map encode l)) + 1.
Proof.
  induction 1 as [ | x l Hx Hl IH]; [cbn; lia | ].
  destruct l as [ | y l].
  - cbn. rewrite app_nil_r. lia.
  - change (join_items (chars ", ") (map encode (x :: y :: l)))
      with (encode x ++ chars ", " ++ join_items (chars ", ") (map encode (y :: l))).
    rewrite !length_app.
    change (elems_size (x :: y :: l)) with (S (json_size x + elems_size (y :: l))).
    change (length (chars ", ")) with 2. lia.
Qed.

Lemma length_join_items_members (d : list (string * json)) :
  Forall (fun kv => json_size kv.2 <= length (encode kv.2)) d ->
  members_size d
  <= length (join_items (chars ", ")
               (map (fun kv => encode_str kv.1 ++ chars ": " ++ encode kv.2) d)) + 1.
Proof.
  induction 1 as [ | [k x] d Hx Hd IH]; [cbn; lia | ].
  set (F := fun kv : string * json => encode_str kv.1 ++ chars ": " ++ encode kv.2)
    in *.
  cbn [snd] in Hx.
  destruct d as [ | [k' y] d].
  - cbn. rewrite app_nil_r, !length_app. cbn [length]. lia.
  - change (join_items (chars ", ") (map F ((k, x) :: (k', y) :: d)))
      with ((encode_str k ++ chars ": " ++ encode x) ++ chars ", " ++
            join_items (chars ", ") (map F ((k', y) :: d))).
    rewrite !length_app.
    change (members_size ((k, x) :: (k', y) :: d))
      with (S (json_size x + members_size ((k', y) :: d))).
    change (length (chars ", ")) with 2. lia.
Qed.

Lemma json_size_le_length (v : json) : json_size v <= length (encode v).
Proof.
  induction v as [ | b | n | s | l IH | d IH] using json_ind.
  - cbn. lia.
  - destruct b; cbn; lia.
  - destruct (encode_int_head n) as (c & t & E & _). cbn [encode json_size].
    rewrite E. cbn. lia.
  - cbn [encode json_size encode_str length]. lia.
  - pose proof (length_join_items_elems l IH) as H.
    cbn [encode json_size length]. fold (elems_size l). rewrite length_app.
    cbn [length]. lia.
  - pose proof (length_join_items_members d IH) as H.
    cbn [encode json_size length]. fold (members_size d). rewrite length_app.
    cbn [length]. lia.
Qed.

(** [json.loads(json.dumps(v)) == v] *)
Lemma json_loads_dumps (v : json) :
  wf_json v = true -> json_loads (json_dumps v) = Some v.
Proof.
  intros Hwf. unfold json_loads, json_dumps, chars.
  rewrite list_ascii_of_string_of_list_ascii.
  rewrite <- (app_nil_r (encode v)) at 2. rewrite skip_ws_encode.
  rewrite (scan_value_encode v Hwf); [reflexivity | | reflexivity].
  apply json_size_le_length.
Qed.


(** *** Texts cut short

    The scanner reads from left to right and never looks past the value it
    returns, except to see where a number ends.  What it has read of a text
    it reads again, with the same result, when the text goes on. *)

Lemma skip_ws_extend (r : list ascii) (c : ascii) (r1 t : list ascii) :
  skip_ws r = c :: r1 -> skip_ws (r ++ t) = c :: r1 ++ t.
Proof.
  induction r as [ | a r IH]; [discriminate | ]. cbn [skip_ws app].
  destruct (is_ws a); [exact IH | ]. intros [= <- <-]. reflexivity.
Qed.

Lemma skip_ws_delimited (r : list ascii) (c : ascii) (r1 : list ascii) :
  skip_ws r = c :: r1 ->
  (Ascii.eqb c "," || Ascii.eqb c "]" || Ascii.eqb c "}") = true ->
  delimited r = true.
Proof.
  destruct r as [ | a r]; [discriminate | ]. cbn [skip_ws delimited].
  destruct (is_ws a) eqn:Hws; [reflexivity | ].
  intros [= <- <-] Hc. cbn [orb]. rewrite <- !orb_assoc in Hc |- *. exact Hc.
Qed.

Lemma strip_prefix_extend (p s r t : list ascii) :
  strip_prefix p s = Some r -> strip_prefix p (s ++ t) = Some (r ++ t).
Proof.
  revert s. induction p as [ | a p IH]; intros s; cbn [strip_prefix].
  - intros [= <-]. reflexivity.
  - destruct s as [ | b s]; [discriminate | ]. cbn [app].
    destruct (Ascii.eqb a b); [apply IH | discriminate].
Qed.

Lemma push_Some (c : ascii) (p : option (list ascii * list ascii))
    (cs r : list ascii) :
  push c p = Some (cs, r) -> exists cs', p = Some (cs', r) /\ cs = c :: cs'.
Proof.
  destruct p as [[cs' r'] | ]; [ | discriminate]. intros [= <- <-].
  exists cs'. split; reflexivity.
Qed.

Lemma scanstring_extend (s cs r t : list ascii) :
  scanstring s = Some (cs, r) -> scanstring (s ++ t) = Some (cs, r ++ t).
Proof.
  remember (length s) as n eqn:Hn. assert (Hle : length s <= n) by lia. clear Hn.
  revert s cs r Hle. induction n as [ | n IH]; intros s cs r Hle H.
  - destruct s; [discriminate | cbn in Hle; lia].
  - destruct s as [ | c s]; [discriminate | ]. cbn [scanstring app] in H |- *.
    cbn [length] in Hle.
    destruct (Ascii.eqb c DQUOTE).
    { injection H as <- <-. reflexivity. }
    destruct (Ascii.eqb c "\").
    + destruct s as [ | e s]; [discriminate | ]. cbn [app].
      destruct (Ascii.eqb e "u").
      * destruct s as [ | a [ | b [ | c' [ | d s]]]]; try discriminate. cbn [app].
        destruct (hex4 a b c' d) as [k | ]; [ | discriminate].
        destruct (k <? 256)%N; [ | discriminate].
        apply push_Some in H as (cs' & H & ->).
        rewrite (IH s cs' r ltac:(cbn [length] in Hle; lia) H). reflexivity.
      * destruct (unescape e) as [x | ]; [ | discriminate].
        apply push_Some in H as (cs' & H & ->).
        rewrite (IH s cs' r ltac:(cbn [length] in Hle; lia) H). reflexivity.
    + destruct (N_of_ascii c <? 32)%N; [discriminate | ].
      apply push_Some in H as (cs' & H & ->).
      rewrite (IH s cs' r ltac:(lia) H). reflexivity.
Qed.

Lemma read_uint_extend (s : list ascii) (u : Decimal.uint) (c : ascii)
    (r t : list ascii) :
  read_uint s = (u, c :: r) -> read_uint (s ++ t) = (u, c :: r ++ t).
Proof.
  revert u. induction s as [ | a s IH]; intros u; [discriminate | ].
  cbn [read_uint app]. destruct (digit_of a) as [k | ].
  - destruct (read_uint s) as [u' r'] eqn:Hs. intros [= <- ->].
    rewrite (IH u' eq_refl). reflexivity.
  - intros [= <- <- <-]. reflexivity.
Qed.

Lemma delimited_float_tail (r t : list ascii) :
  delimited r = true -> float_tail (r ++ t) = false.
Proof.
  destruct r as [ | c r]; [discriminate | ]. cbn [delimited app].
  destruct (r ++ t) as [ | d u]; [reflexivity | ].
  destruct c as [[] [] [] [] [] [] [] []]; (discriminate || reflexivity).
Qed.

Lemma scan_int_extend (s : list ascii) (n : Z) (r t : list ascii) :
  scan_int s = Some (n, r) -> delimited r = true ->
  scan_int (s ++ t) = Some (n, r ++ t).
Proof.
  intros H Hr. destruct r as [ | c0 r0]; [discriminate | ].
  assert (Hbody : forall (neg : bool) (s1 : list ascii),
            match s1 with
            | [] => None
            | c :: r =>
                if Ascii.eqb c "0" then Some (0%Z, r)
                else if is_digit c then
                  let '(u, r') := read_uint s1 in
                  let n := Z.of_N (N.of_uint u) in
                  Some (if neg then (- n)%Z else n, r')
                else None
            end = Some (n, c0 :: r0) ->
            match s1 ++ t with
            | [] => None
            | c :: r =>
                if Ascii.eqb c "0" then Some (0%Z, r)
                else if is_digit c then
                  let '(u, r') := read_uint (s1 ++ t) in
                  let n := Z.of_N (N.of_uint u) in
                  Some (if neg then (- n)%Z else n, r')
                else None
            end = Some (n, (c0 :: r0) ++ t)).
  { intros neg s1 H1. destruct s1 as [ | c r1]; [discriminate | ]. cbn [app].
    destruct (Ascii.eqb c "0").
    - injection H1 as <- ->. reflexivity.
    - destruct (is_digit c); [ | discriminate].
      destruct (read_uint (c :: r1)) as [u r'] eqn:Hread.
      injection H1 as <- ->.
      change (c :: r1 ++ t) with ((c :: r1) ++ t).
      rewrite (read_uint_extend _ _ _ _ t Hread). reflexivity. }
  unfold scan_int in H |- *.
  destruct s as [ | c s]; [discriminate | ]. cbn [app].
  destruct (Ascii.eqb c "-").
  - exact (Hbody true s H).
  - exact (Hbody false (c :: s) H).
Qed.

Lemma scan_value_nil (fuel : nat) : scan_value fuel [] = None.
Proof. destruct fuel; reflexivity. Qed.

Lemma scan_elements_nil (fuel : nat) : scan_elements fuel [] = None.
Proof. destruct fuel as [ | fuel]; [reflexivity | ]. cbn. rewrite scan_value_nil. reflexivity. Qed.

Lemma scan_members_nil (fuel : nat) : scan_members fuel [] = None.
Proof. destruct fuel; reflexivity. Qed.

Lemma skip_ws_extend_some {A} (f : list ascii -> option A) (r t : list ascii) :
  f [] = None -> is_Some (f (skip_ws r)) -> skip_ws (r ++ t) = skip_ws r ++ t.
Proof.
  intros Hnil [x Hx]. destruct (skip_ws r) as [ | c r1] eqn:Hws; [congruence | ].
  apply skip_ws_extend. exact Hws.
Qed.

Ltac delimiter H :=
  rewrite H; repeat (destruct (Ascii.eqb _ _)); reflexivity.

Lemma scan_extend (fuel : nat) :
  (forall s v r, scan_value fuel s = Some (v, r) ->
     (is_int v = true -> delimited r = true) ->
     forall fuel' t, fuel <= fuel' -> scan_value fuel' (s ++ t) = Some (v, r ++ t)) /\
  (forall s vs r, scan_elements fuel s = Some (vs, r) ->
     forall fuel' t, fuel <= fuel' ->
     scan_elements fuel' (s ++ t) = Some (vs, r ++ t)) /\
  (forall s ps r, scan_members fuel s = Some (ps, r) ->
     forall fuel' t, fuel <= fuel' ->
     scan_members fuel' (s ++ t) = Some (ps, r ++ t)).
Proof.
  induction fuel as [ | fuel (IHv & IHe & IHm)]; [repeat split; discriminate | ].
  split; [ | split].
  - intros s v r H Hint fuel' t Hle.
    destruct fuel' as [ | fuel']; [lia | ]. apply le_S_n in Hle.
    destruct s as [ | c s]; [discriminate | ].
    cbn [scan_value app] in H |- *.
    destruct (Ascii.eqb c DQUOTE).
    { destruct (scanstring s) as [[cs r'] | ] eqn:Hs; [ | discriminate].
      injection H as <- <-. rewrite (scanstring_extend _ _ _ t Hs). reflexivity. }
    destruct (Ascii.eqb c "{").
    { destruct (skip_ws s) as [ | c1 r1] eqn:Hws; [discriminate | ].
      rewrite (skip_ws_extend _ _ _ t Hws).
      destruct (Ascii.eqb c1 "}"); [injection H as <- <-; reflexivity | ].
      destruct (scan_members fuel (c1 :: r1)) as [[pairs r'] | ] eqn:Hm; [ | discriminate].
      injection H as <- <-.
      change (c1 :: r1 ++ t) with ((c1 :: r1) ++ t).
      rewrite (IHm _ _ _ Hm fuel' t Hle). reflexivity. }
    destruct (Ascii.eqb c "[").
    { destruct (skip_ws s) as [ | c1 r1] eqn:Hws; [discriminate | ].
      rewrite (skip_ws_extend _ _ _ t Hws).
      destruct (Ascii.eqb c1 "]"); [injection H as <- <-; reflexivity | ].
      destruct (scan_elements fuel (c1 :: r1)) as [[vs r'] | ] eqn:He; [ | discriminate].
      injection H as <- <-.
      change (c1 :: r1 ++ t) with ((c1 :: r1) ++ t).
      rewrite (IHe _ _ _ He fuel' t Hle). reflexivity. }
    change (c :: s ++ t) with ((c :: s) ++ t).
    destruct (Ascii.eqb c "n").
    { destruct (strip_prefix (chars "null") (c :: s)) as [r' | ] eqn:Hp; [ | discriminate].
      injection H as <- <-. rewrite (strip_prefix_extend _ _ _ t Hp). reflexivity. }
    destruct (Ascii.eqb c "t").
    { destruct (strip_prefix (chars "true") (c :: s)) as [r' | ] eqn:Hp; [ | discriminate].
      injection H as <- <-. rewrite (strip_prefix_extend _ _ _ t Hp). reflexivity. }
    destruct (Ascii.eqb c "f").
    { destruct (strip_prefix (chars "false") (c :: s)) as [r' | ] eqn:Hp; [ | discriminate].
      injection H as <- <-. rewrite (strip_prefix_extend _ _ _ t Hp). reflexivity. }
    destruct (scan_int (c :: s)) as [[n r'] | ] eqn:Hn; [ | discriminate].
    destruct (float_tail r'); [discriminate | ]. injection H as <- <-.
    specialize (Hint eq_refl).
    rewrite (scan_int_extend _ _ _ t Hn Hint), (delimited_float_tail _ t Hint).
    reflexivity.
  - intros s vs r H fuel' t Hle.
    destruct fuel' as [ | fuel']; [lia | ]. apply le_S_n in Hle.
    cbn [scan_elements] in H |- *.
    destruct (scan_value fuel s) as [[v r0] | ] eqn:Hv; [ | discriminate].
    destruct (skip_ws r0) as [ | c r1] eqn:Hws; [discriminate | ].
    destruct (Ascii.eqb c "]") eqn:Hc1.
    + injection H as <- <-.
      rewrite (IHv _ _ _ Hv
                 (fun _ => skip_ws_delimited _ _ _ Hws
                             ltac:(delimiter Hc1)) fuel' t Hle).
      rewrite (skip_ws_extend _ _ _ t Hws), Hc1. reflexivity.
    + destruct (Ascii.eqb c ",") eqn:Hc2; [ | discriminate].
      destruct (scan_elements fuel (skip_ws r1)) as [[vs' r'] | ] eqn:He; [ | discriminate].
      injection H as <- <-.
      rewrite (IHv _ _ _ Hv
                 (fun _ => skip_ws_delimited _ _ _ Hws
                             ltac:(delimiter Hc2)) fuel' t Hle).
      rewrite (skip_ws_extend _ _ _ t Hws), Hc1, Hc2.
      rewrite (skip_ws_extend_some (scan_elements fuel) r1 t (scan_elements_nil fuel)
                 ltac:(rewrite He; eexists; reflexivity)).
      rewrite (IHe _ _ _ He fuel' t Hle). reflexivity.
  - intros s ps r H fuel' t Hle.
    destruct fuel' as [ | fuel']; [lia | ]. apply le_S_n in Hle.
    destruct s as [ | q s]; [discriminate | ].
    cbn [scan_members app] in H |- *.
    destruct (negb (Ascii.eqb q DQUOTE)); [discriminate | ].
    destruct (scanstring s) as [[k r1] | ] eqn:Hs; [ | discriminate].
    rewrite (scanstring_extend _ _ _ t Hs).
    destruct (skip_ws r1) as [ | c r2] eqn:Hws1; [discriminate | ].
    rewrite (skip_ws_extend _ _ _ t Hws1).
    destruct (negb (Ascii.eqb c ":")); [discriminate | ].
    destruct (scan_value fuel (skip_ws r2)) as [[v r3] | ] eqn:Hv; [ | discriminate].
    rewrite (skip_ws_extend_some (scan_value fuel) r2 t (scan_value_nil fuel)
               ltac:(rewrite Hv; eexists; reflexivity)).
    destruct (skip_ws r3) as [ | c' r4] eqn:Hws3; [discriminate | ].
    destruct (Ascii.eqb c' "}") eqn:Hc1.
    + injection H as <- <-.
      rewrite (IHv _ _ _ Hv
                 (fun _ => skip_ws_delimited _ _ _ Hws3
                             ltac:(delimiter Hc1)) fuel' t Hle).
      rewrite (skip_ws_extend _ _ _ t Hws3), Hc1. reflexivity.
    + destruct (Ascii.eqb c' ",") eqn:Hc2; [ | discriminate].
      destruct (scan_members fuel (skip_ws r4)) as [[ps' r'] | ] eqn:Hm; [ | discriminate].
      injection H as <- <-.
      rewrite (IHv _ _ _ Hv
                 (fun _ => skip_ws_delimited _ _ _ Hws3
                             ltac:(delimiter Hc2)) fuel' t Hle).
      rewrite (skip_ws_extend _ _ _ t Hws3), Hc1, Hc2.
      rewrite (skip_ws_extend_some (scan_members fuel) r4 t (scan_members_nil fuel)
                 ltac:(rewrite Hm; eexists; reflexivity)).
      rewrite (IHm _ _ _ Hm fuel' t Hle). reflexivity.
Qed.

Lemma scan_value_brace (fuel : nat) (s : list ascii) (v : json) (r : list ascii) :
  scan_value fuel ("{"%char :: s) = Some (v, r) -> is_int v = false.
Proof.
  destruct fuel as [ | fuel]; [discriminate | ]. cbn [scan_value].
  change (Ascii.eqb "{" DQUOTE) with false. change (Ascii.eqb "{" "{") with true.
  cbv iota. destruct (skip_ws s) as [ | c1 r1]; [discriminate | ].
  destruct (Ascii.eqb c1 "}"); [intros [= <- _]; reflexivity | ].
  destruct (scan_members fuel (c1 :: r1)) as [[pairs r'] | ]; [ | discriminate].
  intros [= <- _]. reflexivity.
Qed.

(** A text that stops before the end of a serialized dict does not decode. *)
Lemma json_loads_truncated (d : list (string * json)) (p t : list ascii) :
  wf_json (JDict d) = true ->
  encode (JDict d) = p ++ t -> t <> [] ->
  json_loads (string_of_list_ascii p) = None.
Proof.
  intros Hwf Henc Ht. unfold json_loads, chars.
  rewrite list_ascii_of_string_of_list_ascii.
  destruct (scan_value (length p) (skip_ws p)) as [[v r] | ] eqn:Hscan; [ | reflexivity].
  destruct (skip_ws r) as [ | c r'] eqn:Hr; [ | reflexivity]. exfalso.
  destruct p as [ | c p].
  - change (skip_ws []) with (@nil ascii) in Hscan.
    rewrite scan_value_nil in Hscan. discriminate.
  - assert (Hc : c = "{"%char) by (cbn [encode app] in Henc; congruence). subst c.
    change (skip_ws ("{"%char :: p)) with ("{"%char :: p) in Hscan.
    pose proof (scan_value_brace _ _ _ _ Hscan) as Hv.
    destruct (scan_extend (length ("{"%char :: p))) as (Hext & _ & _).
    specialize (Hext _ _ _ Hscan ltac:(congruence)
                  (length ("{"%char :: p) + length (encode (JDict d))) t
                  (Nat.le_add_r _ _)).
    rewrite <- Henc, <- (app_nil_r (encode (JDict d))) in Hext.
    rewrite (scan_value_encode (JDict d) Hwf) in Hext;
      [ | rewrite app_nil_r; pose proof (json_size_le_length (JDict d)); lia
        | reflexivity ].
    injection Hext as _ Hrt. symmetry in Hrt. apply app_eq_nil in Hrt as [_ Hrt].
    contradiction.
Qed.

Lemma chars_app (a b : string) : chars (a +:+ b) = chars a ++ chars b.
Proof.
  unfold chars. induction a as [ | c a IH]; [reflexivity | ].
  cbn. rewrite <- IH. reflexivity.
Qed.

Lemma json_loads_cut_short (d : list (string * json)) (content rest : string) :
  wf_json (JDict d) = true ->
  json_dumps (JDict d) = content +:+ rest -> rest <> EmptyString ->
  json_loads content = None.
Proof.
  intros Hwf Hcut Hrest.
  rewrite <- (string_of_list_ascii_of_string content).
  apply (json_loads_truncated d (chars content) (chars rest) Hwf).
  - rewrite <- chars_app, <- Hcut. unfold json_dumps, chars.
    rewrite list_ascii_of_string_of_list_ascii. reflexivity.
  - intros Hnil. apply Hrest.
    rewrite <- (string_of_list_ascii_of_string rest). unfold chars in Hnil.
    rewrite Hnil. reflexivity.
Qed.

(** ** The environment builder *)

Section Builder.

Context (h : host).

Lemma new_events_app (w w' : world) (evs : list event) :
  trace w' = trace w ++ evs -> new_events w w' = evs.
Proof.
  intros E. unfold new_events. rewrite E. apply drop_app_length.
Qed.

(** [subprocess.run(cmd, check=True)] in one step. *)
Lemma subprocess_run_eq (cmd : list string) (w : world) :
  subprocess_run h cmd w =
  ( match (spawn h w cmd).1 with
    | Exited 0 _ => Ok tt
    | Exited code _ => Raise (CalledProcessError code cmd)
    | NotStarted reason => Raise (OSError reason)
    end,
    World (spawn h w cmd).2
          (trace w ++ [Event (CRun cmd) (fs w) (OProc (spawn h w cmd).1)]) ).
Proof.
  unfold subprocess_run, bind, emit, ret, raise.
  destruct (spawn h w cmd) as [[[ | code | code] out | reason] fs']; reflexivity.
Qed.

(** An attempt logs the clearing of the target and then the run; the run
    starts on the cleared files. *)
Lemma attempt_events (penv_dir : string) (command : list string) (w : world)
    (r : result unit) (w' : world) :
  attempt h penv_dir command w = (r, w') ->
  exists o,
    trace w' = trace w ++
      [ Event (CRemoveDir penv_dir) (fs w) ODone;
        Event (CRun command)
              (filter (fun kv => inside h penv_dir kv.1 = false) (fs w)) o ].
Proof.
  unfold attempt, bind, safe_remove_dir, emit. cbn. rewrite subprocess_run_eq.
  cbn [fs trace]. intros E. injection E as _ <-.
  eexists. cbn [trace]. rewrite <- app_assoc. reflexivity.
Qed.

Lemma try_commands_cons (penv_dir : string) (command : list string)
    (rest : list (list string)) (last_error : option exn) (w : world) :
  try_commands h penv_dir (command :: rest) last_error w =
  match attempt h penv_dir command w with
  | (Ok _, w') => (Ok penv_dir, w')
  | (Raise e, w') => try_commands h penv_dir rest (Some e) w'
  end.
Proof. reflexivity. Qed.

Lemma all_fail_events (penv_dir : string) (commands : list (list string))
    (w w1 : world) :
  all_fail h penv_dir commands w = Some w1 ->
  exists evs, trace w1 = trace w ++ evs /\
              map ev_call evs = attempt_calls penv_dir commands.
Proof.
  revert w. induction commands as [ | c cs IH]; intros w Hall; cbn [all_fail] in Hall.
  - inversion Hall; subst. exists []. rewrite app_nil_r. done.
  - destruct (attempt h penv_dir c w) as [[ | e] w'] eqn:Ha; [discriminate | ].
    destruct (attempt_events _ _ _ _ _ Ha) as (o & Ht).
    destruct (IH _ Hall) as (evs & Hevs & Hcalls).
    eexists. split.
    + rewrite Hevs, Ht, <- app_assoc. reflexivity.
    + cbn. rewrite Hcalls. reflexivity.
Qed.

Lemma try_commands_first_success (penv_dir : string)
    (before : list (list string)) (command : list string) (after : list (list string))
    (last_error : option exn) (w w1 w2 : world) :
  all_fail h penv_dir before w = Some w1 ->
  attempt h penv_dir command w1 = (Ok tt, w2) ->
  try_commands h penv_dir (before ++ command :: after) last_error w = (Ok penv_dir, w2).
Proof.
  revert last_error w. induction before as [ | c cs IH]; intros last_error w Hall Hok.
  - cbn [all_fail] in Hall. inversion Hall; subst. cbn [app].
    rewrite try_commands_cons, Hok. reflexivity.
  - cbn [all_fail] in Hall. cbn [app]. rewrite try_commands_cons.
    destruct (attempt h penv_dir c w) as [[ | e] w'] eqn:Ha; [discriminate | ].
    apply IH; assumption.
Qed.

Lemma try_commands_all_fail (penv_dir : string) (commands : list (list string))
    (last_error : option exn) (w w1 : world) :
  all_fail h penv_dir commands w = Some w1 ->
  (commands <> [] \/ is_Some last_error) ->
  exists e, try_commands h penv_dir commands last_error w = (Raise e, w1).
Proof.
  revert last_error w. induction commands as [ | c cs IH]; intros last_error w Hall Hne.
  - cbn [all_fail] in Hall. inversion Hall; subst.
    destruct Hne as [Hne | [e ->]]; [done | ]. exists e. reflexivity.
  - cbn [all_fail] in Hall. rewrite try_commands_cons.
    destruct (attempt h penv_dir c w) as [[ | e] w'] eqn:Ha; [discriminate | ].
    apply IH; [assumption | right; eexists; reflexivity].
Qed.

(** C1.  If the commands before position [k] of the local strategy list all
    fail and the command at position [k] succeeds, [create_with_local_venv]
    returns the target path, and the calls it made are exactly, for each of
    the first [k+1] strategies in the list's order, one clearing of the
    target followed by one run of that strategy: every earlier strategy was
    run once, in order, and no later strategy was run.  The list is, in this
    order: the venv module, the virtualenv module with the interpreter named,
    the virtualenv executable with the interpreter named, the virtualenv
    module alone, the virtualenv executable alone. *)
Theorem local_strategies_stop_at_first_success (python_exe penv_dir : string) (k : nat)
    (command : list string) (w w1 w2 : world) :
  venv_cmd_options python_exe penv_dir !! k = Some command ->
  all_fail h penv_dir (take k (venv_cmd_options python_exe penv_dir)) w = Some w1 ->
  attempt h penv_dir command w1 = (Ok tt, w2) ->
  create_with_local_venv h python_exe penv_dir w = (Ok penv_dir, w2) /\
  map ev_call (new_events w w2)
  = attempt_calls penv_dir (take (S k) (venv_cmd_options python_exe penv_dir)) /\
  venv_cmd_options python_exe penv_dir
  = [ [python_exe; "-m"; "venv"; penv_dir];
      [python_exe; "-m"; "virtualenv"; "-p"; python_exe; penv_dir];
      ["virtualenv"; "-p"; python_exe; penv_dir];
      [python_exe; "-m"; "virtualenv"; penv_dir];
      ["virtualenv"; penv_dir] ].
Proof.
  intros Hk Hall Hok. split; [ | split; [ | reflexivity]].
  - unfold create_with_local_venv.
    rewrite <- (take_drop_middle _ _ _ Hk).
    eapply try_commands_first_success; eassumption.
  - destruct (all_fail_events _ _ _ _ Hall) as (evs & Hevs & Hcalls).
    destruct (attempt_events _ _ _ _ _ Hok) as (o & Ht).
    rewrite (new_events_app w w2 (evs ++ _)
               ltac:(rewrite Ht, Hevs, <- app_assoc; reflexivity)).
    rewrite (take_S_r _ _ _ Hk). unfold attempt_calls in *.
    rewrite map_app, flat_map_app, Hcalls. reflexivity.
Qed.

(** [util.download_file] in one step. *)
Lemma download_file_eq (url dst : string) (w : world) :
  download_file h url dst w =
  ( Ok (download h w url dst).1,
    World (download h w url dst).2
          (trace w ++ [Event (CDownload url dst) (fs w) (OPath (download h w url dst).1)]) ).
Proof.
  unfold download_file, bind, emit, ret.
  destruct (download h w url dst) as [r fs']. reflexivity.
Qed.

Lemma safe_remove_dir_cleared (dir : string) (m : files) :
  cleared h dir (filter (fun kv => inside h dir kv.1 = false) m).
Proof.
  intros f Hf. apply map_lookup_filter_None. right. intros x _ Hx.
  cbn in Hx. congruence.
Qed.

(** The remote attempt, step by step. *)
Lemma create_with_remote_venv_eq (python_exe penv_dir : string) (w : world) :
  let w1 := World (filter (fun kv => inside h penv_dir kv.1 = false) (fs w))
                  (trace w ++ [Event (CRemoveDir penv_dir) (fs w) ODone]) in
  let d := download h w1 VIRTUALENV_URL (venv_script_cache h penv_dir) in
  let w2 := World d.2
              (trace w1 ++ [Event (CDownload VIRTUALENV_URL (venv_script_cache h penv_dir))
                                  (fs w1) (OPath d.1)]) in
  let command := [python_exe; default EmptyString d.1; penv_dir] in
  create_with_remote_venv h python_exe penv_dir w =
  if truthy d.1
  then match subprocess_run h command w2 with
       | (Ok _, w3) => (Ok penv_dir, w3)
       | (Raise e, w3) => (Raise e, w3)
       end
  else (Raise (PIOInstallerException "Could not find virtualenv script"), w2).
Proof.
  cbn zeta. unfold create_with_remote_venv, bind, safe_remove_dir, emit. cbn.
  rewrite download_file_eq. cbn [fs trace].
  destruct (truthy _); reflexivity.
Qed.

Lemma create_with_remote_venv_events (python_exe penv_dir : string) (w : world) :
  exists script run,
    trace (create_with_remote_venv h python_exe penv_dir w).2 =
      trace w ++
      [ Event (CRemoveDir penv_dir) (fs w) ODone;
        Event (CDownload VIRTUALENV_URL (venv_script_cache h penv_dir))
              (filter (fun kv => inside h penv_dir kv.1 = false) (fs w)) (OPath script) ]
      ++ run /\
    map ev_call run =
      (if truthy script
       then [CRun [python_exe; default EmptyString script; penv_dir]] else []) /\
    Forall (fun e => is_download (ev_call e) = false /\
                     (download_frame h ->
                      cleared_but h penv_dir (venv_script_cache h penv_dir) (ev_before e)))
           run.
Proof.
  rewrite create_with_remote_venv_eq. cbn zeta.
  set (w1 := World _ (trace w ++ [Event (CRemoveDir penv_dir) (fs w) ODone])).
  set (d := download h w1 _ _).
  exists d.1. destruct (truthy d.1) eqn:Ht.
  - rewrite subprocess_run_eq. cbn [fs trace].
    set (pr := (spawn h _ _).1).
    exists [Event (CRun [python_exe; default EmptyString d.1; penv_dir]) d.2 (OProc pr)].
    split; [ | split].
    + destruct pr as [[ | code | code] out | reason]; cbn [snd trace];
        subst w1; cbn [trace fs]; rewrite <- !app_assoc; reflexivity.
    + reflexivity.
    + constructor; [ | constructor]. cbn [ev_before ev_call].
      split; [reflexivity | ]. intros Hframe f Hf Hne.
      subst d. rewrite Hframe by exact Hne. subst w1. cbn [fs].
      apply safe_remove_dir_cleared. exact Hf.
  - exists []. split; [ | split]; [ | reflexivity | constructor].
    cbn [snd trace]. subst w1. cbn [trace fs]. rewrite <- !app_assoc. reflexivity.
Qed.

(** [create_virtualenv] from its two halves. *)
Lemma create_virtualenv_eq (python_exe penv_dir : string) (w : world) :
  create_virtualenv h python_exe penv_dir w =
  match create_with_local_venv h python_exe penv_dir w with
  | (Ok p, w1) => (Ok (Some p), w1)
  | (Raise _, w1) =>
      match create_with_remote_venv h python_exe penv_dir w1 with
      | (Ok p, w2) => (Ok (Some p), w2)
      | (Raise _, w2) => (Ok None, w2)
      end
  end.
Proof.
  unfold create_virtualenv, try_except, bind, ret.
  destruct (create_with_local_venv h python_exe penv_dir w) as [[p | e] w1];
    [reflexivity | ].
  destruct (create_with_remote_venv h python_exe penv_dir w1) as [[p | e'] w2];
    reflexivity.
Qed.

(** C2.  When all five local strategies have failed for an interpreter, the
    remote strategy runs once for it: the target is cleared, the virtualenv
    script is downloaded to the cache location, and, when the download
    answers with a path, the interpreter is run on that very path against
    the target; these are the only calls after the local ones.  What the
    remote strategy comes to is what that run comes to: the target if the
    command exits with status 0, the command's error otherwise, and the
    installer's exception, with no command run, when the download gave no
    path.  [create_virtualenv] returns without raising, with the target if
    the remote strategy succeeded and with [None] if it failed, and in that
    case the loop over the interpreters goes on with the next one. *)
Theorem remote_strategy_once_after_local_failures (python_exe penv_dir : string)
    (w w1 : world) :
  let cache := venv_script_cache h penv_dir in
  let w2 := after_clearing h penv_dir w1 in
  let script := (download h w2 VIRTUALENV_URL cache).1 in
  let w3 := World (download h w2 VIRTUALENV_URL cache).2
                  (trace w2 ++ [Event (CDownload VIRTUALENV_URL cache) (fs w2)
                                      (OPath script)]) in
  let command := [python_exe; default EmptyString script; penv_dir] in
  let p := (spawn h w3 command).1 in
  all_fail h penv_dir (venv_cmd_options python_exe penv_dir) w = Some w1 ->
  exists r w4,
    create_with_remote_venv h python_exe penv_dir w1 = (r, w4) /\
    create_virtualenv h python_exe penv_dir w
    = (Ok (match r with Ok p => Some p | Raise _ => None end), w4) /\
    map ev_call (new_events w1 w4) = remote_calls h python_exe penv_dir script /\
    map ev_call (new_events w w4)
    = attempt_calls penv_dir (venv_cmd_options python_exe penv_dir)
      ++ remote_calls h python_exe penv_dir script /\
    new_events w1 w4
    = [ Event (CRemoveDir penv_dir) (fs w1) ODone;
        Event (CDownload VIRTUALENV_URL cache) (fs w2) (OPath script) ]
      ++ (if truthy script then [Event (CRun command) (fs w3) (OProc p)] else []) /\
    r = (if truthy script
         then match run_error command p with
              | None => Ok penv_dir
              | Some e => Raise e
              end
         else Raise (PIOInstallerException "Could not find virtualenv script")) /\
    (forall e, r = Raise e ->
       forall rest acc,
         try_pythons h (python_exe :: rest) penv_dir acc w
         = try_pythons h rest penv_dir None w4).
Proof.
  cbn zeta. intros Hall.
  destruct (try_commands_all_fail penv_dir _ None w w1 Hall) as (e0 & Hlocal);
    [left; discriminate | ].
  fold (create_with_local_venv h python_exe penv_dir) in Hlocal.
  destruct (all_fail_events _ _ _ _ Hall) as (evs & Hevs & Hcalls).
  pose proof (create_with_remote_venv_eq python_exe penv_dir w1) as Hremote.
  cbn zeta in Hremote. fold (after_clearing h penv_dir w1) in Hremote.
  set (w2 := after_clearing h penv_dir w1) in *.
  set (d := download h w2 VIRTUALENV_URL (venv_script_cache h penv_dir)) in *.
  set (w3 := World d.2 _) in *.
  set (command := [python_exe; default EmptyString d.1; penv_dir]) in *.
  rewrite subprocess_run_eq in Hremote.
  set (p := (spawn h w3 command).1) in *.
  set (w4 := World (spawn h w3 command).2 _) in Hremote.
  assert (Hw3 : trace w3 = trace w1 ++
                  [ Event (CRemoveDir penv_dir) (fs w1) ODone;
                    Event (CDownload VIRTUALENV_URL (venv_script_cache h penv_dir))
                          (fs w2) (OPath d.1) ]).
  { subst w3 w2. unfold after_clearing. cbn [trace fs].
    rewrite <- app_assoc. reflexivity. }
  assert (Hw4 : trace w4 = trace w1 ++
                  [ Event (CRemoveDir penv_dir) (fs w1) ODone;
                    Event (CDownload VIRTUALENV_URL (venv_script_cache h penv_dir))
                          (fs w2) (OPath d.1) ]
                  ++ [Event (CRun command) (fs w3) (OProc p)]).
  { subst w4. cbn [trace]. rewrite Hw3, <- app_assoc. reflexivity. }
  assert (Hstep : exists r wr,
            create_with_remote_venv h python_exe penv_dir w1 = (r, wr) /\
            trace wr = trace w1 ++
              [ Event (CRemoveDir penv_dir) (fs w1) ODone;
                Event (CDownload VIRTUALENV_URL (venv_script_cache h penv_dir))
                      (fs w2) (OPath d.1) ]
              ++ (if truthy d.1 then [Event (CRun command) (fs w3) (OProc p)] else []) /\
            r = (if truthy d.1
                 then match run_error command p with
                      | None => Ok penv_dir
                      | Some e => Raise e
                      end
                 else Raise (PIOInstallerException "Could not find virtualenv script"))).
  { rewrite Hremote. destruct (truthy d.1).
    - exists (match run_error command p with
              | None => Ok penv_dir
              | Some e => Raise e
              end), w4.
      split; [ | split; [exact Hw4 | reflexivity]].
      destruct p as [[ | code | code] out | reason]; reflexivity.
    - eexists _, w3. split; [reflexivity | ].
      split; [ | reflexivity]. rewrite app_nil_r. exact Hw3. }
  destruct Hstep as (r & wr & Hrun & Htrace & Hr).
  pose proof (new_events_app _ _ _ Htrace) as Hnew.
  assert (Hcalls' : map ev_call (new_events w1 wr)
                    = remote_calls h python_exe penv_dir d.1).
  { rewrite Hnew. unfold remote_calls. destruct (truthy d.1); reflexivity. }
  assert (Hvenv : create_virtualenv h python_exe penv_dir w
                  = (Ok (match r with Ok p => Some p | Raise _ => None end), wr)).
  { rewrite create_virtualenv_eq, Hlocal, Hrun. destruct r; reflexivity. }
  exists r, wr. split; [exact Hrun | ]. split; [exact Hvenv | ].
  split; [exact Hcalls' | ]. split; [ | split; [exact Hnew | split; [exact Hr | ]]].
  - rewrite (new_events_app w wr (evs ++ new_events w1 wr)
               ltac:(rewrite Hnew, Htrace, Hevs, <- app_assoc; reflexivity)).
    rewrite map_app, Hcalls, Hcalls'. reflexivity.
  - intros e -> rest acc. cbn [try_pythons]. unfold bind at 1.
    rewrite Hvenv. reflexivity.
Qed.

(** Whatever the local loop does, its calls are clearings and runs in pairs,
    for a prefix of the commands, and every run starts on a cleared target. *)
Lemma try_commands_events (penv_dir : string) (commands : list (list string))
    (last_error : option exn) (w : world) :
  exists evs tried,
    trace (try_commands h penv_dir commands last_error w).2 = trace w ++ evs /\
    map ev_call evs = attempt_calls penv_dir tried /\
    tried `prefix_of` commands /\
    Forall (fun e => is_run (ev_call e) = true -> cleared h penv_dir (ev_before e)) evs.
Proof.
  revert last_error w. induction commands as [ | c cs IH]; intros last_error w.
  - exists [], []. rewrite app_nil_r.
    destruct last_error; cbn; repeat split; try constructor; apply prefix_nil.
  - rewrite try_commands_cons.
    destruct (attempt h penv_dir c w) as [r w'] eqn:Ha.
    destruct (attempt_events _ _ _ _ _ Ha) as (o & Ht).
    assert (Hpair : Forall (fun e => is_run (ev_call e) = true ->
                                     cleared h penv_dir (ev_before e))
                      [ Event (CRemoveDir penv_dir) (fs w) ODone;
                        Event (CRun c)
                              (filter (fun kv => inside h penv_dir kv.1 = false) (fs w)) o ]).
    { repeat constructor; cbn; [discriminate | ].
      intros _. apply safe_remove_dir_cleared. }
    destruct r as [[] | e].
    + eexists _, [c]. cbn [snd]. repeat split; [exact Ht | reflexivity | | exact Hpair].
      apply prefix_cons, prefix_nil.
    + destruct (IH (Some e) w') as (evs & tried & Hevs & Hcalls & Hpre & Hclr).
      eexists (_ ++ evs), (c :: tried). repeat split.
      * rewrite Hevs, Ht, <- app_assoc. reflexivity.
      * rewrite map_app, Hcalls. reflexivity.
      * apply prefix_cons. exact Hpre.
      * apply Forall_app. split; [exact Hpair | exact Hclr].
Qed.

Lemma attempt_calls_builder (penv_dir : string) (commands : list (list string)) :
  Forall (fun c => builder_call c = true) (attempt_calls penv_dir commands).
Proof.
  induction commands as [ | c cs IH]; cbn; repeat constructor. exact IH.
Qed.

(** [create_virtualenv] only clears, runs and downloads. *)
Lemma create_virtualenv_calls (python_exe penv_dir : string) (w : world) :
  exists evs,
    trace (create_virtualenv h python_exe penv_dir w).2 = trace w ++ evs /\
    Forall (fun c => builder_call c = true) (map ev_call evs).
Proof.
  rewrite create_virtualenv_eq. unfold create_with_local_venv.
  destruct (try_commands_events penv_dir (venv_cmd_options python_exe penv_dir) None w)
    as (evs & tried & Hevs & Hcalls & _ & _).
  destruct (try_commands h penv_dir _ None w) as [[p | e] w1]; cbn [snd] in Hevs.
  - exists evs. split; [exact Hevs | ]. rewrite Hcalls. apply attempt_calls_builder.
  - destruct (create_with_remote_venv_events python_exe penv_dir w1)
      as (script & run & Htrace & Hrun & _).
    destruct (create_with_remote_venv h python_exe penv_dir w1) as [[p | e'] w2];
      cbn [snd] in Htrace |- *;
      (eexists; split;
       [ rewrite Htrace, Hevs, <- app_assoc; reflexivity
       | rewrite !map_app, Hcalls, Hrun; apply Forall_app; split;
         [ apply attempt_calls_builder
         | destruct (truthy script); repeat constructor ] ]).
Qed.

(** C5.  Every command of the local loop starts right after a clearing of
    the target, on a file system with no file inside the target.  The remote
    strategy clears the target first as well: its download starts with no
    file inside the target, and its command starts with no file inside the
    target either, except that the script this very attempt downloaded may
    lie there when the cache location is inside the target (downloads being
    taken to change their destination only).  Nothing a prior attempt left
    inside the target is there when a command starts. *)
Theorem target_cleared_before_every_attempt (python_exe penv_dir : string) (w : world) :
  (exists tried,
     map ev_call (new_events w (create_with_local_venv h python_exe penv_dir w).2)
     = attempt_calls penv_dir tried) /\
  Forall (fun e => is_run (ev_call e) = true -> cleared h penv_dir (ev_before e))
         (new_events w (create_with_local_venv h python_exe penv_dir w).2) /\
  (exists script,
     map ev_call (new_events w (create_with_remote_venv h python_exe penv_dir w).2)
     = remote_calls h python_exe penv_dir script) /\
  Forall (fun e => is_download (ev_call e) = true -> cleared h penv_dir (ev_before e))
         (new_events w (create_with_remote_venv h python_exe penv_dir w).2) /\
  (download_frame h ->
   Forall (fun e => is_run (ev_call e) = true ->
                    cleared_but h penv_dir (venv_script_cache h penv_dir) (ev_before e))
          (new_events w (create_with_remote_venv h python_exe penv_dir w).2)).
Proof.
  unfold create_with_local_venv.
  destruct (try_commands_events penv_dir (venv_cmd_options python_exe penv_dir) None w)
    as (evs & tried & Hevs & Hcalls & _ & Hclr).
  destruct (create_with_remote_venv_events python_exe penv_dir w)
    as (script & run & Htrace & Hrun & Hbut).
  rewrite (new_events_app _ _ _ Hevs), (new_events_app _ _ _ Htrace).
  split; [exists tried; exact Hcalls | ].
  split; [exact Hclr | ].
  split; [ | split].
  - exists script. unfold remote_calls. rewrite map_app, Hrun. reflexivity.
  - apply Forall_app. split.
    + repeat constructor; cbn; [discriminate | ].
      intros _. apply safe_remove_dir_cleared.
    + eapply Forall_impl; [exact Hbut | ]. cbn. intros e [He _] Hd. congruence.
  - intros Hframe. apply Forall_app. split.
    + repeat constructor; cbn; discriminate.
    + eapply Forall_impl; [exact Hbut | ]. cbn. intros e [_ He] _. exact (He Hframe).
Qed.

(** *** The loop over the interpreters *)

Lemma candidates_exhausted_events (penv_dir : string) (pythons : list string)
    (w w1 : world) :
  candidates_exhausted h penv_dir pythons w = Some w1 ->
  exists evs, trace w1 = trace w ++ evs /\
              Forall (fun c => builder_call c = true) (map ev_call evs).
Proof.
  revert w. induction pythons as [ | p ps IH]; intros w Hex; cbn [candidates_exhausted] in Hex.
  - inversion Hex; subst. exists []. rewrite app_nil_r. split; [done | constructor].
  - destruct (create_virtualenv_calls p penv_dir w) as (evs & Hevs & Hcalls).
    destruct (create_virtualenv h p penv_dir w) as [[r | e] w']; [ | discriminate].
    destruct (truthy r); [discriminate | ].
    destruct (IH _ Hex) as (evs' & Hevs' & Hcalls'). cbn [snd] in Hevs.
    exists (evs ++ evs'). split.
    + rewrite Hevs', Hevs, <- app_assoc. reflexivity.
    + rewrite map_app. apply Forall_app. done.
Qed.

Lemma try_pythons_exhausted (penv_dir : string) (pythons : list string)
    (acc : option string) (w w1 : world) :
  candidates_exhausted h penv_dir pythons w = Some w1 ->
  truthy acc = false ->
  exists r, try_pythons h pythons penv_dir acc w = (Ok r, w1) /\ truthy r = false.
Proof.
  revert acc w. induction pythons as [ | p ps IH]; intros acc w Hex Hacc;
    cbn [candidates_exhausted] in Hex.
  - inversion Hex; subst. exists acc. done.
  - cbn [try_pythons]. unfold bind at 1.
    destruct (create_virtualenv h p penv_dir w) as [[r | e] w']; [ | discriminate].
    destruct (truthy r) eqn:Hr; [discriminate | ].
    apply IH; assumption.
Qed.

(** What [create_core_penv] does once every interpreter found on the host
    has failed. *)
Lemma create_core_penv_exhausted (penv_dir : option string)
    (ignore_pythons : option (list string)) (pythons : list string) (w w0 w1 w2 : world) :
  let target := py_or penv_dir (get_penv_dir h None) in
  discover h target ignore_pythons w = (Ok pythons, w0) ->
  candidates_exhausted h target pythons w0 = Some w1 ->
  portable_fallback_fails h target w1 w2 ->
  create_core_penv h penv_dir ignore_pythons w
  = (Raise (PIOInstallerException BUILD_FAILURE), w2).
Proof.
  intros target Hdisc Hex Hport. unfold create_core_penv. fold target.
  unfold discover, bind in Hdisc. unfold bind at 1.
  destruct (click_echo _ w) as [[[] | e] wa]; [ | discriminate].
  unfold bind at 1. rewrite Hdisc.
  destruct (try_pythons_exhausted target pythons None w0 w1 Hex eq_refl) as (r & Htry & Hr).
  unfold bind at 1. rewrite Htry. rewrite Hr. cbn [negb].
  destruct Hport as [Hp | (w' & Hp & r' & w'' & Hf & Hr')].
  - unfold bind at 1. unfold bind at 1. rewrite Hp. cbn [negb].
    unfold ret at 1. rewrite Hr. reflexivity.
  - unfold bind at 1. unfold bind at 1. rewrite Hp. cbn [negb].
    unfold bind at 1. rewrite Hf.
    destruct (truthy r') eqn:Ht.
    + cbn [candidates_exhausted] in Hr'.
      destruct (create_virtualenv h _ target w'') as [[r2 | e2] w3]; [ | discriminate].
      destruct (truthy r2) eqn:Hr2; [discriminate | ].
      inversion Hr'; subst. reflexivity.
    + subst w''. unfold ret at 1. rewrite Hr. reflexivity.
Qed.

(** C3.  When every interpreter found on the host has failed to give an
    environment, and no environment comes from a portable interpreter either,
    [create_core_penv] raises the installer's exception with the message that
    asks for a bug report; it returns no path. *)
Theorem build_failure_when_everything_fails (penv_dir : option string)
    (ignore_pythons : option (list string)) (pythons : list string) (w w0 w1 w2 : world) :
  discover h (py_or penv_dir (get_penv_dir h None)) ignore_pythons w = (Ok pythons, w0) ->
  candidates_exhausted h (py_or penv_dir (get_penv_dir h None)) pythons w0 = Some w1 ->
  portable_fallback_fails h (py_or penv_dir (get_penv_dir h None)) w1 w2 ->
  create_core_penv h penv_dir ignore_pythons w
  = (Raise (PIOInstallerException
              ("Could not create PIO Core Virtual Environment. Please report to " +:+
               "https://github.com/platformio/platformio-core-installer/issues")),
     w2).
Proof.
  intros Hdisc Hex Hport.
  exact (create_core_penv_exhausted penv_dir ignore_pythons pythons w w0 w1 w2
           Hdisc Hex Hport).
Qed.

(** C9.  When every interpreter found on the host has failed and the running
    interpreter is itself portable, [create_core_penv] raises the build
    failure and never calls [fetch_portable_python], whatever that call would
    have returned. *)
Theorem no_portable_fetch_when_running_portable (penv_dir : option string)
    (ignore_pythons : option (list string)) (pythons : list string) (w w0 w1 : world) :
  discover h (py_or penv_dir (get_penv_dir h None)) ignore_pythons w = (Ok pythons, w0) ->
  candidates_exhausted h (py_or penv_dir (get_penv_dir h None)) pythons w0 = Some w1 ->
  portable h w1 = true ->
  exists w2,
    create_core_penv h penv_dir ignore_pythons w
    = (Raise (PIOInstallerException BUILD_FAILURE), w2) /\
    Forall (fun e => is_fetch_portable (ev_call e) = false) (new_events w w2).
Proof.
  intros Hdisc Hex Hport.
  set (target := py_or penv_dir (get_penv_dir h None)) in *.
  set (w2 := World (fs w1) (trace w1 ++ [Event CIsPortable (fs w1) (OBool true)])).
  assert (Hp : is_portable h w1 = (Ok true, w2)).
  { unfold is_portable, bind, emit, ret. rewrite Hport. reflexivity. }
  exists w2. split.
  - apply (create_core_penv_exhausted penv_dir ignore_pythons pythons w w0 w1 w2
             Hdisc Hex). left. exact Hp.
  - destruct (candidates_exhausted_events _ _ _ _ Hex) as (evs & Hevs & Hcalls).
    unfold discover, bind, click_echo, find_compatible_pythons, emit, ret in Hdisc.
    cbn in Hdisc. injection Hdisc as _ Hw0.
    rewrite (new_events_app w w2
               ([ Event (CEcho ("Creating a virtual environment at " +:+ target))
                        (fs w) ODone;
                  Event (CFindPythons ignore_pythons) (fs w)
                        (OList (compatible_pythons h
                                  (World (fs w)
                                     (trace w ++
                                      [Event (CEcho ("Creating a virtual environment at "
                                                     +:+ target)) (fs w) ODone]))
                                  ignore_pythons)) ]
                ++ evs ++ [Event CIsPortable (fs w1) (OBool true)])).
    + apply Forall_app. split; [repeat constructor | ].
      apply Forall_app. split; [ | repeat constructor].
      apply Forall_fmap in Hcalls. eapply Forall_impl; [exact Hcalls | ].
      cbn. intros e He. destruct (ev_call e); done.
    + subst w2. cbn [trace]. rewrite Hevs, <- Hw0. cbn [trace].
      rewrite <- !app_assoc. reflexivity.
Qed.

End Builder.

(** ** The package manager updater *)

Section Updater.

Context (h : host).

Lemma run_result_other (cmd : list string) (c : call) (m : files) (o : outcome)
    (rest : list event) :
  is_run c = false ->
  run_result cmd (Event c m o :: rest) = run_result cmd rest.
Proof. destruct c; (discriminate || reflexivity). Qed.

Lemma run_result_here (cmd : list string) (m : files) (r : proc_result)
    (rest : list event) :
  run_result cmd (Event (CRun cmd) m (OProc r) :: rest) = Some r.
Proof. cbn. rewrite bool_decide_eq_true_2; reflexivity. Qed.

Lemma run_result_skip (cmd c : list string) (m : files) (r : proc_result)
    (rest : list event) :
  c <> cmd ->
  run_result cmd (Event (CRun c) m (OProc r) :: rest) = run_result cmd rest.
Proof. intros Hne. cbn. rewrite bool_decide_eq_false_2; [reflexivity | exact Hne]. Qed.

Lemma primary_is_not_fallback (python_exe script : string) :
  pip_upgrade_command python_exe <> [python_exe; script].
Proof. unfold pip_upgrade_command. intros [=]. Qed.

(** [update_pip], step by step. *)
Lemma update_pip_eq (python_exe penv_dir : string) (w : world) :
  let conf := path_join h penv_dir ["pip.conf"] in
  let w1 := announced w in
  let w2 := World (<[conf := "[global]" +:+ NL +:+ "user=no"]> (fs w))
                  (trace w1 ++ [Event (COpenWrite conf) (fs w) (OBool true)]) in
  let primary := pip_upgrade_command python_exe in
  let p := spawn h w2 primary in
  let w3 := World p.2 (trace w2 ++ [Event (CRun primary) (fs w2) (OProc p.1)]) in
  let script := get_pip_cache h penv_dir in
  let d := download h w3 PIP_URL script in
  let w4 := World d.2 (trace w3 ++ [Event (CDownload PIP_URL script) (fs w3) (OPath d.1)]) in
  let q := spawn h w4 [python_exe; script] in
  let w5 := World q.2 (trace w4 ++ [Event (CRun [python_exe; script]) (fs w4) (OProc q.1)]) in
  let done (w : world) :=
    World (fs w)
      (trace w ++ [Event (CEcho "PIP has been successfully updated!") (fs w) ODone]) in
  update_pip h python_exe penv_dir w =
  if can_write h w1 conf
  then
    if proc_ok p.1 then (Ok true, done w3)
    else if proc_exit_error p.1
         then if proc_ok q.1 then (Ok true, done w5) else (Ok false, w5)
         else (Ok false, w3)
  else (Ok false,
        World (fs w) (trace w1 ++ [Event (COpenWrite conf) (fs w) (OBool false)])).
Proof.
  cbn zeta. unfold update_pip, try_except, bind at 1, click_echo, emit at 1.
  fold (announced w). unfold bind at 1, write_file.
  destruct (can_write h (announced w) _) eqn:Hw; [ | reflexivity].
  unfold emit at 1. cbn [fs trace].
  unfold bind at 1, try_except_CalledProcessError.
  rewrite subprocess_run_eq. cbn [fs trace].
  destruct (spawn h _ (pip_upgrade_command python_exe)).1
    as [[ | code | code] out | reason] eqn:Hp; cbn [proc_ok proc_exit_error];
    try reflexivity.
  - unfold bind at 1. rewrite download_file_eq. cbn [fs trace].
    rewrite subprocess_run_eq. cbn [fs trace].
    destruct (spawn h _ [python_exe; get_pip_cache h penv_dir]).1
      as [[ | code' | code'] out' | reason']; reflexivity.
  - unfold bind at 1. rewrite download_file_eq. cbn [fs trace].
    rewrite subprocess_run_eq. cbn [fs trace].
    destruct (spawn h _ [python_exe; get_pip_cache h penv_dir]).1
      as [[ | code' | code'] out' | reason']; reflexivity.
Qed.

Ltac events_between :=
  erewrite new_events_app;
  [ | unfold announced; cbn [trace fs]; rewrite <- ?app_assoc; cbn [app]; reflexivity ].

Ltac read_runs :=
  unfold run_ok, run_exit_error, no_download, no_run;
  repeat first
    [ rewrite run_result_other by reflexivity
    | rewrite run_result_here
    | rewrite run_result_skip by (apply primary_is_not_fallback
                                  || (apply not_eq_sym, primary_is_not_fallback)) ];
  cbn.

(** C4.  [update_pip] never raises.  If [pip.conf] cannot be written it
    returns [False] and starts no process and no download.  Otherwise it
    runs the primary upgrade command: if that exits with status 0 the result
    is [True] and no download is attempted; if it exits with an error status
    the installer script is downloaded and run with the same interpreter,
    and the result is [True] if that run exits with status 0 and [False] if
    not; if the primary command cannot be started the result is [False] and
    the fallback is not attempted.  So the result is [True] exactly when the
    primary command was run and succeeded, or was run and exited with an
    error status and the installer script was then run and succeeded. *)
Theorem update_pip_result (python_exe penv_dir : string) (w : world) :
  let conf := path_join h penv_dir ["pip.conf"] in
  let primary := pip_upgrade_command python_exe in
  let script := get_pip_cache h penv_dir in
  let fallback := [python_exe; script] in
  let w1 := announced w in
  let w2 := World (<[conf := PIP_CONF]> (fs w))
                  (trace w1 ++ [Event (COpenWrite conf) (fs w) (OBool true)]) in
  let p := (spawn h w2 primary).1 in
  let w3 := World (spawn h w2 primary).2
                  (trace w2 ++ [Event (CRun primary) (fs w2) (OProc p)]) in
  let w4 := World (download h w3 PIP_URL script).2
                  (trace w3 ++ [Event (CDownload PIP_URL script) (fs w3)
                                      (OPath (download h w3 PIP_URL script).1)]) in
  let q := (spawn h w4 fallback).1 in
  let start :=
    [ CEcho "Updating Python package manager (PIP) in the virtual environment";
      COpenWrite conf ] in
  exists b w',
    update_pip h python_exe penv_dir w = (Ok b, w') /\
    b = (run_ok primary (new_events w w')
         || (run_exit_error primary (new_events w w')
             && run_ok fallback (new_events w w'))) /\
    (run_ok primary (new_events w w') = true ->
     no_download (new_events w w') = true) /\
    (can_write h w1 conf = false ->
     b = false /\ map ev_call (new_events w w') = start) /\
    (can_write h w1 conf = true ->
     run_result primary (new_events w w') = Some p /\
     (proc_ok p = true ->
      b = true /\
      map ev_call (new_events w w')
      = start ++ [CRun primary; CEcho "PIP has been successfully updated!"]) /\
     (proc_exit_error p = true ->
      b = proc_ok q /\
      run_result fallback (new_events w w') = Some q /\
      map ev_call (new_events w w')
      = start ++ [CRun primary; CDownload PIP_URL script; CRun fallback]
        ++ (if proc_ok q then [CEcho "PIP has been successfully updated!"] else [])) /\
     (forall reason, p = NotStarted reason ->
      b = false /\ map ev_call (new_events w w') = start ++ [CRun primary])).
Proof.
  cbn zeta. rewrite update_pip_eq. cbn zeta. unfold PIP_CONF.
  destruct (can_write h _ _).
  - destruct (spawn h _ (pip_upgrade_command python_exe)) as [pr fs3]. cbn [fst snd].
    destruct pr as [[ | code | code] out | reason]; cbn [proc_ok proc_exit_error].
    + eexists _, _. split; [reflexivity | ]. events_between. read_runs.
      repeat split; done.
    + destruct (download h _ PIP_URL _) as [dr fs4]. cbn [fst snd].
      destruct (spawn h _ [python_exe; get_pip_cache h penv_dir]) as [qr fs5].
      cbn [fst snd].
      destruct qr as [[ | code' | code'] out' | reason']; cbn [proc_ok];
        (eexists _, _; split; [reflexivity | ]; events_between; read_runs;
         repeat split; done).
    + destruct (download h _ PIP_URL _) as [dr fs4]. cbn [fst snd].
      destruct (spawn h _ [python_exe; get_pip_cache h penv_dir]) as [qr fs5].
      cbn [fst snd].
      destruct qr as [[ | code' | code'] out' | reason']; cbn [proc_ok];
        (eexists _, _; split; [reflexivity | ]; events_between; read_runs;
         repeat split; done).
    + eexists _, _. split; [reflexivity | ]. events_between. read_runs.
      repeat split; done.
  - eexists _, _. split; [reflexivity | ]. events_between. read_runs.
    repeat split; done.
Qed.

(** C10.  The fallback of [update_pip] belongs to the [CalledProcessError]
    handler alone.  If a download was attempted or the installer script was
    run, the primary command had exited with an error status.  If the
    primary command could not be started, the result is [False] and neither
    the download nor the script was attempted.  If [pip.conf] cannot be
    written, the result is [False] and nothing at all was run or
    downloaded. *)
Theorem pip_fallback_only_after_exit_error (python_exe penv_dir : string) (w : world) :
  let r := update_pip h python_exe penv_dir w in
  let evs := new_events w r.2 in
  let primary := pip_upgrade_command python_exe in
  let fallback := [python_exe; get_pip_cache h penv_dir] in
  (no_download evs = false \/ is_Some (run_result fallback evs) ->
   run_exit_error primary evs = true) /\
  (forall reason, run_result primary evs = Some (NotStarted reason) ->
   r.1 = Ok false /\ no_download evs = true /\ run_result fallback evs = None) /\
  (can_write h (announced w) (path_join h penv_dir ["pip.conf"]) = false ->
   r.1 = Ok false /\ no_download evs = true /\ no_run evs = true).
Proof.
  cbn zeta. rewrite update_pip_eq. cbn zeta.
  destruct (can_write h _ _).
  - destruct (spawn h _ (pip_upgrade_command python_exe)) as [pr fs3]. cbn [fst snd].
    destruct pr as [[ | code | code] out | reason]; cbn [proc_ok proc_exit_error].
    + cbn [fst snd]. events_between. read_runs.
      repeat split; try done. intros [ | [? ?]]; done.
    + destruct (download h _ PIP_URL _) as [dr fs4]. cbn [fst snd].
      destruct (spawn h _ [python_exe; get_pip_cache h penv_dir]) as [qr fs5].
      cbn [fst snd].
      destruct qr as [[ | code' | code'] out' | reason']; cbn [proc_ok fst snd];
        (events_between; read_runs; repeat split; done).
    + destruct (download h _ PIP_URL _) as [dr fs4]. cbn [fst snd].
      destruct (spawn h _ [python_exe; get_pip_cache h penv_dir]) as [qr fs5].
      cbn [fst snd].
      destruct qr as [[ | code' | code'] out' | reason']; cbn [proc_ok fst snd];
        (events_between; read_runs; repeat split; done).
    + cbn [fst snd]. events_between. read_runs.
      repeat split; try done. intros [ | [? ?]]; done.
  - cbn [fst snd]. events_between. read_runs.
    repeat split; try done. intros [ | [? ?]]; done.
Qed.

End Updater.

(** ** The state recorder *)

Section Recorder.

Context (h : host).

Lemma save_state_eq (state : json) (penv_dir : option string) (w : world) :
  save_state h state penv_dir w =
  if can_write h w (state_path h penv_dir)
  then (Ok (state_path h penv_dir),
        World (<[state_path h penv_dir := json_dumps state]> (fs w))
              (trace w ++ [Event (COpenWrite (state_path h penv_dir)) (fs w) (OBool true)]))
  else (Raise (OSError (state_path h penv_dir)),
        World (fs w)
              (trace w ++ [Event (COpenWrite (state_path h penv_dir)) (fs w) (OBool false)])).
Proof.
  unfold save_state, bind, write_file. fold (state_path h penv_dir).
  destruct (can_write h w (state_path h penv_dir)); reflexivity.
Qed.

Lemma load_state_eq (penv_dir : option string) (w : world) :
  load_state h penv_dir w =
  match fs w !! state_path h penv_dir with
  | None =>
      (Raise (PIOInstallerException
                ("Could not found state.json file in `" +:+ state_path h penv_dir +:+ "`")),
       w)
  | Some content =>
      (match json_loads content with
       | Some state => Ok state
       | None => Raise JSONDecodeError
       end, w)
  end.
Proof.
  unfold load_state, bind, isfile, read_file. fold (state_path h penv_dir).
  destruct (fs w !! state_path h penv_dir) as [content | ] eqn:Hf.
  - rewrite bool_decide_eq_true_2 by (eexists; reflexivity). cbn [negb].
    rewrite Hf. destruct (json_loads content); reflexivity.
  - rewrite bool_decide_eq_false_2 by (intros [? ?]; discriminate). reflexivity.
Qed.

(** What [save_state] leaves behind is what [load_state] finds. *)
Lemma load_state_after_save_state (state : json) (penv_dir : option string)
    (w w' : world) (p : string) :
  wf_json state = true ->
  save_state h state penv_dir w = (Ok p, w') ->
  p = state_path h penv_dir /\
  fs w' !! p = Some (json_dumps state) /\
  load_state h penv_dir w' = (Ok state, w').
Proof.
  intros Hwf Hsave. rewrite save_state_eq in Hsave.
  destruct (can_write h w (state_path h penv_dir)); [ | discriminate].
  injection Hsave as <- <-. split; [reflexivity | ].
  assert (Hfile : <[state_path h penv_dir := json_dumps state]> (fs w)
                  !! state_path h penv_dir = Some (json_dumps state))
    by apply lookup_insert_eq.
  split; [exact Hfile | ].
  rewrite load_state_eq. cbn [fs]. rewrite Hfile, (json_loads_dumps state Hwf).
  reflexivity.
Qed.

(** C6.  If [save_state] returns, it has returned the path of [state.json]
    under the target, that file now holds the serialized record whatever it
    held before, and [load_state] on the same target returns the record that
    was saved.  (A record is a JSON value whose dicts have each key once.) *)
Theorem save_then_load (state : json) (penv_dir : option string) (w w' : world)
    (p : string) :
  wf_json state = true ->
  save_state h state penv_dir w = (Ok p, w') ->
  p = path_join h (py_or penv_dir (get_penv_dir h None)) ["state.json"] /\
  fs w' !! p = Some (json_dumps state) /\
  load_state h penv_dir w' = (Ok state, w').
Proof.
  intros Hwf Hsave.
  exact (load_state_after_save_state state penv_dir w w' p Hwf Hsave).
Qed.

(** C7.  When the state file does not exist, [load_state] raises
    the installer's exception with the not-found message and changes
    nothing.  When the file holds a serialized record, [load_state] returns
    that record.  When the file exists but is empty or blank, or holds only a
    proper initial part of a serialized record (its writing was cut short),
    [load_state] fails with a decode error, which nothing catches.  When the
    file exists the not-found exception is never raised, and [load_state]
    leaves the files and the log as they are. *)
Theorem load_state_outcomes (penv_dir : option string) (w : world) :
  let p := path_join h (py_or penv_dir (get_penv_dir h None)) ["state.json"] in
  (fs w !! p = None ->
   load_state h penv_dir w
   = (Raise (PIOInstallerException
               ("Could not found state.json file in `" +:+ p +:+ "`")), w)) /\
  (forall state, wf_json state = true -> fs w !! p = Some (json_dumps state) ->
   load_state h penv_dir w = (Ok state, w)) /\
  (forall content, fs w !! p = Some content -> skip_ws (chars content) = [] ->
   load_state h penv_dir w = (Raise JSONDecodeError, w)) /\
  (forall d content rest,
     wf_json (JDict d) = true ->
     json_dumps (JDict d) = content +:+ rest -> rest <> EmptyString ->
     fs w !! p = Some content ->
     load_state h penv_dir w = (Raise JSONDecodeError, w)) /\
  (forall content, fs w !! p = Some content ->
   (load_state h penv_dir w).2 = w /\
   forall msg, (load_state h penv_dir w).1 <> Raise (PIOInstallerException msg)).
Proof.
  cbn zeta. fold (state_path h penv_dir). rewrite load_state_eq.
  split; [ | split; [ | split; [ | split]]].
  - intros ->. reflexivity.
  - intros state Hwf ->. rewrite (json_loads_dumps state Hwf). reflexivity.
  - intros content -> Hblank. unfold json_loads. rewrite Hblank.
    destruct (length (chars content)); reflexivity.
  - intros d content rest Hwf Hcut Hrest ->.
    rewrite (json_loads_cut_short d content rest Hwf Hcut Hrest). reflexivity.
  - intros content ->. split; [reflexivity | ].
    intros msg. destruct (json_loads content); discriminate.
Qed.

Lemma state_record_wf (created_on : Z) (python_exe python_version : string) :
  wf_json (state_record h created_on python_exe python_version) = true.
Proof. reflexivity. Qed.

(** C8.  When the version query exits with status 0 and text
    [out], and the state file can be written, [init_state] has run the
    interpreter of the new environment with [-c] and the version-printing
    code, has read the clock, and has written to [state.json] the record with
    exactly the keys [created_on] (the time rounded to an integer), [python]
    (with [path] and the stripped [version]), [installer_version] and
    [platform] (with [platform] and [release]); [load_state] gives that
    record back. *)
Theorem init_state_record (python_exe penv_dir out : string) (files1 : files)
    (w : world) :
  let query := [python_exe; "-c"; version_code] in
  let w1 := World files1 (trace w ++ [Event (CCheckOutput query) (fs w)
                                            (OProc (Exited 0 (Some out)))]) in
  let now := clock h w1 in
  let w2 := World files1 (trace w1 ++ [Event CTime files1 (OTime now)]) in
  let p := path_join h (py_or (Some penv_dir) (get_penv_dir h None)) ["state.json"] in
  let record :=
    JDict [ ("created_on", JInt (py_round now));
            ("python", JDict [ ("path", JStr python_exe);
                               ("version", JStr (strip out)) ]);
            ("installer_version", JStr (__version__ h));
            ("platform", JDict [ ("platform", JStr (platform_platform h));
                                 ("release", JStr (platform_release h)) ]) ] in
  spawn h w query = (Exited 0 (Some out), files1) ->
  can_write h w2 p = true ->
  exists w3,
    init_state h python_exe penv_dir w = (Ok p, w3) /\
    map ev_call (new_events w w3) = [CCheckOutput query; CTime; COpenWrite p] /\
    fs w3 !! p = Some (json_dumps record) /\
    load_state h (Some penv_dir) w3 = (Ok record, w3).
Proof.
  cbn zeta. intros Hspawn Hwrite.
  fold (state_path h (Some penv_dir)) in *. cbn [fs trace] in Hwrite.
  unfold init_state, bind at 1, subprocess_check_output. rewrite Hspawn.
  unfold bind at 1, emit at 1, ret at 1. cbn [fs trace].
  unfold bind at 1, decode, ret at 1.
  unfold bind at 1, time_time, bind at 1, emit at 1, ret at 1. cbn [fs trace].
  destruct (save_state h _ (Some penv_dir) _) as [r w3] eqn:Hsave.
  pose proof Hsave as Hsave'. rewrite save_state_eq in Hsave'. cbn [fs trace] in Hsave'.
  rewrite Hwrite in Hsave'. injection Hsave' as <- Hw3.
  exists w3. split; [reflexivity | ].
  destruct (load_state_after_save_state _ _ _ _ _ (state_record_wf _ _ _) Hsave)
    as (_ & Hfile & Hload).
  repeat split.
  - erewrite new_events_app; [ | rewrite <- Hw3; cbn [trace];
                                 rewrite <- ?app_assoc; cbn [app]; reflexivity ].
    reflexivity.
  - exact Hfile.
  - exact Hload.
Qed.

End Recorder.

(** ** Further properties of the environment builder *)

Section BuilderMore.

Context (h : host).

(** One attempt of the local loop, in one step. *)
Lemma attempt_eq (penv_dir : string) (command : list string) (w : world) :
  let w1 := World (filter (fun kv => inside h penv_dir kv.1 = false) (fs w))
                  (trace w ++ [Event (CRemoveDir penv_dir) (fs w) ODone]) in
  let p := spawn h w1 command in
  attempt h penv_dir command w =
  ( match run_error command p.1 with
    | None => Ok tt
    | Some e => Raise e
    end,
    World p.2 (trace w ++ [ Event (CRemoveDir penv_dir) (fs w) ODone;
                            Event (CRun command) (fs w1) (OProc p.1) ]) ).
Proof.
  cbn zeta. unfold attempt, bind, safe_remove_dir, emit. cbn.
  rewrite subprocess_run_eq. cbn [fs trace]. rewrite <- app_assoc. cbn [app].
  destruct (spawn h _ command).1 as [[ | code | code] out | reason]; reflexivity.
Qed.

Lemma run_error_ok (cmd : list string) (r : proc_result) :
  run_error cmd r = None <-> proc_ok r = true.
Proof.
  destruct r as [[ | code | code] out | reason]; cbn; split; congruence.
Qed.

Lemma last_run_ok_app (a b : list event) :
  b <> [] -> last_run_ok (a ++ b) = last_run_ok b.
Proof.
  intros Hb. unfold last_run_ok. rewrite last_app.
  destruct (last b) as [e | ] eqn:Hl; [reflexivity | ].
  apply last_None in Hl. contradiction.
Qed.

(** The local loop returns the target exactly when the last command it ran
    succeeded. *)
Lemma try_commands_last (penv_dir : string) (commands : list (list string))
    (last_error : option exn) (w : world) :
  exists evs,
    trace (try_commands h penv_dir commands last_error w).2 = trace w ++ evs /\
    (commands <> [] -> evs <> []) /\
    ( ((try_commands h penv_dir commands last_error w).1 = Ok penv_dir /\
       last_run_ok evs = true) \/
      ((exists e, (try_commands h penv_dir commands last_error w).1 = Raise e) /\
       last_run_ok evs = false /\
       (commands = [] -> evs = [])) ).
Proof.
  revert last_error w. induction commands as [ | c cs IH]; intros last_error w.
  - exists []. rewrite app_nil_r. split; [ | split; [done | right]].
    + destruct last_error; reflexivity.
    + split; [ | done]. destruct last_error; eexists; reflexivity.
  - rewrite try_commands_cons, attempt_eq. cbn zeta.
    set (w1 := World _ (trace w ++ [Event (CRemoveDir penv_dir) (fs w) ODone])).
    set (p := spawn h w1 c).
    destruct (run_error c p.1) as [e | ] eqn:Herr.
    + destruct (IH (Some e) (World p.2 (trace w ++
                  [ Event (CRemoveDir penv_dir) (fs w) ODone;
                    Event (CRun c) (fs w1) (OProc p.1) ])))
        as (evs & Hevs & Hne & Hres).
      cbn [trace] in Hevs.
      exists ([ Event (CRemoveDir penv_dir) (fs w) ODone;
                Event (CRun c) (fs w1) (OProc p.1) ] ++ evs).
      split; [rewrite Hevs, <- app_assoc; reflexivity | ].
      split; [done | ].
      destruct Hres as [[Hok Hlast] | (Hraise & Hlast & Hnil)].
      * left. split; [exact Hok | ].
        destruct cs as [ | c' cs'].
        -- cbn in Hok. discriminate.
        -- rewrite last_run_ok_app; [exact Hlast | apply Hne; discriminate].
      * right. split; [exact Hraise | ]. split; [ | discriminate].
        destruct cs as [ | c' cs'].
        -- rewrite (Hnil eq_refl), app_nil_r. unfold last_run_ok. cbn.
           destruct (proc_ok p.1) eqn:Hp; [ | reflexivity].
           apply (run_error_ok c) in Hp. congruence.
        -- rewrite last_run_ok_app; [exact Hlast | apply Hne; discriminate].
    + exists [ Event (CRemoveDir penv_dir) (fs w) ODone;
               Event (CRun c) (fs w1) (OProc p.1) ].
      cbn [fst snd trace]. split; [reflexivity | ]. split; [done | ].
      left. split; [reflexivity | ]. unfold last_run_ok. cbn.
      apply (run_error_ok c). exact Herr.
Qed.

Lemma create_with_remote_venv_last (python_exe penv_dir : string) (w : world) :
  exists evs,
    trace (create_with_remote_venv h python_exe penv_dir w).2 = trace w ++ evs /\
    evs <> [] /\
    ( ((create_with_remote_venv h python_exe penv_dir w).1 = Ok penv_dir /\
       last_run_ok evs = true) \/
      ((exists e, (create_with_remote_venv h python_exe penv_dir w).1 = Raise e) /\
       last_run_ok evs = false) ).
Proof.
  rewrite create_with_remote_venv_eq. cbn zeta.
  set (w1 := World _ (trace w ++ [Event (CRemoveDir penv_dir) (fs w) ODone])).
  set (d := download h w1 _ _).
  destruct (truthy d.1).
  - rewrite subprocess_run_eq. cbn [fs trace].
    set (command := [python_exe; default EmptyString d.1; penv_dir]).
    set (pr := (spawn h _ command).1).
    exists [ Event (CRemoveDir penv_dir) (fs w) ODone;
             Event (CDownload VIRTUALENV_URL (venv_script_cache h penv_dir))
                   (fs w1) (OPath d.1);
             Event (CRun command) d.2 (OProc pr) ].
    split; [ | split; [done | ]].
    + destruct pr as [[ | code | code] out | reason]; cbn [snd trace];
        subst w1; cbn [trace fs]; rewrite <- !app_assoc; reflexivity.
    + destruct pr as [[ | code | code] out | reason]; cbn;
        first [ left; split; reflexivity
              | right; split; [eexists; reflexivity | reflexivity] ].
  - exists [ Event (CRemoveDir penv_dir) (fs w) ODone;
             Event (CDownload VIRTUALENV_URL (venv_script_cache h penv_dir))
                   (fs w1) (OPath d.1) ].
    split; [ | split; [done | ]].
    + cbn [snd trace]. subst w1. cbn [trace fs]. rewrite <- !app_assoc. reflexivity.
    + right. split; [eexists; reflexivity | reflexivity].
Qed.

Lemma create_virtualenv_last (python_exe penv_dir : string) (w : world) :
  (create_virtualenv h python_exe penv_dir w).1
  = Ok (if last_run_ok (new_events w (create_virtualenv h python_exe penv_dir w).2)
        then Some penv_dir else None).
Proof.
  rewrite create_virtualenv_eq. unfold create_with_local_venv.
  destruct (try_commands_last penv_dir (venv_cmd_options python_exe penv_dir) None w)
    as (evs & Hevs & _ & Hres).
  destruct (try_commands h penv_dir _ None w) as [r w1]. cbn [fst snd] in *.
  destruct Hres as [[-> Hlast] | ((e & ->) & Hlast & _)].
  - cbn [fst snd]. rewrite (new_events_app _ _ _ Hevs), Hlast. reflexivity.
  - destruct (create_with_remote_venv_last python_exe penv_dir w1)
      as (evs' & Hevs' & Hne & Hres').
    destruct (create_with_remote_venv h python_exe penv_dir w1) as [r' w2].
    cbn [fst snd] in *.
    assert (Hall : trace w2 = trace w ++ evs ++ evs')
      by (rewrite Hevs', Hevs, <- app_assoc; reflexivity).
    destruct Hres' as [[-> Hlast'] | ((e' & ->) & Hlast')]; cbn [fst snd];
      rewrite (new_events_app _ _ _ Hall), (last_run_ok_app _ _ Hne), Hlast';
      reflexivity.
Qed.

(** X5.  [create_virtualenv] never raises.  It returns the target when the
    last call it made was a command that exited with status 0, and [None]
    otherwise: an environment is reported only on the word of the command
    that ran last. *)
Theorem create_virtualenv_reports_last_command (python_exe penv_dir : string)
    (w : world) :
  (create_virtualenv h python_exe penv_dir w).1
  = Ok (if last_run_ok (new_events w (create_virtualenv h python_exe penv_dir w).2)
        then Some penv_dir else None).
Proof. apply create_virtualenv_last. Qed.

Lemma all_fail_snoc (penv_dir : string) (before : list (list string))
    (command : list string) (w w1 : world) :
  all_fail h penv_dir (before ++ [command]) w = Some w1 ->
  exists w0 e,
    all_fail h penv_dir before w = Some w0 /\
    attempt h penv_dir command w0 = (Raise e, w1).
Proof.
  revert w. induction before as [ | c cs IH]; intros w Hall; cbn [app all_fail] in Hall.
  - destruct (attempt h penv_dir command w) as [[ | e] w'] eqn:Ha; [discriminate | ].
    injection Hall as <-. exists w, e. done.
  - destruct (attempt h penv_dir c w) as [[ | e] w'] eqn:Ha; [discriminate | ].
    destruct (IH _ Hall) as (w0 & e0 & Hb & Hc).
    exists w0, e0. cbn [all_fail]. rewrite Ha. done.
Qed.

Lemma try_commands_fail_last (penv_dir : string) (before : list (list string))
    (command : list string) (last_error : option exn) (e : exn) (w w0 w1 : world) :
  all_fail h penv_dir before w = Some w0 ->
  attempt h penv_dir command w0 = (Raise e, w1) ->
  try_commands h penv_dir (before ++ [command]) last_error w = (Raise e, w1).
Proof.
  revert last_error w. induction before as [ | c cs IH]; intros last_error w Hall Hc;
    cbn [all_fail] in Hall; cbn [app]; rewrite try_commands_cons.
  - injection Hall as ->. rewrite Hc. reflexivity.
  - destruct (attempt h penv_dir c w) as [[ | e'] w'] eqn:Ha; [discriminate | ].
    apply IH; assumption.
Qed.

(** X6.  When the five local strategies all fail, [create_with_local_venv]
    raises the error of the last one, the bare [virtualenv] command: a
    [CalledProcessError] with its exit status or the [OSError] that kept it
    from starting.  The errors of the four earlier strategies are dropped. *)
Theorem local_failure_raises_last_error (python_exe penv_dir : string)
    (w w1 : world) :
  all_fail h penv_dir (venv_cmd_options python_exe penv_dir) w = Some w1 ->
  exists e m r,
    create_with_local_venv h python_exe penv_dir w = (Raise e, w1) /\
    last (new_events w w1)
    = Some (Event (CRun ["virtualenv"; penv_dir]) m (OProc r)) /\
    run_error ["virtualenv"; penv_dir] r = Some e.
Proof.
  intros Hall.
  change (venv_cmd_options python_exe penv_dir)
    with (take 4 (venv_cmd_options python_exe penv_dir) ++ [["virtualenv"; penv_dir]])
    in Hall.
  destruct (all_fail_snoc _ _ _ _ _ Hall) as (w0 & e & Hbefore & Hlast).
  destruct (all_fail_events h _ _ _ _ Hbefore) as (evs & Hevs & _).
  pose proof Hlast as Hlast'. rewrite attempt_eq in Hlast'. cbn zeta in Hlast'.
  injection Hlast' as Herr Hw1.
  eexists e, _, _. split; [ | split].
  - unfold create_with_local_venv.
    change (venv_cmd_options python_exe penv_dir)
      with (take 4 (venv_cmd_options python_exe penv_dir) ++ [["virtualenv"; penv_dir]]).
    eapply try_commands_fail_last; eassumption.
  - erewrite new_events_app;
      [ | rewrite <- Hw1; cbn [trace]; rewrite Hevs, <- app_assoc; reflexivity ].
    rewrite last_app. reflexivity.
  - rewrite <- ?Hevs. destruct (run_error _ _) as [e' | ]; [congruence | discriminate].
Qed.

(** X7.  The remote strategy checks what the download returned.  If it is
    [None] or an empty path, [create_with_remote_venv] raises the installer's
    exception and starts no process.  Otherwise it runs the interpreter on
    the path the download returned, and returns the target exactly when that
    command exits with status 0; its error is raised as it is. *)
Theorem remote_strategy_outcomes (python_exe penv_dir : string) (w : world) :
  let d := download h (after_clearing h penv_dir w) VIRTUALENV_URL
             (venv_script_cache h penv_dir) in
  let r := create_with_remote_venv h python_exe penv_dir w in
  (truthy d.1 = false ->
   r.1 = Raise (PIOInstallerException "Could not find virtualenv script") /\
   map ev_call (new_events w r.2)
   = [CRemoveDir penv_dir; CDownload VIRTUALENV_URL (venv_script_cache h penv_dir)]) /\
  (forall script, d.1 = Some script -> truthy d.1 = true ->
   exists p,
     run_result [python_exe; script; penv_dir] (new_events w r.2) = Some p /\
     r.1 = match run_error [python_exe; script; penv_dir] p with
           | None => Ok penv_dir
           | Some e => Raise e
           end).
Proof.
  cbn zeta. rewrite create_with_remote_venv_eq. cbn zeta.
  fold (after_clearing h penv_dir w).
  set (d := download h (after_clearing h penv_dir w) _ _).
  split.
  - intros ->. cbn [fst snd]. split; [reflexivity | ].
    erewrite new_events_app;
      [ | unfold after_clearing; cbn [trace fs]; rewrite <- ?app_assoc; cbn [app];
          reflexivity ].
    reflexivity.
  - intros script Hs ->. rewrite Hs. unfold default. cbn [from_option id].
    rewrite subprocess_run_eq. cbn [fs trace].
    set (pr := (spawn h _ [python_exe; script; penv_dir]).1).
    exists pr. split.
    + destruct pr as [[ | code | code] out | reason]; cbn [snd];
        (erewrite new_events_app;
         [ | unfold after_clearing; cbn [trace fs]; rewrite <- ?app_assoc; cbn [app];
             reflexivity ]);
        cbn; rewrite bool_decide_eq_true_2; reflexivity.
    + destruct pr as [[ | code | code] out | reason]; reflexivity.
Qed.

Lemma create_virtualenv_result (python_exe penv_dir : string) (w : world) :
  (create_virtualenv h python_exe penv_dir w).1 = Ok None \/
  (create_virtualenv h python_exe penv_dir w).1 = Ok (Some penv_dir).
Proof.
  rewrite create_virtualenv_eq. unfold create_with_local_venv.
  destruct (try_commands_last penv_dir (venv_cmd_options python_exe penv_dir) None w)
    as (evs & _ & _ & Hres).
  destruct (try_commands h penv_dir _ None w) as [r w1]. cbn [fst snd] in *.
  destruct Hres as [[-> _] | ((e & ->) & _)]; [right; reflexivity | ].
  destruct (create_with_remote_venv_last python_exe penv_dir w1)
    as (evs' & _ & _ & Hres').
  destruct (create_with_remote_venv h python_exe penv_dir w1) as [r' w2].
  cbn [fst snd] in *.
  destruct Hres' as [[-> _] | ((e' & ->) & _)]; [right | left]; reflexivity.
Qed.

Lemma try_pythons_first_success (penv_dir : string) (before : list string)
    (python_exe : string) (after : list string) (acc r : option string)
    (w w1 w2 : world) :
  candidates_exhausted h penv_dir before w = Some w1 ->
  create_virtualenv h python_exe penv_dir w1 = (Ok r, w2) ->
  truthy r = true ->
  try_pythons h (before ++ python_exe :: after) penv_dir acc w = (Ok r, w2).
Proof.
  revert acc w. induction before as [ | p ps IH]; intros acc w Hex Hok Hr;
    cbn [candidates_exhausted] in Hex; cbn [app try_pythons]; unfold bind at 1.
  - injection Hex as ->. rewrite Hok, Hr. reflexivity.
  - destruct (create_virtualenv h p penv_dir w) as [[r' | e] w']; [ | discriminate].
    destruct (truthy r'); [discriminate | ].
    apply IH; assumption.
Qed.

(** X2.  The interpreters are tried in the order they were found.  When the
    ones before [python_exe] have each gone through all their strategies
    without result and [python_exe] gives an environment, the loop stops
    there with the target: the interpreters after it are not tried, and the
    calls made are those of the failed interpreters followed by those of the
    one that worked. *)
Theorem first_working_interpreter_wins (penv_dir : string) (before : list string)
    (python_exe : string) (after : list string) (acc r : option string)
    (w w1 w2 : world) :
  candidates_exhausted h penv_dir before w = Some w1 ->
  create_virtualenv h python_exe penv_dir w1 = (Ok r, w2) ->
  truthy r = true ->
  try_pythons h (before ++ python_exe :: after) penv_dir acc w = (Ok r, w2) /\
  r = Some penv_dir /\
  new_events w w2 = new_events w w1 ++ new_events w1 w2 /\
  last_run_ok (new_events w1 w2) = true.
Proof.
  intros Hex Hok Hr.
  split; [eapply try_pythons_first_success; eassumption | ].
  destruct (candidates_exhausted_events h _ _ _ _ Hex) as (evs & Hevs & _).
  destruct (create_virtualenv_calls h python_exe penv_dir w1) as (evs' & Hevs' & _).
  pose proof (create_virtualenv_last python_exe penv_dir w1) as Hlast.
  rewrite Hok in Hevs', Hlast. cbn [fst snd] in Hevs', Hlast.
  injection Hlast as Hlast.
  rewrite (new_events_app _ _ _ Hevs), (new_events_app _ _ _ Hevs') in *.
  rewrite (new_events_app w w2 (evs ++ evs'))
    by (rewrite Hevs', Hevs, <- app_assoc; reflexivity).
  destruct (last_run_ok evs'); [done | ]. subst r. discriminate.
Qed.

End BuilderMore.

(** ** Further properties of [create_core_penv] *)

Section Orchestrator.

Context (h : host).

Lemma bind_Ok {A B : Type} (m : M A) (k : A -> M B) (w : world) (a : A) (w' : world) :
  m w = (Ok a, w') -> bind m k w = k a w'.
Proof. unfold bind. intros ->. reflexivity. Qed.

Lemma bind_Raise {A B : Type} (m : M A) (k : A -> M B) (w : world) (e : exn)
    (w' : world) :
  m w = (Raise e, w') -> bind m k w = (Raise e, w').
Proof. unfold bind. intros ->. reflexivity. Qed.

Lemma click_echo_eq (msg : string) (w : world) :
  click_echo msg w
  = (Ok tt, World (fs w) (trace w ++ [Event (CEcho msg) (fs w) ODone])).
Proof. reflexivity. Qed.

Lemma find_compatible_pythons_eq (ignore_pythons : option (list string)) (w : world) :
  find_compatible_pythons h ignore_pythons w
  = (Ok (compatible_pythons h w ignore_pythons),
     World (fs w)
       (trace w ++ [Event (CFindPythons ignore_pythons) (fs w)
                          (OList (compatible_pythons h w ignore_pythons))])).
Proof. reflexivity. Qed.

Lemma is_portable_eq (w : world) :
  is_portable h w
  = (Ok (portable h w),
     World (fs w) (trace w ++ [Event CIsPortable (fs w) (OBool (portable h w))])).
Proof. reflexivity. Qed.

Lemma fetch_portable_python_eq (dir : string) (w : world) :
  fetch_portable_python h dir w
  = (Ok (portable_python h w dir).1,
     World (portable_python h w dir).2
       (trace w ++ [Event (CFetchPortable dir) (fs w)
                          (OPath (portable_python h w dir).1)])).
Proof.
  unfold fetch_portable_python, bind, emit, ret.
  destruct (portable_python h w dir) as [r fs']. reflexivity.
Qed.

Lemma update_pip_never_raises (python_exe penv_dir : string) (w : world) :
  exists b, (update_pip h python_exe penv_dir w).1 = Ok b.
Proof.
  rewrite update_pip_eq. cbn zeta.
  destruct (can_write h _ _); [ | eexists; reflexivity].
  destruct (proc_ok _); [eexists; reflexivity | ].
  destruct (proc_exit_error _); [ | eexists; reflexivity].
  destruct (proc_ok _); eexists; reflexivity.
Qed.

(** [create_core_penv] is [build_environment] followed by the recording of
    the state and the upgrade of pip. *)
Lemma create_core_penv_split (penv_dir : option string)
    (ignore_pythons : option (list string)) (w : world) :
  let target := resolve_target h penv_dir in
  create_core_penv h penv_dir ignore_pythons w =
  match build_environment h target ignore_pythons w with
  | (Raise e, w1) => (Raise e, w1)
  | (Ok r, w1) =>
      if truthy r
      then match init_state h (env_python h target) target w1 with
           | (Raise e, w2) => (Raise e, w2)
           | (Ok _, w2) =>
               (Ok r, finished (update_pip h (env_python h target) target w2).2)
           end
      else (Raise (PIOInstallerException BUILD_FAILURE), w1)
  end.
Proof.
  cbn zeta. set (target := resolve_target h penv_dir).
  assert (Hrec : forall r w1,
            record_environment h target r w1
            = if truthy r
              then match init_state h (env_python h target) target w1 with
                   | (Raise e, w2) => (Raise e, w2)
                   | (Ok _, w2) =>
                       (Ok r, finished (update_pip h (env_python h target) target w2).2)
                   end
              else (Raise (PIOInstallerException BUILD_FAILURE), w1)).
  { intros r w1. unfold record_environment.
    destruct (truthy r); cbn [negb]; [ | reflexivity].
    unfold bind at 1.
    destruct (init_state h _ target w1) as [[p | e] w2]; [ | reflexivity].
    unfold bind at 1.
    destruct (update_pip_never_raises (env_python h target) target w2) as (b & Hb).
    destruct (update_pip h _ target w2) as [rb w3]. cbn [fst snd] in *. subst rb.
    reflexivity. }
  change (create_core_penv h penv_dir ignore_pythons w)
         with ((_ <- click_echo ("Creating a virtual environment at " +:+ target) ;;
                pythons <- find_compatible_pythons h ignore_pythons ;;
                result_dir <- try_pythons h pythons target None ;;
                result_dir <-
                  (if negb (truthy result_dir)
                   then
                     running_portable <- is_portable h ;;
                     if negb running_portable
                     then
                       python_exe <- fetch_portable_python h (path_dirname h target) ;;
                       if truthy python_exe
                       then create_virtualenv h (default EmptyString python_exe) target
                       else ret result_dir
                     else ret result_dir
                   else ret result_dir) ;;
                record_environment h target result_dir) w).
  unfold build_environment, bind.
  destruct (click_echo _ w) as [[[] | e] wa]; [ | reflexivity].
  destruct (find_compatible_pythons h ignore_pythons wa) as [[pythons | e] w0];
    [ | reflexivity].
  destruct (try_pythons h pythons target None w0) as [[r | e] w1]; [ | reflexivity].
  destruct (truthy r) eqn:Hr; cbn [negb].
  - unfold ret. rewrite Hrec, Hr. reflexivity.
  - destruct (is_portable h w1) as [[[ | ] | e] w2]; cbn [negb]; try reflexivity.
    + unfold ret. rewrite Hrec. reflexivity.
    + destruct (fetch_portable_python h _ w2) as [[py | e] w3]; [ | reflexivity].
      destruct (truthy py).
      * destruct (create_virtualenv h _ target w3) as [[r' | e] w4]; [ | reflexivity].
        rewrite Hrec. reflexivity.
      * unfold ret. rewrite Hrec. reflexivity.
Qed.

Lemma builder_call_not_recording (evs : list event) :
  Forall (fun c => builder_call c = true) (map ev_call evs) ->
  Forall (fun e => recording_call (ev_call e) = false
                   /\ ev_call e <> CIsPortable
                   /\ is_fetch_portable (ev_call e) = false) evs.
Proof.
  intros Hb. apply Forall_fmap in Hb. eapply Forall_impl; [exact Hb | ].
  cbn. intros e He. destruct (ev_call e); done.
Qed.

Lemma try_pythons_cons (penv_dir python_exe : string) (rest : list string)
    (acc : option string) (w : world) :
  try_pythons h (python_exe :: rest) penv_dir acc w =
  match create_virtualenv h python_exe penv_dir w with
  | (Ok r, w') => if truthy r then (Ok r, w') else try_pythons h rest penv_dir r w'
  | (Raise e, w') => (Raise e, w')
  end.
Proof.
  cbn [try_pythons]. unfold bind.
  destruct (create_virtualenv h python_exe penv_dir w) as [[r | e] w']; [ | reflexivity].
  destruct (truthy r); reflexivity.
Qed.

Lemma try_pythons_events (penv_dir : string) (pythons : list string)
    (acc : option string) (w : world) :
  exists evs,
    trace (try_pythons h pythons penv_dir acc w).2 = trace w ++ evs /\
    Forall (fun c => builder_call c = true) (map ev_call evs) /\
    ((try_pythons h pythons penv_dir acc w).1 = Ok acc \/
     (try_pythons h pythons penv_dir acc w).1 = Ok None \/
     (try_pythons h pythons penv_dir acc w).1 = Ok (Some penv_dir)).
Proof.
  revert acc w. induction pythons as [ | p ps IH]; intros acc w.
  - exists []. rewrite app_nil_r. repeat split; [constructor | left; reflexivity].
  - rewrite try_pythons_cons.
    destruct (create_virtualenv_calls h p penv_dir w) as (evs & Hevs & Hcalls).
    pose proof (create_virtualenv_result h p penv_dir w) as Hres.
    destruct (create_virtualenv h p penv_dir w) as [r w1]. cbn [fst snd] in *.
    destruct Hres as [-> | ->].
    + cbn [truthy].
      destruct (IH None w1) as (evs' & Hevs' & Hcalls' & Hres').
      exists (evs ++ evs'). split; [ | split].
      * rewrite Hevs', Hevs, <- app_assoc. reflexivity.
      * rewrite map_app. apply Forall_app. done.
      * destruct Hres' as [H | [H | H]]; rewrite H; auto.
    + destruct (truthy (Some penv_dir)) eqn:Ht.
      * exists evs. cbn [fst snd]. repeat split; auto.
      * destruct (IH (Some penv_dir) w1) as (evs' & Hevs' & Hcalls' & Hres').
        exists (evs ++ evs'). split; [ | split].
        -- rewrite Hevs', Hevs, <- app_assoc. reflexivity.
        -- rewrite map_app. apply Forall_app. done.
        -- destruct Hres' as [H | [H | H]]; rewrite H; auto.
Qed.

(** [build_environment], step by step. *)
Lemma build_environment_eq (penv_dir : string)
    (ignore_pythons : option (list string)) (w : world) :
  let wa := World (fs w)
              (trace w ++ [Event (CEcho ("Creating a virtual environment at " +:+ penv_dir))
                                 (fs w) ODone]) in
  let pythons := compatible_pythons h wa ignore_pythons in
  let w0 := World (fs w)
              (trace wa ++ [Event (CFindPythons ignore_pythons) (fs w) (OList pythons)]) in
  build_environment h penv_dir ignore_pythons w =
  match try_pythons h pythons penv_dir None w0 with
  | (Raise e, w1) => (Raise e, w1)
  | (Ok r, w1) =>
      if truthy r then (Ok r, w1)
      else
        let w2 := World (fs w1)
                    (trace w1 ++ [Event CIsPortable (fs w1) (OBool (portable h w1))]) in
        if portable h w1 then (Ok r, w2)
        else
          let f := portable_python h w2 (path_dirname h penv_dir) in
          let w3 := World f.2
                      (trace w2 ++ [Event (CFetchPortable (path_dirname h penv_dir))
                                          (fs w2) (OPath f.1)]) in
          if truthy f.1
          then create_virtualenv h (default EmptyString f.1) penv_dir w3
          else (Ok r, w3)
  end.
Proof.
  cbn zeta. unfold build_environment.
  rewrite (bind_Ok _ _ _ _ _ (click_echo_eq _ _)).
  rewrite (bind_Ok _ _ _ _ _ (find_compatible_pythons_eq _ _)).
  unfold bind at 1.
  destruct (try_pythons h _ penv_dir None _) as [[r | e] w1]; [ | reflexivity].
  destruct (truthy r); cbn [negb]; [reflexivity | ].
  rewrite (bind_Ok _ _ _ _ _ (is_portable_eq _)).
  destruct (portable h w1); cbn [negb]; [reflexivity | ].
  rewrite (bind_Ok _ _ _ _ _ (fetch_portable_python_eq _ _)).
  cbn [fs trace]. destruct (truthy _); reflexivity.
Qed.

(** What [build_environment] can do: it never raises, it returns [None] or
    the target, and it makes no call that records anything. *)
Lemma build_environment_facts (penv_dir : string)
    (ignore_pythons : option (list string)) (w : world) :
  ((build_environment h penv_dir ignore_pythons w).1 = Ok None \/
   (build_environment h penv_dir ignore_pythons w).1 = Ok (Some penv_dir)) /\
  exists evs,
    trace (build_environment h penv_dir ignore_pythons w).2 = trace w ++ evs /\
    Forall (fun e => recording_call (ev_call e) = false) evs.
Proof.
  rewrite build_environment_eq. cbn zeta.
  set (wa := World (fs w) _).
  set (pythons := compatible_pythons h wa ignore_pythons).
  set (w0 := World (fs w) (trace wa ++ _)).
  destruct (try_pythons_events penv_dir pythons None w0)
    as (evs & Hevs & Hcalls & Hres).
  apply builder_call_not_recording in Hcalls.
  assert (Hcalls' : Forall (fun e => recording_call (ev_call e) = false) evs)
    by (eapply Forall_impl; [exact Hcalls | cbn; tauto]).
  destruct (try_pythons h pythons penv_dir None w0) as [r w1]. cbn [fst snd] in *.
  set (pre := [ Event (CEcho ("Creating a virtual environment at " +:+ penv_dir))
                      (fs w) ODone;
                Event (CFindPythons ignore_pythons) (fs w) (OList pythons) ]).
  assert (Hw1 : trace w1 = trace w ++ pre ++ evs).
  { rewrite Hevs. subst w0 wa pre. cbn [trace]. rewrite <- !app_assoc. reflexivity. }
  assert (Hpre : Forall (fun e => recording_call (ev_call e) = false) (pre ++ evs)).
  { apply Forall_app. split; [repeat constructor | exact Hcalls']. }
  assert (Hr : r = Ok None \/ r = Ok (Some penv_dir)) by tauto.
  clear Hres Hevs. clearbody pre.
  assert (Hkeep : forall r0, r0 = None \/ r0 = Some penv_dir ->
            (@Ok (option string) r0 = Ok None \/ @Ok (option string) r0 = Ok (Some penv_dir)))
    by (intros r0 [-> | ->]; auto).
  assert (Hr' : exists r0, r = Ok r0 /\ (r0 = None \/ r0 = Some penv_dir))
    by (destruct Hr as [-> | ->]; eexists; split; eauto).
  destruct Hr' as (r0 & -> & Hr0). clear Hr.
  destruct (truthy r0).
  - cbn [fst snd]. split; [apply Hkeep, Hr0 | ]. exists (pre ++ evs). done.
  - destruct (portable h w1).
    + cbn [fst snd trace]. split; [apply Hkeep, Hr0 | ].
      eexists. split; [rewrite Hw1, <- !app_assoc; reflexivity | ].
      rewrite app_assoc. apply Forall_app. split; [exact Hpre | repeat constructor].
    + set (w2 := World (fs w1) _).
      set (f := portable_python h w2 _).
      destruct (truthy f.1).
      * set (w3 := World f.2 _).
        destruct (create_virtualenv_calls h (default EmptyString f.1) penv_dir w3)
          as (evs' & Hevs' & Hc').
        apply builder_call_not_recording in Hc'.
        split; [apply create_virtualenv_result | ].
        eexists. split.
        -- rewrite Hevs'. subst w3 w2. cbn [trace]. rewrite Hw1, <- !app_assoc.
           reflexivity.
        -- rewrite app_assoc. apply Forall_app. split; [exact Hpre | ].
           apply Forall_app. split; [repeat constructor | ].
           apply Forall_app. split; [repeat constructor | ].
           eapply Forall_impl; [exact Hc' | cbn; tauto].
      * cbn [fst snd trace]. split; [apply Hkeep, Hr0 | ].
        eexists. split; [subst w2; cbn [trace]; rewrite Hw1, <- !app_assoc; reflexivity | ].
        rewrite app_assoc. apply Forall_app. split; [exact Hpre | ].
        apply Forall_app. split; repeat constructor.
Qed.

Lemma discover_eq (penv_dir : string) (ignore_pythons : option (list string))
    (w : world) :
  let wa := World (fs w)
              (trace w ++ [Event (CEcho ("Creating a virtual environment at " +:+ penv_dir))
                                 (fs w) ODone]) in
  discover h penv_dir ignore_pythons w
  = (Ok (compatible_pythons h wa ignore_pythons),
     World (fs w)
       (trace wa ++ [Event (CFindPythons ignore_pythons) (fs w)
                           (OList (compatible_pythons h wa ignore_pythons))])).
Proof. reflexivity. Qed.

(** X3.  Whenever [create_core_penv] returns, it returns the directory it
    resolved at the start (its argument, else the override variable, else
    the default), and never [None] or any other path. *)
Theorem create_core_penv_returns_target (penv_dir : option string)
    (ignore_pythons : option (list string)) (w w' : world) (r : option string) :
  create_core_penv h penv_dir ignore_pythons w = (Ok r, w') ->
  r = Some (resolve_target h penv_dir) /\ truthy r = true.
Proof.
  rewrite create_core_penv_split. cbn zeta.
  destruct (build_environment_facts (resolve_target h penv_dir) ignore_pythons w)
    as (Hres & _).
  destruct (build_environment h _ ignore_pythons w) as [r0 w1]. cbn [fst] in Hres.
  destruct Hres as [-> | ->].
  - cbn [truthy]. discriminate.
  - destruct (truthy (Some (resolve_target h penv_dir))) eqn:Ht; [ | discriminate].
    destruct (init_state h _ _ w1) as [[p | e] w2]; [ | discriminate].
    intros [= <- _]. split; [reflexivity | exact Ht].
Qed.

(** X4.  Once an environment is built and its state recorded,
    [create_core_penv] returns the target whatever [update_pip] answers: the
    answer of [update_pip], [True] or [False], is dropped.  Both [init_state]
    and [update_pip] are given the interpreter of the new environment, not
    the one that built it. *)
Theorem pip_upgrade_failure_is_not_fatal (penv_dir : option string)
    (ignore_pythons : option (list string)) (w w1 w2 : world)
    (r : option string) (p : string) :
  build_environment h (resolve_target h penv_dir) ignore_pythons w = (Ok r, w1) ->
  truthy r = true ->
  init_state h (env_python h (resolve_target h penv_dir)) (resolve_target h penv_dir) w1
  = (Ok p, w2) ->
  create_core_penv h penv_dir ignore_pythons w
  = (Ok (Some (resolve_target h penv_dir)),
     finished (update_pip h (env_python h (resolve_target h penv_dir))
                 (resolve_target h penv_dir) w2).2) /\
  exists b, (update_pip h (env_python h (resolve_target h penv_dir))
               (resolve_target h penv_dir) w2).1 = Ok b.
Proof.
  intros Hbuild Hr Hinit. split; [ | apply update_pip_never_raises].
  rewrite create_core_penv_split. cbn zeta. rewrite Hbuild, Hr, Hinit.
  destruct (build_environment_facts (resolve_target h penv_dir) ignore_pythons w)
    as (Hres & _).
  rewrite Hbuild in Hres. cbn [fst] in Hres.
  destruct Hres as [[= ->] | [= ->]]; [discriminate | reflexivity].
Qed.

(** X8.  [create_core_penv] does not guard [init_state]: when the
    environment is built but its state cannot be recorded, the exception of
    [init_state] leaves [create_core_penv] as it is, and [update_pip] is not
    reached. *)
Theorem state_recording_failure_is_fatal (penv_dir : option string)
    (ignore_pythons : option (list string)) (w w1 w2 : world)
    (r : option string) (e : exn) :
  build_environment h (resolve_target h penv_dir) ignore_pythons w = (Ok r, w1) ->
  truthy r = true ->
  init_state h (env_python h (resolve_target h penv_dir)) (resolve_target h penv_dir) w1
  = (Raise e, w2) ->
  create_core_penv h penv_dir ignore_pythons w = (Raise e, w2).
Proof.
  intros Hbuild Hr Hinit.
  rewrite create_core_penv_split. cbn zeta. rewrite Hbuild, Hr, Hinit. reflexivity.
Qed.

(** X9.  While it looks for an environment [create_core_penv] records
    nothing: it opens no file for writing, queries no version and reads no
    clock.  When no environment comes out, it raises the build failure right
    there, so a failed run has written neither [state.json] nor [pip.conf]. *)
Theorem nothing_recorded_without_environment (penv_dir : option string)
    (ignore_pythons : option (list string)) (w : world) (r : option string) :
  (build_environment h (resolve_target h penv_dir) ignore_pythons w).1 = Ok r ->
  truthy r = false ->
  create_core_penv h penv_dir ignore_pythons w
  = (Raise (PIOInstallerException BUILD_FAILURE),
     (build_environment h (resolve_target h penv_dir) ignore_pythons w).2) /\
  Forall (fun e => recording_call (ev_call e) = false)
         (new_events w (create_core_penv h penv_dir ignore_pythons w).2).
Proof.
  intros Hbuild Hr.
  assert (Hcore : create_core_penv h penv_dir ignore_pythons w
                  = (Raise (PIOInstallerException BUILD_FAILURE),
                     (build_environment h (resolve_target h penv_dir)
                        ignore_pythons w).2)).
  { rewrite create_core_penv_split. cbn zeta.
    destruct (build_environment h _ ignore_pythons w) as [r0 w1].
    cbn [fst snd] in *. subst r0. rewrite Hr. reflexivity. }
  split; [exact Hcore | ]. rewrite Hcore. cbn [snd].
  destruct (build_environment_facts (resolve_target h penv_dir) ignore_pythons w)
    as (_ & evs & Hevs & Hcalls).
  rewrite (new_events_app _ _ _ Hevs). exact Hcalls.
Qed.

(** X10.  The portable interpreter is a last resort.  When an interpreter
    found on the host gives the environment, [create_core_penv] neither asks
    whether it runs on a portable interpreter nor fetches one. *)
Theorem portable_not_consulted_after_success (penv_dir : string)
    (ignore_pythons : option (list string)) (pythons : list string)
    (w w0 w1 : world) (r : option string) :
  discover h penv_dir ignore_pythons w = (Ok pythons, w0) ->
  try_pythons h pythons penv_dir None w0 = (Ok r, w1) ->
  truthy r = true ->
  build_environment h penv_dir ignore_pythons w = (Ok r, w1) /\
  Forall (fun e => ev_call e <> CIsPortable /\ is_fetch_portable (ev_call e) = false)
         (new_events w w1).
Proof.
  intros Hdisc Htry Hr.
  destruct (try_pythons_events penv_dir pythons None w0) as (evs & Hevs & Hcalls & _).
  rewrite Htry in Hevs. cbn [snd] in Hevs.
  rewrite discover_eq in Hdisc. cbn zeta in Hdisc. cbn [fs trace] in Hdisc.
  injection Hdisc as Hpy Hw0.
  split.
  - rewrite build_environment_eq. cbn zeta. cbn [fs trace].
    rewrite Hw0, Hpy, Htry, Hr. reflexivity.
  - apply builder_call_not_recording in Hcalls.
    erewrite new_events_app;
      [ | rewrite Hevs, <- Hw0; cbn [trace]; rewrite <- !app_assoc; reflexivity].
    apply Forall_app. split; [repeat constructor; done | ].
    apply Forall_app. split; [repeat constructor; done | ].
    eapply Forall_impl; [exact Hcalls | cbn; tauto].
Qed.

(** X11.  When every interpreter found on the host has failed, the running
    interpreter is not portable and a portable interpreter is fetched (into
    the parent directory of the target), the fetched interpreter goes through
    [create_virtualenv] once, like any other, and what that gives is what
    [create_core_penv] goes on with. *)
Theorem portable_interpreter_is_tried_last (penv_dir : string)
    (ignore_pythons : option (list string)) (pythons : list string)
    (w w0 w1 w2 w3 : world) (python_exe : string) :
  discover h penv_dir ignore_pythons w = (Ok pythons, w0) ->
  candidates_exhausted h penv_dir pythons w0 = Some w1 ->
  is_portable h w1 = (Ok false, w2) ->
  fetch_portable_python h (path_dirname h penv_dir) w2 = (Ok (Some python_exe), w3) ->
  truthy (Some python_exe) = true ->
  build_environment h penv_dir ignore_pythons w
  = create_virtualenv h python_exe penv_dir w3.
Proof.
  intros Hdisc Hex Hport Hfetch Hpy.
  destruct (try_pythons_exhausted h penv_dir pythons None w0 w1 Hex eq_refl)
    as (r & Htry & Hr).
  rewrite discover_eq in Hdisc. cbn zeta in Hdisc. cbn [fs trace] in Hdisc.
  injection Hdisc as Hpys Hw0.
  rewrite is_portable_eq in Hport. injection Hport as Hp Hw2.
  rewrite Hp in Hw2. subst w2.
  rewrite fetch_portable_python_eq in Hfetch. injection Hfetch as Hf Hw3.
  rewrite Hf in Hw3. subst w3. cbn [fs trace] in Hf |- *.
  rewrite build_environment_eq. cbn zeta. cbn [fs trace].
  rewrite Hw0, Hpys, Htry, Hr, Hp, Hf, Hpy. reflexivity.
Qed.

End Orchestrator.

(** ** Further properties of the recorder and the updater *)

Section RecorderUpdater.

Context (h : host).

(** [init_state], step by step. *)
Lemma init_state_eq (python_exe penv_dir : string) (w : world) :
  let query := version_query python_exe in
  let p := spawn h w query in
  let w1 := World p.2 (trace w ++ [Event (CCheckOutput query) (fs w) (OProc p.1)]) in
  init_state h python_exe penv_dir w =
  match p.1 with
  | Exited 0 (Some out) =>
      save_state h
        (state_record h (py_round (clock h w1)) python_exe (strip out))
        (Some penv_dir)
        (World p.2 (trace w1 ++ [Event CTime p.2 (OTime (clock h w1))]))
  | Exited 0 None => (Raise UnicodeDecodeError, w1)
  | Exited code _ => (Raise (CalledProcessError code query), w1)
  | NotStarted reason => (Raise (OSError reason), w1)
  end.
Proof.
  cbn zeta. unfold init_state, version_query, bind at 1, subprocess_check_output.
  destruct (spawn h w _) as [[[ | code | code] [out | ] | reason] fs1]; reflexivity.
Qed.

(** X12.  [init_state] writes nothing unless the version query went well.
    When the interpreter cannot be started, exits with an error status, or
    prints what is not text, [init_state] raises the matching exception right
    after the query: the clock is not read and no file is opened. *)
Theorem init_state_failure_writes_nothing (python_exe penv_dir : string) (w : world) :
  (forall out, (spawn h w (version_query python_exe)).1 <> Exited 0 (Some out)) ->
  (init_state h python_exe penv_dir w).1
  = Raise (match (spawn h w (version_query python_exe)).1 with
           | Exited 0 _ => UnicodeDecodeError
           | Exited code _ => CalledProcessError code (version_query python_exe)
           | NotStarted reason => OSError reason
           end) /\
  map ev_call (new_events w (init_state h python_exe penv_dir w).2)
  = [CCheckOutput (version_query python_exe)].
Proof.
  intros Hbad. rewrite init_state_eq. cbn zeta.
  destruct (spawn h w (version_query python_exe)).1
    as [[ | code | code] [out | ] | reason] eqn:Hp;
    try (exfalso; eapply Hbad; reflexivity);
    (split; [reflexivity | ]; cbn [snd];
     erewrite new_events_app; [ | cbn [trace]; reflexivity]; reflexivity).
Qed.

Lemma lstrip_head (l : list ascii) :
  match lstrip l with
  | c :: _ => py_isspace c = false
  | [] => True
  end.
Proof.
  induction l as [ | c l IH]; [exact I | ]. cbn [lstrip].
  destruct (py_isspace c) eqn:Hc; [exact IH | exact Hc].
Qed.

Lemma lstrip_clean (l : list ascii) :
  match l with c :: _ => py_isspace c = false | [] => True end -> lstrip l = l.
Proof.
  destruct l as [ | c l]; [reflexivity | ]. cbn [lstrip]. intros ->. reflexivity.
Qed.

Lemma lstrip_suffix (l : list ascii) : exists pre, l = pre ++ lstrip l.
Proof.
  induction l as [ | c l (pre & IH)]; [exists []; reflexivity | ]. cbn [lstrip].
  destruct (py_isspace c); [ | exists []; reflexivity].
  exists (c :: pre). cbn [app]. rewrite <- IH. reflexivity.
Qed.

Lemma strip_idempotent (s : string) : strip (strip s) = strip s.
Proof.
  unfold strip, chars. rewrite list_ascii_of_string_of_list_ascii.
  set (x := lstrip (list_ascii_of_string s)).
  assert (Hx : match x with c :: _ => py_isspace c = false | [] => True end)
    by apply lstrip_head.
  set (y := rev (lstrip (rev x))).
  assert (Hy : match y with c :: _ => py_isspace c = false | [] => True end).
  { destruct (lstrip_suffix (rev x)) as (pre & Hpre).
    assert (Hxy : x = y ++ rev pre).
    { subst y. rewrite <- rev_app_distr, <- Hpre, rev_involutive. reflexivity. }
    destruct y as [ | c y']; [exact I | ]. rewrite Hxy in Hx. exact Hx. }
  rewrite (lstrip_clean y Hy). subst y. rewrite rev_involutive.
  rewrite (lstrip_clean (lstrip (rev x)) (lstrip_head (rev x))). reflexivity.
Qed.

(** X13.  Whenever [init_state] returns, it returns the path of [state.json]
    under the target, and [load_state] on that target then gives a record of
    the module's shape: the interpreter given to [init_state] as
    [python.path], and as [python.version] a text with no white space at
    either end (stripping it again changes nothing). *)
Theorem recorded_state_is_clean (python_exe penv_dir : string) (w w' : world)
    (p : string) :
  init_state h python_exe penv_dir w = (Ok p, w') ->
  p = state_path h (Some penv_dir) /\
  exists created version,
    load_state h (Some penv_dir) w'
    = (Ok (JDict [ ("created_on", JInt created);
                   ("python", JDict [ ("path", JStr python_exe);
                                      ("version", JStr version) ]);
                   ("installer_version", JStr (__version__ h));
                   ("platform", JDict [ ("platform", JStr (platform_platform h));
                                        ("release", JStr (platform_release h)) ]) ]),
       w') /\
    strip version = version.
Proof.
  rewrite init_state_eq. cbn zeta.
  destruct (spawn h w (version_query python_exe)).1
    as [[ | code | code] [out | ] | reason]; try discriminate.
  intros Hsave.
  destruct (load_state_after_save_state h _ _ _ _ _ (state_record_wf h _ _ _) Hsave)
    as (Hp & _ & Hload).
  split; [exact Hp | ].
  eexists _, (strip out). split; [exact Hload | apply strip_idempotent].
Qed.

Ltac log_of_update_pip :=
  erewrite new_events_app;
  [ | unfold announced; cbn [trace fs]; rewrite <- ?app_assoc; cbn [app]; reflexivity ].

Ltac runs_of_update_pip :=
  unfold run_ok, run_exit_error, no_download, no_run;
  repeat first
    [ rewrite run_result_other by reflexivity
    | rewrite run_result_here
    | rewrite run_result_skip by (apply primary_is_not_fallback
                                  || (apply not_eq_sym, primary_is_not_fallback)) ];
  cbn.

(** X14.  The primary upgrade command never starts without [pip.conf] in
    place: whenever [update_pip] runs [python -m pip install -U pip], the
    file [pip.conf] under the target then holds the two lines that turn user
    installs off. *)
Theorem pip_conf_in_place_before_upgrade (python_exe penv_dir : string) (w : world) :
  Forall (fun e => ev_call e = CRun (pip_upgrade_command python_exe) ->
                   ev_before e !! path_join h penv_dir ["pip.conf"]
                   = Some ("[global]" +:+ NL +:+ "user=no"))
         (new_events w (update_pip h python_exe penv_dir w).2).
Proof.
  rewrite update_pip_eq. cbn zeta.
  destruct (can_write h _ _).
  - destruct (spawn h _ (pip_upgrade_command python_exe)) as [pr fs3]. cbn [fst snd].
    destruct (proc_ok pr); [ | destruct (proc_exit_error pr)].
    + cbn [snd]. log_of_update_pip.
      repeat constructor; cbn [ev_call ev_before]; intros H;
        first [discriminate H | apply lookup_insert_eq].
    + destruct (download h _ PIP_URL _) as [dr fs4]. cbn [fst snd].
      destruct (spawn h _ [python_exe; get_pip_cache h penv_dir]) as [qr fs5].
      cbn [fst snd].
      destruct (proc_ok qr); cbn [snd]; log_of_update_pip;
        (repeat constructor; cbn [ev_call ev_before]; intros H;
         first [ discriminate H
               | apply lookup_insert_eq
               | exfalso; injection H as H;
                 exact (primary_is_not_fallback python_exe _ (eq_sym H)) ]).
    + cbn [snd]. log_of_update_pip.
      repeat constructor; cbn [ev_call ev_before]; intros H;
        first [discriminate H | apply lookup_insert_eq].
  - cbn [snd]. log_of_update_pip.
    repeat constructor; cbn [ev_call ev_before]; intros H; discriminate H.
Qed.

(** X15.  In [update_pip] the download of the installer script and its run
    come together, and exactly when the primary command was run and exited
    with an error status.  The answer of the download is not looked at: the
    interpreter is run on the cache path also when the download returned
    [None]. *)
Theorem installer_script_follows_exit_error (python_exe penv_dir : string)
    (w : world) :
  let evs := new_events w (update_pip h python_exe penv_dir w).2 in
  (run_exit_error (pip_upgrade_command python_exe) evs = true <->
   is_Some (run_result [python_exe; get_pip_cache h penv_dir] evs)) /\
  (no_download evs = false <->
   is_Some (run_result [python_exe; get_pip_cache h penv_dir] evs)) /\
  Forall (fun e => is_download (ev_call e) = true ->
                   ev_call e = CDownload PIP_URL (get_pip_cache h penv_dir)) evs.
Proof.
  cbn zeta. rewrite update_pip_eq. cbn zeta.
  destruct (can_write h _ _).
  - destruct (spawn h _ (pip_upgrade_command python_exe)) as [pr fs3]. cbn [fst snd].
    destruct pr as [[ | code | code] out | reason]; cbn [proc_ok proc_exit_error].
    + cbn [snd]. log_of_update_pip. runs_of_update_pip.
      repeat split; try done; try (intros [? ?]; done).
      repeat constructor; done.
    + destruct (download h _ PIP_URL _) as [dr fs4]. cbn [fst snd].
      destruct (spawn h _ [python_exe; get_pip_cache h penv_dir]) as [qr fs5].
      cbn [fst snd].
      destruct (proc_ok qr); cbn [snd]; log_of_update_pip; runs_of_update_pip;
        (repeat split; try done; try (intros _; eexists; reflexivity);
         repeat constructor; done).
    + destruct (download h _ PIP_URL _) as [dr fs4]. cbn [fst snd].
      destruct (spawn h _ [python_exe; get_pip_cache h penv_dir]) as [qr fs5].
      cbn [fst snd].
      destruct (proc_ok qr); cbn [snd]; log_of_update_pip; runs_of_update_pip;
        (repeat split; try done; try (intros _; eexists; reflexivity);
         repeat constructor; done).
    + cbn [snd]. log_of_update_pip. runs_of_update_pip.
      repeat split; try done; try (intros [? ?]; done).
      repeat constructor; done.
  - cbn [snd]. log_of_update_pip. runs_of_update_pip.
    repeat split; try done; try (intros [? ?]; done).
    repeat constructor; done.
Qed.

End RecorderUpdater.

(** ** What a run touches *)

Section Footprint.

Context (h : host).

Lemma attempt_calls_within (penv_dir : string) (commands : list (list string)) :
  Forall (fun c => last c = Some penv_dir) commands ->
  Forall (stays_within h penv_dir) (attempt_calls penv_dir commands).
Proof.
  induction 1 as [ | c cs Hc Hcs IH]; [constructor | ]. cbn.
  constructor; [reflexivity | ]. constructor; [left; exact Hc | exact IH].
Qed.

Lemma venv_cmd_options_last (python_exe penv_dir : string) :
  Forall (fun c => last c = Some penv_dir) (venv_cmd_options python_exe penv_dir).
Proof. repeat constructor. Qed.

Lemma create_virtualenv_within (python_exe penv_dir : string) (w : world) :
  exists evs,
    trace (create_virtualenv h python_exe penv_dir w).2 = trace w ++ evs /\
    Forall (stays_within h penv_dir) (map ev_call evs).
Proof.
  rewrite create_virtualenv_eq. unfold create_with_local_venv.
  destruct (try_commands_events h penv_dir (venv_cmd_options python_exe penv_dir) None w)
    as (evs & tried & Hevs & Hcalls & [rest Hpre] & _).
  assert (Hlocal : Forall (stays_within h penv_dir) (map ev_call evs)).
  { rewrite Hcalls. apply attempt_calls_within.
    pose proof (venv_cmd_options_last python_exe penv_dir) as Hall.
    rewrite Hpre in Hall. apply Forall_app in Hall as [Hall _]. exact Hall. }
  destruct (try_commands h penv_dir _ None w) as [[p | e] w1]; cbn [snd] in Hevs.
  - exists evs. split; [exact Hevs | exact Hlocal].
  - destruct (create_with_remote_venv_events h python_exe penv_dir w1)
      as (script & run & Htrace & Hrun & _).
    destruct (create_with_remote_venv h python_exe penv_dir w1) as [[p | e'] w2];
      cbn [snd] in Htrace |- *;
      (eexists; split;
       [ rewrite Htrace, Hevs, <- app_assoc; reflexivity
       | rewrite !map_app, Hrun; apply Forall_app; split; [exact Hlocal | ];
         apply Forall_app; split;
         [ repeat constructor
         | destruct (truthy script); repeat constructor ] ]).
Qed.

Lemma try_pythons_within (penv_dir : string) (pythons : list string)
    (acc : option string) (w : world) :
  exists evs,
    trace (try_pythons h pythons penv_dir acc w).2 = trace w ++ evs /\
    Forall (stays_within h penv_dir) (map ev_call evs).
Proof.
  revert acc w. induction pythons as [ | p ps IH]; intros acc w.
  - exists []. rewrite app_nil_r. split; [reflexivity | constructor].
  - rewrite try_pythons_cons.
    destruct (create_virtualenv_within p penv_dir w) as (evs & Hevs & Hin).
    pose proof (create_virtualenv_result h p penv_dir w) as Hres.
    destruct (create_virtualenv h p penv_dir w) as [r w1]. cbn [fst snd] in *.
    destruct Hres as [-> | ->].
    + cbn [truthy]. destruct (IH None w1) as (evs' & Hevs' & Hin').
      exists (evs ++ evs'). split.
      * rewrite Hevs', Hevs, <- app_assoc. reflexivity.
      * rewrite map_app. apply Forall_app. done.
    + destruct (truthy (Some penv_dir)).
      * exists evs. done.
      * destruct (IH (Some penv_dir) w1) as (evs' & Hevs' & Hin').
        exists (evs ++ evs'). split.
        -- rewrite Hevs', Hevs, <- app_assoc. reflexivity.
        -- rewrite map_app. apply Forall_app. done.
Qed.

Lemma build_environment_within (penv_dir : string)
    (ignore_pythons : option (list string)) (w : world) :
  exists evs,
    trace (build_environment h penv_dir ignore_pythons w).2 = trace w ++ evs /\
    Forall (stays_within h penv_dir) (map ev_call evs).
Proof.
  rewrite build_environment_eq. cbn zeta.
  set (wa := World (fs w) _).
  set (pythons := compatible_pythons h wa ignore_pythons).
  set (w0 := World (fs w) (trace wa ++ _)).
  destruct (try_pythons_within penv_dir pythons None w0) as (evs & Hevs & Hin).
  destruct (try_pythons h pythons penv_dir None w0) as [r w1]. cbn [snd] in Hevs.
  set (pre := [ Event (CEcho ("Creating a virtual environment at " +:+ penv_dir))
                      (fs w) ODone;
                Event (CFindPythons ignore_pythons) (fs w) (OList pythons) ]).
  assert (Hw1 : trace w1 = trace w ++ pre ++ evs).
  { rewrite Hevs. subst w0 wa pre. cbn [trace]. rewrite <- !app_assoc. reflexivity. }
  assert (Hpre : Forall (stays_within h penv_dir) (map ev_call (pre ++ evs))).
  { rewrite map_app. apply Forall_app. split; [repeat constructor | exact Hin]. }
  clear Hevs. clearbody pre.
  destruct r as [r | e]; [ | exists (pre ++ evs); done].
  destruct (truthy r); [exists (pre ++ evs); done | ].
  destruct (portable h w1).
  - cbn [snd trace]. eexists. split; [rewrite Hw1, <- !app_assoc; reflexivity | ].
    rewrite app_assoc, map_app. apply Forall_app. split; [exact Hpre | repeat constructor].
  - set (w2 := World (fs w1) _).
    set (f := portable_python h w2 _).
    destruct (truthy f.1).
    + set (w3 := World f.2 _).
      destruct (create_virtualenv_within (default EmptyString f.1) penv_dir w3)
        as (evs' & Hevs' & Hin').
      eexists. split.
      * rewrite Hevs'. subst w3 w2. cbn [trace]. rewrite Hw1, <- !app_assoc.
        reflexivity.
      * rewrite app_assoc, map_app. apply Forall_app. split; [exact Hpre | ].
        rewrite !map_app. apply Forall_app. split; [repeat constructor | ].
        apply Forall_app. split; [repeat constructor | exact Hin'].
    + cbn [snd trace]. eexists. split.
      * subst w2. cbn [trace]. rewrite Hw1, <- !app_assoc. reflexivity.
      * rewrite app_assoc, map_app. apply Forall_app. split; [exact Hpre | ].
        repeat constructor.
Qed.

(** Given the directory [create_core_penv] resolved, [save_state] resolves
    to the same one. *)
Lemma resolve_target_again (penv_dir : option string) :
  py_or (Some (resolve_target h penv_dir)) (get_penv_dir h None)
  = resolve_target h penv_dir.
Proof.
  unfold resolve_target. destruct penv_dir as [[ | c s] | ]; cbn [py_or];
    try reflexivity; destruct (get_penv_dir h None); reflexivity.
Qed.

Lemma init_state_within (penv_dir : string) (w : world) :
  py_or (Some penv_dir) (get_penv_dir h None) = penv_dir ->
  exists evs,
    trace (init_state h (env_python h penv_dir) penv_dir w).2 = trace w ++ evs /\
    Forall (stays_within h penv_dir) (map ev_call evs).
Proof.
  intros Hdir. rewrite init_state_eq. cbn zeta.
  destruct (spawn h w _) as [[[ | code | code] [out | ] | reason] fs1]; cbn [fst snd];
    try (eexists; split; [reflexivity | repeat constructor]).
  rewrite save_state_eq. unfold state_path. rewrite Hdir.
  destruct (can_write h _ _); cbn [snd trace];
    (eexists; split; [rewrite <- !app_assoc; reflexivity | ]);
    repeat constructor.
Qed.

Lemma update_pip_within (penv_dir : string) (w : world) :
  exists evs,
    trace (update_pip h (env_python h penv_dir) penv_dir w).2 = trace w ++ evs /\
    Forall (stays_within h penv_dir) (map ev_call evs).
Proof.
  rewrite update_pip_eq. cbn zeta. unfold announced.
  destruct (can_write h _ _).
  - destruct (proc_ok _); [ | destruct (proc_exit_error _); [destruct (proc_ok _) | ]];
      cbn [snd trace fs];
      (eexists; split; [rewrite <- !app_assoc; reflexivity | ]);
      cbn [map app ev_call];
      repeat first [ apply Forall_nil | apply Forall_cons; split ];
      cbn [stays_within]; auto.
  - cbn [snd trace fs]. eexists. split; [rewrite <- !app_assoc; reflexivity | ].
    cbn [map app ev_call].
    repeat first [ apply Forall_nil | apply Forall_cons; split ];
      cbn [stays_within]; auto.
Qed.

Lemma Forall_calls (P : call -> Prop) (evs : list event) :
  Forall P (map ev_call evs) -> Forall (fun e => P (ev_call e)) evs.
Proof.
  induction evs as [ | e evs IH]; [constructor | ].
  cbn [map]. intros [He Hevs]%Forall_cons. constructor; [exact He | exact (IH Hevs)].
Qed.

(** X1.  Whatever happens, a run of [create_core_penv] keeps to the
    directory it resolved at the start ([penv_dir or get_penv_dir()]): every
    directory it clears is that one; every file it opens for writing is
    [state.json] or [pip.conf] directly under it; every download goes to the
    cache place of one of the two scripts; a portable interpreter is fetched
    into its parent directory; the only version query is put to the
    interpreter in its own bin directory; and every command run either has
    the directory as its last argument or is started with that interpreter. *)
Theorem only_the_target_is_touched (penv_dir : option string)
    (ignore_pythons : option (list string)) (w : world) :
  let target := py_or penv_dir (get_penv_dir h None) in
  Forall (fun e => stays_within h target (ev_call e))
         (new_events w (create_core_penv h penv_dir ignore_pythons w).2).
Proof.
  cbn zeta. fold (resolve_target h penv_dir).
  rewrite create_core_penv_split. cbn zeta.
  set (target := resolve_target h penv_dir).
  destruct (build_environment_within target ignore_pythons w) as (evs & Hevs & Hin).
  apply Forall_calls in Hin.
  destruct (build_environment h target ignore_pythons w) as [[r | e] w1];
    cbn [snd] in Hevs;
    [ | cbn [snd]; rewrite (new_events_app _ _ _ Hevs); exact Hin].
  destruct (truthy r);
    [ | cbn [snd]; rewrite (new_events_app _ _ _ Hevs); exact Hin].
  destruct (init_state_within target w1 (resolve_target_again penv_dir))
    as (evs1 & Hevs1 & Hin1).
  apply Forall_calls in Hin1.
  destruct (init_state h (env_python h target) target w1) as [[p | e] w2];
    cbn [snd] in Hevs1 |- *.
  - destruct (update_pip_within target w2) as (evs2 & Hevs2 & Hin2).
    apply Forall_calls in Hin2.
    unfold finished. cbn [trace].
    erewrite new_events_app;
      [ | cbn [trace]; rewrite Hevs2, Hevs1, Hevs, <- !app_assoc; reflexivity ].
    repeat (apply Forall_app; split); try assumption.
    repeat constructor.
  - rewrite (new_events_app w w2 (evs ++ evs1)
               ltac:(rewrite Hevs1, Hevs, <- !app_assoc; reflexivity)).
    apply Forall_app. split; assumption.
Qed.

End Footprint.

(** ** Runs on the POSIX host *)

(** On a host where everything works the first strategy builds the
    environment, the state is recorded and pip is upgraded. *)
Example healthy_run :
  (create_core_penv host_healthy None None empty_world).1 = Ok (Some PENV) /\
  map ev_call (trace (create_core_penv host_healthy None None empty_world).2)
  = [ CEcho ("Creating a virtual environment at " +:+ PENV);
      CFindPythons None;
      CRemoveDir PENV;
      CRun [PYTHON3; "-m"; "venv"; PENV];
      CCheckOutput [PENV_PYTHON; "-c"; version_code];
      CTime;
      COpenWrite (PENV +:+ "/state.json");
      CEcho "Updating Python package manager (PIP) in the virtual environment";
      COpenWrite (PENV +:+ "/pip.conf");
      CRun [PENV_PYTHON; "-m"; "pip"; "install"; "-U"; "pip"];
      CEcho "PIP has been successfully updated!";
      CEcho "Virtual environment has been successfully created!" ].
Proof. split; vm_compute; reflexivity. Qed.

(** On a host where no process succeeds every strategy is tried in turn, the
    remote one last, and the build fails. *)
Example broken_run :
  map ev_call (trace (create_core_penv host_broken None None empty_world).2)
  = [ CEcho ("Creating a virtual environment at " +:+ PENV);
      CFindPythons None ]
    ++ attempt_calls PENV (venv_cmd_options PYTHON3 PENV)
    ++ [ CRemoveDir PENV;
         CDownload VIRTUALENV_URL "/home/user/.platformio/.cache/tmp/virtualenv.pyz";
         CRun [PYTHON3; "/home/user/.platformio/.cache/tmp/virtualenv.pyz"; PENV];
         CIsPortable;
         CFetchPortable "/home/user/.platformio" ].
Proof. vm_compute. reflexivity. Qed.

Lemma local_strategies_stop_at_first_success_run :
  exists w1 w2,
    all_fail host_standalone PENV (take 2 (venv_cmd_options PYTHON3 PENV)) empty_world
    = Some w1 /\
    attempt host_standalone PENV ["virtualenv"; "-p"; PYTHON3; PENV] w1 = (Ok tt, w2) /\
    create_with_local_venv host_standalone PYTHON3 PENV empty_world = (Ok PENV, w2) /\
    map ev_call (new_events empty_world w2)
    = [ CRemoveDir PENV; CRun [PYTHON3; "-m"; "venv"; PENV];
        CRemoveDir PENV; CRun [PYTHON3; "-m"; "virtualenv"; "-p"; PYTHON3; PENV];
        CRemoveDir PENV; CRun ["virtualenv"; "-p"; PYTHON3; PENV] ] /\
    venv_cmd_options PYTHON3 PENV
    = [ [PYTHON3; "-m"; "venv"; PENV];
        [PYTHON3; "-m"; "virtualenv"; "-p"; PYTHON3; PENV];
        ["virtualenv"; "-p"; PYTHON3; PENV];
        [PYTHON3; "-m"; "virtualenv"; PENV];
        ["virtualenv"; PENV] ].
Proof.
  eexists _, _. split; [vm_compute; reflexivity | ]. split; [vm_compute; reflexivity | ].
  eapply (local_strategies_stop_at_first_success host_standalone PYTHON3 PENV 2
            ["virtualenv"; "-p"; PYTHON3; PENV]).
  - reflexivity.
  - vm_compute. reflexivity.
  - vm_compute. reflexivity.
Defined.

Lemma remote_strategy_once_after_local_failures_run :
  exists w1 w4,
    all_fail host_remote_only PENV (venv_cmd_options PYTHON3 PENV) empty_world = Some w1 /\
    create_virtualenv host_remote_only PYTHON3 PENV empty_world = (Ok (Some PENV), w4) /\
    map ev_call (new_events w1 w4)
    = [ CRemoveDir PENV;
        CDownload VIRTUALENV_URL "/home/user/.platformio/.cache/tmp/virtualenv.pyz";
        CRun [PYTHON3; "/home/user/.platformio/.cache/tmp/virtualenv.pyz"; PENV] ].
Proof.
  destruct (remote_strategy_once_after_local_failures host_remote_only PYTHON3 PENV
              empty_world
              (default empty_world
                 (all_fail host_remote_only PENV (venv_cmd_options PYTHON3 PENV)
                    empty_world)))
    as (r & w4 & _ & Hvenv & Hcalls & _ & _ & Hr & _).
  - vm_compute. reflexivity.
  - exists (default empty_world
              (all_fail host_remote_only PENV (venv_cmd_options PYTHON3 PENV)
                 empty_world)), w4.
    split; [vm_compute; reflexivity | ].
    split; [ | rewrite Hcalls; vm_compute; reflexivity].
    rewrite Hvenv, Hr. vm_compute. reflexivity.
Defined.

Lemma build_failure_when_everything_fails_run :
  exists w2,
    create_core_penv host_broken None None empty_world
    = (Raise (PIOInstallerException
                ("Could not create PIO Core Virtual Environment. Please report to " +:+
                 "https://github.com/platformio/platformio-core-installer/issues")),
       w2).
Proof.
  eexists.
  eapply (build_failure_when_everything_fails host_broken None None).
  - vm_compute. reflexivity.
  - vm_compute. reflexivity.
  - right. eexists. split; [vm_compute; reflexivity | ].
    eexists _, _. split; [vm_compute; reflexivity | ]. vm_compute. reflexivity.
Defined.

Lemma no_portable_fetch_when_running_portable_run :
  (portable_python host_portable empty_world (path_dirname host_portable PENV)).1
  = Some "/opt/portable/bin/python3" /\
  exists w2,
    create_core_penv host_portable None None empty_world
    = (Raise (PIOInstallerException BUILD_FAILURE), w2) /\
    Forall (fun e => is_fetch_portable (ev_call e) = false) (new_events empty_world w2).
Proof.
  split; [reflexivity | ].
  eapply (no_portable_fetch_when_running_portable host_portable None None).
  - vm_compute. reflexivity.
  - vm_compute. reflexivity.
  - reflexivity.
Defined.

Lemma download_ok_frame :
  download_frame host_healthy.
Proof.
  intros w url dst f Hne. cbn. apply lookup_insert_ne. congruence.
Qed.

Lemma target_cleared_before_every_attempt_run :
  Forall (fun e => is_run (ev_call e) = true ->
                   cleared_but host_healthy PENV (venv_script_cache host_healthy PENV)
                               (ev_before e))
         (new_events empty_world
            (create_with_remote_venv host_healthy PYTHON3 PENV empty_world).2).
Proof.
  apply (target_cleared_before_every_attempt host_healthy PYTHON3 PENV empty_world).
  exact download_ok_frame.
Defined.

Lemma save_then_load_run :
  exists w',
    save_state host_healthy (state_record host_healthy 1700000000 PENV_PYTHON "3.11.4")
               (Some PENV) empty_world
    = (Ok (PENV +:+ "/state.json"), w') /\
    load_state host_healthy (Some PENV) w'
    = (Ok (state_record host_healthy 1700000000 PENV_PYTHON "3.11.4"), w').
Proof.
  eexists. split; [vm_compute; reflexivity | ].
  eapply (save_then_load host_healthy _ (Some PENV) empty_world).
  - reflexivity.
  - vm_compute. reflexivity.
Defined.

Lemma init_state_record_run :
  exists w3,
    init_state host_healthy PENV_PYTHON PENV empty_world
    = (Ok (PENV +:+ "/state.json"), w3) /\
    load_state host_healthy (Some PENV) w3
    = (Ok (JDict [ ("created_on", JInt 1700000000);
                   ("python", JDict [ ("path", JStr PENV_PYTHON);
                                      ("version", JStr "3.11.4") ]);
                   ("installer_version", JStr "1.2.2");
                   ("platform", JDict [ ("platform", JStr "Linux-6.1.0-x86_64-with-glibc2.36");
                                        ("release", JStr "6.1.0") ]) ]), w3).
Proof.
  destruct (init_state_record host_healthy PENV_PYTHON PENV ("3.11.4" +:+ NL)
              (<[PENV +:+ "/bin/python" := "elf"]> ∅) empty_world eq_refl eq_refl)
    as (w3 & Hinit & _ & _ & Hload).
  exists w3. split; [exact Hinit | exact Hload].
Defined.

Lemma load_state_outcomes_run :
  load_state host_healthy (Some PENV) empty_world
  = (Raise (PIOInstallerException
              ("Could not found state.json file in `" +:+ PENV +:+ "/state.json`")),
     empty_world) /\
  fs interrupted_world !! (PENV +:+ "/state.json")
  = Some ("{" +:+ String DQUOTE "created_on" +:+ String DQUOTE ": 1700000000, "
          +:+ String DQUOTE "python" +:+ String DQUOTE ": {"
          +:+ String DQUOTE "path" +:+ String DQUOTE ": "
          +:+ String DQUOTE "/home/user/.platformio/penv/bin/python" +:+ String DQUOTE ", "
          +:+ String DQUOTE "version" +:+ String DQUOTE ": "
          +:+ String DQUOTE "3.11.4" +:+ String DQUOTE "}, "
          +:+ String DQUOTE "installer_version" +:+ String DQUOTE ": "
          +:+ String DQUOTE "1.2.2" +:+ String DQUOTE ", "
          +:+ String DQUOTE "platform" +:+ String DQUOTE ": {"
          +:+ String DQUOTE "platform" +:+ String DQUOTE ": "
          +:+ String DQUOTE "Linux-6.1.0-x86_64-with-glibc2.") /\
  load_state host_healthy (Some PENV) interrupted_world
  = (Raise JSONDecodeError, interrupted_world).
Proof.
  split; [ | split].
  - apply (load_state_outcomes host_healthy (Some PENV) empty_world). reflexivity.
  - vm_compute. reflexivity.
  - destruct (load_state_outcomes host_healthy (Some PENV) interrupted_world)
      as (_ & _ & _ & Hcut & _).
    eapply (Hcut _ (substring 0 (String.length written_record - 25) written_record)
                   (substring (String.length written_record - 25) 25 written_record)).
    + exact (state_record_wf host_healthy 1700000000 PENV_PYTHON "3.11.4").
    + vm_compute. reflexivity.
    + vm_compute. discriminate.
    + vm_compute. reflexivity.
Defined.

(** C7: the state file exists, and [load_state] fails all the same, because
    the file does not hold a whole JSON value. *)
Lemma load_state_truncated_file :
  is_Some (fs truncated_world !! (PENV +:+ "/state.json")) /\
  load_state host_healthy (Some PENV) truncated_world
  = (Raise JSONDecodeError, truncated_world).
Proof.
  split; [eexists; reflexivity | vm_compute; reflexivity].
Qed.

(** C8: the record [init_state] persists has no [runtime] key; the
    interpreter is recorded under [python]. *)
Lemma state_record_has_no_runtime_key :
  exists d w3,
    load_state host_healthy (Some PENV)
      (init_state host_healthy PENV_PYTHON PENV empty_world).2
    = (Ok (JDict d), w3) /\
    map fst d = ["created_on"; "python"; "installer_version"; "platform"] /\
    dict_get "runtime" d = None.
Proof.
  eexists _, _. split; [vm_compute; reflexivity | ]. split; reflexivity.
Qed.

(** C4: [update_pip] returns [False] although neither the primary command
    nor the installer script has failed; neither was run, because [pip.conf]
    could not be written, and the primary command would have succeeded. *)
Lemma update_pip_false_though_nothing_failed :
  (update_pip host_read_only PENV_PYTHON PENV empty_world).1 = Ok false /\
  run_result (pip_upgrade_command PENV_PYTHON)
    (new_events empty_world (update_pip host_read_only PENV_PYTHON PENV empty_world).2)
  = None /\
  run_result [PENV_PYTHON; get_pip_cache host_read_only PENV]
    (new_events empty_world (update_pip host_read_only PENV_PYTHON PENV empty_world).2)
  = None /\
  proc_ok (spawn host_read_only
             (update_pip host_read_only PENV_PYTHON PENV empty_world).2
             (pip_upgrade_command PENV_PYTHON)).1 = true.
Proof.
  vm_compute. repeat split.
Qed.

Lemma update_pip_result_run :
  exists w',
    update_pip host_stale_pip PENV_PYTHON PENV empty_world = (Ok true, w') /\
    map ev_call (new_events empty_world w')
    = [ CEcho "Updating Python package manager (PIP) in the virtual environment";
        COpenWrite (PENV +:+ "/pip.conf");
        CRun [PENV_PYTHON; "-m"; "pip"; "install"; "-U"; "pip"];
        CDownload PIP_URL "/home/user/.platformio/.cache/tmp/get-pip.py";
        CRun [PENV_PYTHON; "/home/user/.platformio/.cache/tmp/get-pip.py"];
        CEcho "PIP has been successfully updated!" ].
Proof.
  destruct (update_pip_result host_stale_pip PENV_PYTHON PENV empty_world)
    as (b & w' & Hrun & _ & _ & _ & Hwritable).
  destruct (Hwritable eq_refl) as (_ & _ & Herror & _).
  destruct (Herror ltac:(vm_compute; reflexivity)) as (Hb & _ & Hcalls).
  exists w'. split.
  - rewrite Hrun, Hb. vm_compute. reflexivity.
  - rewrite Hcalls. vm_compute. reflexivity.
Defined.

Lemma pip_fallback_only_after_exit_error_run :
  (update_pip host_read_only PENV_PYTHON PENV empty_world).1 = Ok false /\
  no_download (new_events empty_world
                 (update_pip host_read_only PENV_PYTHON PENV empty_world).2) = true /\
  no_run (new_events empty_world
            (update_pip host_read_only PENV_PYTHON PENV empty_world).2) = true.
Proof.
  apply (pip_fallback_only_after_exit_error host_read_only PENV_PYTHON PENV empty_world).
  reflexivity.
Defined.

(** ** Further runs on the POSIX host *)

Lemma only_the_target_is_touched_run :
  map ev_call (new_events empty_world
                 (create_core_penv host_override None None empty_world).2)
  = [ CEcho "Creating a virtual environment at /srv/penv";
      CFindPythons None;
      CRemoveDir "/srv/penv";
      CRun [PYTHON3; "-m"; "venv"; "/srv/penv"];
      CCheckOutput ["/srv/penv/Scripts/python.exe"; "-c"; version_code];
      CTime;
      COpenWrite "/srv/penv/state.json";
      CEcho "Updating Python package manager (PIP) in the virtual environment";
      COpenWrite "/srv/penv/pip.conf";
      CRun ["/srv/penv/Scripts/python.exe"; "-m"; "pip"; "install"; "-U"; "pip"];
      CEcho "PIP has been successfully updated!";
      CEcho "Virtual environment has been successfully created!" ] /\
  Forall (fun e => stays_within host_override "/srv/penv" (ev_call e))
         (new_events empty_world
            (create_core_penv host_override None None empty_world).2).
Proof.
  split; [vm_compute; reflexivity | ].
  exact (only_the_target_is_touched host_override None None empty_world).
Defined.

Lemma first_working_interpreter_wins_run :
  exists w2,
    try_pythons host_two_pythons ([PYTHON2] ++ PYTHON3 :: ["/opt/never/python"])
      PENV None empty_world
    = (Ok (Some PENV), w2) /\
    run_result ["/opt/never/python"; "-m"; "venv"; PENV] (trace w2) = None.
Proof.
  destruct (first_working_interpreter_wins host_two_pythons PENV [PYTHON2] PYTHON3
              ["/opt/never/python"] None (Some PENV) empty_world
              (default empty_world (candidates_exhausted host_two_pythons PENV [PYTHON2]
                                      empty_world))
              (create_virtualenv host_two_pythons PYTHON3 PENV
                 (default empty_world (candidates_exhausted host_two_pythons PENV
                                         [PYTHON2] empty_world))).2)
    as (Htry & _).
  - vm_compute. reflexivity.
  - vm_compute. reflexivity.
  - reflexivity.
  - eexists. split; [exact Htry | ]. vm_compute. reflexivity.
Defined.

Lemma create_core_penv_returns_target_run :
  (create_core_penv host_healthy None None empty_world).1 = Ok (Some PENV).
Proof.
  destruct (create_core_penv host_healthy None None empty_world) as [r w'] eqn:Hrun.
  destruct r as [r | e]; [ | vm_compute in Hrun; discriminate Hrun].
  destruct (create_core_penv_returns_target host_healthy None None empty_world w' r Hrun)
    as (-> & _).
  reflexivity.
Defined.

Lemma pip_upgrade_failure_is_not_fatal_run :
  (create_core_penv host_no_pip None None empty_world).1 = Ok (Some PENV) /\
  exists w2,
    (init_state host_no_pip PENV_PYTHON PENV
       (build_environment host_no_pip PENV None empty_world).2).2 = w2 /\
    (update_pip host_no_pip PENV_PYTHON PENV w2).1 = Ok false.
Proof.
  split.
  - destruct (pip_upgrade_failure_is_not_fatal host_no_pip None None empty_world
                (build_environment host_no_pip PENV None empty_world).2
                (init_state host_no_pip PENV_PYTHON PENV
                   (build_environment host_no_pip PENV None empty_world).2).2
                (Some PENV) (PENV +:+ "/state.json"))
      as (Hrun & _).
    + vm_compute. reflexivity.
    + reflexivity.
    + vm_compute. reflexivity.
    + rewrite Hrun. reflexivity.
  - eexists. split; [reflexivity | ]. vm_compute. reflexivity.
Defined.

Lemma local_failure_raises_last_error_run :
  exists w1,
    create_with_local_venv host_broken PYTHON3 PENV empty_world
    = (Raise (CalledProcessError 1 ["virtualenv"; PENV]), w1).
Proof.
  destruct (local_failure_raises_last_error host_broken PYTHON3 PENV empty_world
              (default empty_world
                 (all_fail host_broken PENV (venv_cmd_options PYTHON3 PENV) empty_world)))
    as (e & m & r & Hrun & Hlast & Herr).
  - vm_compute. reflexivity.
  - eexists. rewrite Hrun. vm_compute in Hlast. injection Hlast as _ <-.
    cbn in Herr. injection Herr as <-. reflexivity.
Defined.

Lemma remote_strategy_outcomes_run :
  (create_with_remote_venv host_standalone PYTHON3 PENV empty_world).1
  = Raise (PIOInstallerException "Could not find virtualenv script") /\
  map ev_call (new_events empty_world
                 (create_with_remote_venv host_standalone PYTHON3 PENV empty_world).2)
  = [ CRemoveDir PENV;
      CDownload VIRTUALENV_URL (venv_script_cache host_standalone PENV) ].
Proof.
  apply (remote_strategy_outcomes host_standalone PYTHON3 PENV empty_world).
  reflexivity.
Defined.

Lemma state_recording_failure_is_fatal_run :
  exists w2,
    create_core_penv host_no_query None None empty_world
    = (Raise (CalledProcessError 1 [PENV_PYTHON; "-c"; version_code]), w2).
Proof.
  eexists.
  eapply (state_recording_failure_is_fatal host_no_query None None empty_world _ _
            (Some PENV)).
  - vm_compute. reflexivity.
  - reflexivity.
  - vm_compute. reflexivity.
Defined.

Lemma nothing_recorded_without_environment_run :
  Forall (fun e => recording_call (ev_call e) = false)
         (new_events empty_world (create_core_penv host_broken None None empty_world).2).
Proof.
  apply (nothing_recorded_without_environment host_broken None None empty_world None).
  - vm_compute. reflexivity.
  - reflexivity.
Defined.

Lemma portable_not_consulted_after_success_run :
  exists w1,
    build_environment host_healthy PENV None empty_world = (Ok (Some PENV), w1) /\
    Forall (fun e => ev_call e <> CIsPortable /\ is_fetch_portable (ev_call e) = false)
           (new_events empty_world w1).
Proof.
  eexists.
  eapply (portable_not_consulted_after_success host_healthy PENV None).
  - vm_compute. reflexivity.
  - vm_compute. reflexivity.
  - reflexivity.
Defined.

Lemma portable_interpreter_is_tried_last_run :
  exists w3,
    build_environment host_fetches_portable PENV None empty_world
    = create_virtualenv host_fetches_portable "/opt/portable/bin/python3" PENV w3 /\
    (create_virtualenv host_fetches_portable "/opt/portable/bin/python3" PENV w3).1
    = Ok (Some PENV).
Proof.
  eexists. split.
  - eapply (portable_interpreter_is_tried_last host_fetches_portable PENV None).
    + vm_compute. reflexivity.
    + vm_compute. reflexivity.
    + vm_compute. reflexivity.
    + vm_compute. reflexivity.
    + reflexivity.
  - vm_compute. reflexivity.
Defined.

Lemma init_state_failure_writes_nothing_run :
  (init_state host_no_query PENV_PYTHON PENV empty_world).1
  = Raise (CalledProcessError 1 [PENV_PYTHON; "-c"; version_code]) /\
  map ev_call (new_events empty_world
                 (init_state host_no_query PENV_PYTHON PENV empty_world).2)
  = [CCheckOutput [PENV_PYTHON; "-c"; version_code]].
Proof.
  apply (init_state_failure_writes_nothing host_no_query PENV_PYTHON PENV empty_world).
  intros out. vm_compute. discriminate.
Defined.

Lemma recorded_state_is_clean_run :
  exists created version w',
    load_state host_healthy (Some PENV) w'
    = (Ok (JDict [ ("created_on", JInt created);
                   ("python", JDict [ ("path", JStr PENV_PYTHON);
                                      ("version", JStr version) ]);
                   ("installer_version", JStr "1.2.2");
                   ("platform", JDict [ ("platform", JStr "Linux-6.1.0-x86_64-with-glibc2.36");
                                        ("release", JStr "6.1.0") ]) ]), w') /\
    strip version = version.
Proof.
  destruct (recorded_state_is_clean host_healthy PENV_PYTHON PENV empty_world
              (init_state host_healthy PENV_PYTHON PENV empty_world).2
              (PENV +:+ "/state.json"))
    as (_ & created & version & Hload & Hstrip).
  - vm_compute. reflexivity.
  - exists created, version, (init_state host_healthy PENV_PYTHON PENV empty_world).2.
    split; [exact Hload | exact Hstrip].
Defined.

Lemma installer_script_follows_exit_error_run :
  run_exit_error (pip_upgrade_command PENV_PYTHON)
    (new_events empty_world (update_pip host_no_pip PENV_PYTHON PENV empty_world).2)
  = true /\
  is_Some (run_result [PENV_PYTHON; get_pip_cache host_no_pip PENV]
             (new_events empty_world
                (update_pip host_no_pip PENV_PYTHON PENV empty_world).2)).
Proof.
  assert (H : run_exit_error (pip_upgrade_command PENV_PYTHON)
                (new_events empty_world
                   (update_pip host_no_pip PENV_PYTHON PENV empty_world).2) = true)
    by (vm_compute; reflexivity).
  split; [exact H | ].
  exact (proj1 (proj1 (installer_script_follows_exit_error host_no_pip PENV_PYTHON PENV
                         empty_world)) H).
Defined.
